(** * Tango RPC: a shallow embedding of the dispatch pipeline

    The development follows the TypeScript sources of the repository:
    - [util/string.ts]            the kebab normalizer,
    - [util/pipeline.ts]          the two pipeline executors,
    - [server/middleware.ts]      the out-of-band middleware slot,
    - [server/server-context.ts]  the per-request context,
    - [server/create-handler.ts]  the request dispatcher,
    - [client/client-context.ts]  the per-call context,
    - [client/create-client.ts]   the two proxies and the transport.

    Strings are sequences of 8-bit code units; the character classes of the
    two regular expressions are ASCII ranges, so the model is exact on ASCII
    identifiers.  JS [Map]s whose iteration order is observed are association
    lists; maps that are only read and written by key are [gmap]s. *)

From Stdlib Require Import Ascii String ZArith List Lia.
From Equations Require Import Equations.
From Equations.Prop Require Import Logic.
From stdpp Require Import base option list gmap strings pretty.

Set Warnings "-register-all".

Local Open Scope string_scope.
Local Open Scope list_scope.

(** ** 1. String normalizer ([util/string.ts]) *)

Module Kebab.

Definition code (c : ascii) : nat := nat_of_ascii c.

(** The character classes [[a-z]], [[0-9]] and [[A-Z]]. *)
Definition is_lower (c : ascii) : bool :=
  (97 <=? code c)%nat && (code c <=? 122)%nat.
Definition is_digit (c : ascii) : bool :=
  (48 <=? code c)%nat && (code c <=? 57)%nat.
Definition is_upper (c : ascii) : bool :=
  (65 <=? code c)%nat && (code c <=? 90)%nat.

Definition to_lower (c : ascii) : ascii :=
  if is_upper c then ascii_of_nat (code c + 32) else c.

(** [String.prototype.toLowerCase], on ASCII code units. *)
Definition toLowerCase (l : list ascii) : list ascii := map to_lower l.

Definition dash : ascii := "-"%char.

(** [str.replace(re, ...)] with a global regular expression whose matches
    are never empty.  [m l] tries the expression anchored at the head of
    [l] and answers the replacement text together with the length of the
    match; the scan copies unmatched characters, emits the replacement at
    a match and resumes right after the matched characters ([skip] counts
    the characters of the current match still to be passed over). *)
Fixpoint replace_scan (m : list ascii -> option (list ascii * nat))
         (skip : nat) (l : list ascii) : list ascii :=
  match l with
  | [] => []
  | c :: l' =>
      match skip with
      | S k => replace_scan m k l'
      | O =>
          match m l with
          | Some (rep, len) => rep ++ replace_scan m (pred len) l'
          | None => c :: replace_scan m O l'
          end
      end
  end.

Definition replace_all m (l : list ascii) : list ascii := replace_scan m O l.

(** [/([a-z0-9])([A-Z])/] anchored at the head, replaced by ["$1-$2"]. *)
Definition match_lower_upper (l : list ascii) : option (list ascii * nat) :=
  match l with
  | a :: b :: _ =>
      if (is_lower a || is_digit a) && is_upper b
      then Some ([a; dash; b], 2%nat)
      else None
  | _ => None
  end.

(** Length of the longest prefix matched by [[A-Z]+] (greedy). *)
Fixpoint upper_run (l : list ascii) : nat :=
  match l with
  | c :: l' => if is_upper c then S (upper_run l') else O
  | [] => O
  end.

(** Does [[A-Z][a-z]] match at offset [k]? *)
Definition upper_lower_at (l : list ascii) (k : nat) : bool :=
  match l !! k, l !! S k with
  | Some x, Some y => is_upper x && is_lower y
  | _, _ => false
  end.

(** Backtracking of the greedy [[A-Z]+]: the first group gives back one
    character at a time, from [k] characters down to one, until the
    second group matches behind it. *)
Fixpoint backtrack (l : list ascii) (k : nat) : option nat :=
  match k with
  | O => None
  | S k' => if upper_lower_at l k then Some k else backtrack l k'
  end.

(** [/([A-Z]+)([A-Z][a-z])/] anchored at the head, replaced by ["$1-$2"]. *)
Definition match_acronym (l : list ascii) : option (list ascii * nat) :=
  match backtrack l (upper_run l) with
  | Some k => Some (take k l ++ dash :: take 2 (drop k l), (k + 2)%nat)
  | None => None
  end.

Definition pass1 (l : list ascii) : list ascii := replace_all match_lower_upper l.
Definition pass2 (l : list ascii) : list ascii := replace_all match_acronym l.

(** The two insertion passes, before lowercasing. *)
Definition insert_dashes (s : string) : string :=
  string_of_list_ascii (pass2 (pass1 (list_ascii_of_string s))).

Definition camelToKebabCase (s : string) : string :=
  string_of_list_ascii
    (toLowerCase (pass2 (pass1 (list_ascii_of_string s)))).

(** The two passes once more, this time after the words of the
    specification rather than after the regular expressions: a dash goes
    between a lowercase letter or digit and an uppercase letter, and
    between an uppercase letter (the end of a run of them) and an
    uppercase-lowercase pair.  The theorems compare these with [pass1] and
    [pass2]. *)
Definition dash_between1 (a : ascii) (rest : list ascii) : bool :=
  match rest with
  | b :: _ => (is_lower a || is_digit a) && is_upper b
  | [] => false
  end.

Definition dash_between2 (a : ascii) (rest : list ascii) : bool :=
  match rest with
  | b :: c :: _ => is_upper a && is_upper b && is_lower c
  | _ => false
  end.

Fixpoint spec_insert (between : ascii -> list ascii -> bool) (l : list ascii)
  : list ascii :=
  match l with
  | [] => []
  | a :: rest =>
      if between a rest then a :: dash :: spec_insert between rest
      else a :: spec_insert between rest
  end.

Definition spec_pass1 : list ascii -> list ascii := spec_insert dash_between1.
Definition spec_pass2 : list ascii -> list ascii := spec_insert dash_between2.

Definition spec_kebab (s : string) : string :=
  string_of_list_ascii
    (toLowerCase (spec_pass2 (spec_pass1 (list_ascii_of_string s)))).

End Kebab.

(** Lowercasing of a whole string, as [Headers] does with header names. *)
Definition lowercase (s : string) : string :=
  string_of_list_ascii (Kebab.toLowerCase (list_ascii_of_string s)).

(** [Array.prototype.join]. *)
Fixpoint join (sep : string) (l : list string) : string :=
  match l with
  | [] => ""
  | [x] => x
  | x :: rest => x +:+ sep +:+ join sep rest
  end.

(** [String.prototype.split] with a one-character separator: the pieces
    between the separators, empty pieces included. *)
Fixpoint split_on (sep : ascii) (s : string) : list string :=
  match s with
  | EmptyString => [""]
  | String c s' =>
      if Ascii.eqb c sep then "" :: split_on sep s'
      else match split_on sep s' with
           | piece :: rest => String c piece :: rest
           | [] => [String c ""]
           end
  end.

Fixpoint has_char (c : ascii) (s : string) : bool :=
  match s with
  | EmptyString => false
  | String c' s' => Ascii.eqb c' c || has_char c s'
  end.

(** [String.prototype.includes]. *)
Fixpoint includes (needle s : string) : bool :=
  String.prefix needle s ||
  match s with
  | EmptyString => false
  | String _ s' => includes needle s'
  end.

(** The route key of a path: every level kebab-normalised, joined by dots
    ([path.map(camelToKebabCase).join(".")]). *)
Definition route_key (path : list string) : string :=
  join "." (map Kebab.camelToKebabCase path).

(** ** 2. Values and failures *)

(** The JS values that travel through the framework. *)
Inductive value : Type :=
| VUndefined
| VNull
| VBool (b : bool)
| VNum (n : Z)
| VStr (s : string)
| VFile (name : string)
| VArr (items : list value)
| VObj (fields : list (string * value)).

(** What a rejected promise carries. *)
Inductive exn : Type :=
| Error (message : string)
| ParseError (message : string)
| ZodError (issues : list value)
| TypeError (message : string)
| RangeError (message : string)
| AbortError (message : string).

Inductive outcome : Type :=
| Resolved (v : value)
| Rejected (e : exn).

(** ** 3. Pipeline executor ([util/pipeline.ts])

    The state object is shared and mutable: it is threaded through every
    stage, and a stage that fails hands back the state it left behind.
    [next] is the injected nullary; calling it runs the tail on the state as
    it is at the time of the call. *)

Definition Middleware (STATE : Type) : Type :=
  STATE -> (STATE -> STATE * outcome) -> STATE * outcome.

Module Pipeline.
Section Run.
Context {STATE : Type}.

Definition exhausted : exn :=
  Error "Pipeline exhausted. Make sure the last middleware in the chain returns a result without calling next().".

Equations? execute (middlewares : list (Middleware STATE)) (index : nat)
           (state : STATE) : STATE * outcome
  by wf (length middlewares - index) lt :=
  execute middlewares index state
    with inspect (middlewares !! index) := {
    | exist _ None _ => (state, Rejected exhausted)
    | exist _ (Some middleware) _ =>
        middleware state (fun st => execute middlewares (S index) st)
    }.
Proof.
  assert (index < length middlewares) by (eapply lookup_lt_Some; eauto).
  lia.
Qed.

Definition pipeline (state : STATE) (middlewares : list (Middleware STATE))
  : STATE * outcome :=
  execute middlewares 0 state.
End Run.
End Pipeline.

(** The other executor found in the sources: it shifts the head off its
    rest-argument array and spreads what remains into the recursive call. *)
Module PipelineShift.
Section Run.
Context {STATE : Type}.

Definition not_found : exn := Error "Middleware not found!".

Fixpoint pipeline (state : STATE) (middlewares : list (Middleware STATE))
  : STATE * outcome :=
  match middlewares with
  | [] => (state, Rejected not_found)
  | middleware :: rest => middleware state (fun st => pipeline st rest)
  end.
End Run.
End PipelineShift.

(** A middleware that does what the contract asks of it: some work on the
    state, then [next()], some more work on the state (which may look at
    what [next()] answered), and the answer of [next()] handed back. *)
Record Stage (STATE : Type) : Type := {
  before : STATE -> STATE;
  after : STATE -> outcome -> STATE
}.
Arguments before {STATE} _ _.
Arguments after {STATE} _ _ _.

Definition pass_through {STATE} (g : Stage STATE) : Middleware STATE :=
  fun state next =>
    let '(state', r) := next (before g state) in
    (after g state' r, r).

(** The state as the stages leave it on the way in, and on the way out. *)
Definition run_before {STATE} (stages : list (Stage STATE)) (state : STATE)
  : STATE :=
  fold_left (fun st g => before g st) stages state.

Definition run_after {STATE} (stages : list (Stage STATE)) (state : STATE)
           (r : outcome) : STATE :=
  fold_right (fun g st => after g st r) state stages.

(** A middleware hands back what [next()] answered: its outcome is the
    outcome of a call of [next]. *)
Definition returns_next {STATE} (m : Middleware STATE) : Prop :=
  forall state next, exists state', snd (m state next) = snd (next state').

(** ** 4. HTTP headers

    A [Headers] object is read and written by name only, and names are
    case-insensitive: every access goes through the lowercased name. *)

Abbreviation Headers := (gmap string string).

Definition headers_set (name v : string) (h : Headers) : Headers :=
  <[lowercase name := v]> h.

Definition headers_get (name : string) (h : Headers) : option string :=
  h !! lowercase name.

(** ** 5. JS objects and [Map]s with observable order *)

(** [obj[key] = v] on a plain object: an existing property keeps its place,
    a new one goes last. *)
Fixpoint assoc_set {A} (key : string) (v : A) (l : list (string * A))
  : list (string * A) :=
  match l with
  | [] => [(key, v)]
  | (k, x) :: rest =>
      if String.eqb k key then (k, v) :: rest
      else (k, x) :: assoc_set key v rest
  end.

Fixpoint assoc_get {A} (key : string) (l : list (string * A)) : option A :=
  match l with
  | [] => None
  | (k, x) :: rest => if String.eqb k key then Some x else assoc_get key rest
  end.

Fixpoint assoc_delete {A} (key : string) (l : list (string * A))
  : list (string * A) :=
  match l with
  | [] => []
  | (k, x) :: rest =>
      if String.eqb k key then rest else (k, x) :: assoc_delete key rest
  end.

(** [new Map(entries)]: the entries are set one after the other. *)
Definition Map_new {A} (entries : list (string * A)) : list (string * A) :=
  fold_left (fun m kv => assoc_set (fst kv) (snd kv) m) entries [].

Fixpoint indexed_from (i : nat) (items : list value) : list (string * value) :=
  match items with
  | [] => []
  | x :: rest => (pretty i, x) :: indexed_from (S i) rest
  end.

(** [Object.entries(v)]: the own enumerable string-keyed properties. *)
Definition Object_entries (v : value) : list (string * value) :=
  match v with
  | VObj fields => fields
  | VArr items => indexed_from 0 items
  | VStr s =>
      indexed_from 0
        (map (fun c => VStr (String c "")) (list_ascii_of_string s))
  | _ => []
  end.

(** JS truthiness, as used by [x || {}] and [if (x)]. *)
Definition truthy (v : value) : bool :=
  match v with
  | VUndefined | VNull => false
  | VBool b => b
  | VNum n => negb (n =? 0)%Z
  | VStr s => negb (String.eqb s "")
  | VFile _ | VArr _ | VObj _ => true
  end.

(** [v || {}]. *)
Definition or_empty (v : value) : value := if truthy v then v else VObj [].

(** ** 6. Server context ([server/server-context.ts]) *)

Module Server.

Inductive FormEntry : Type :=
| FString (s : string)
| FFile (name type content : string).

(** The host's request: what [request.method], [request.headers],
    [new URL(request.url).searchParams], [request.arrayBuffer()] /
    [request.text()] and [request.formData()] answer ([None]: the body is
    not form data and reading it as such fails). *)
Record Request : Type := {
  method : string;
  searchParams : list (string * string);
  headers : Headers;
  body : string;
  formData : option (list (string * FormEntry))
}.

(** [event.params.path] is [undefined] when the route has no such part. *)
Record RequestEvent : Type := {
  params_path : option string;
  request : Request
}.

Record ServerContext : Type := {
  _cache : Z;
  _status : Z;
  start : Z;
  args : list (string * value);
  headers_response : Headers;
  env : gmap string value;
  event : RequestEvent
}.

(** [ctx.headers.request] is the request's own header object. *)
Definition headers_request (ctx : ServerContext) : Headers :=
  headers (request (event ctx)).

(** The constructor; [now] stands for the reading of [performance.now()],
    a number that is only ever subtracted from a later reading and
    printed, which is the host's doing ([elapsed_text] below). *)
Definition new_ServerContext (now : Z) (a : value) (ev : RequestEvent)
  : ServerContext :=
  {| _cache := 0; _status := 200; start := now;
     args := Map_new (Object_entries (or_empty a));
     headers_response := ∅; env := ∅; event := ev |}.

Definition getArgs (ctx : ServerContext) : value := VObj (args ctx).

Definition with_status (code : Z) (ctx : ServerContext) : ServerContext :=
  {| _cache := _cache ctx; _status := code; start := start ctx;
     args := args ctx; headers_response := headers_response ctx;
     env := env ctx; event := event ctx |}.

Definition with_cache (seconds : Z) (ctx : ServerContext) : ServerContext :=
  {| _cache := seconds; _status := _status ctx; start := start ctx;
     args := args ctx; headers_response := headers_response ctx;
     env := env ctx; event := event ctx |}.

Definition with_headers_response (h : Headers) (ctx : ServerContext)
  : ServerContext :=
  {| _cache := _cache ctx; _status := _status ctx; start := start ctx;
     args := args ctx; headers_response := h;
     env := env ctx; event := event ctx |}.

(** [ctx.headers.response.set(name, v)]. *)
Definition response_header_set (name v : string) (ctx : ServerContext)
  : ServerContext :=
  with_headers_response (headers_set name v (headers_response ctx)) ctx.

(** [ctx.cache]: [set] clamps with [Math.max(0, Math.floor(seconds))]; the
    model takes integral seconds, on which [Math.floor] is the identity. *)
Module cache.
Definition set (seconds : Z) (ctx : ServerContext) : ServerContext :=
  with_cache (Z.max 0 seconds) ctx.
Definition get (ctx : ServerContext) : Z := _cache ctx.
End cache.

(** [ctx.status]: [set] stores its argument as it is; the shortcuts store a
    fixed code each. *)
Module status.

Inductive shortcut : Type :=
| continue | switchingProtocols | processing
| ok | created | accepted | noContent | resetContent | partialContent
| multipleChoices | movedPermanently | found | seeOther | notModified
| temporaryRedirect | permanentRedirect
| badRequest | unauthorized | paymentRequired | forbidden | notFound
| methodNotAllowed | notAcceptable | conflict | gone | lengthRequired
| preconditionFailed | payloadTooLarge | uriTooLong | badContent
| rangeNotSatisfiable | expectationFailed | tooManyRequests
| serverError | notImplemented | badGateway | serviceUnavailable
| gatewayTimeout | httpVersionNotSupported.

Definition code_of (k : shortcut) : Z :=
  match k with
  | continue => 100 | switchingProtocols => 101 | processing => 102
  | ok => 200 | created => 201 | accepted => 202 | noContent => 204
  | resetContent => 205 | partialContent => 206
  | multipleChoices => 300 | movedPermanently => 301 | found => 302
  | seeOther => 303 | notModified => 304 | temporaryRedirect => 307
  | permanentRedirect => 308
  | badRequest => 400 | unauthorized => 401 | paymentRequired => 402
  | forbidden => 403 | notFound => 404 | methodNotAllowed => 405
  | notAcceptable => 406 | conflict => 409 | gone => 410
  | lengthRequired => 411 | preconditionFailed => 412
  | payloadTooLarge => 413 | uriTooLong => 414 | badContent => 415
  | rangeNotSatisfiable => 416 | expectationFailed => 417
  | tooManyRequests => 429
  | serverError => 500 | notImplemented => 501 | badGateway => 502
  | serviceUnavailable => 503 | gatewayTimeout => 504
  | httpVersionNotSupported => 505
  end%Z.

Definition set (code : Z) (ctx : ServerContext) : ServerContext :=
  with_status code ctx.
Definition get (ctx : ServerContext) : Z := _status ctx.
Definition call (k : shortcut) (ctx : ServerContext) : ServerContext :=
  with_status (code_of k) ctx.

(** One use of [ctx.status]: [set] with some number, or a shortcut. *)
Inductive op : Type :=
| Set_ (code : Z)
| Shortcut (k : shortcut).

Definition apply (o : op) (ctx : ServerContext) : ServerContext :=
  match o with
  | Set_ code => set code ctx
  | Shortcut k => call k ctx
  end.

Definition run (ops : list op) (ctx : ServerContext) : ServerContext :=
  fold_left (fun c o => apply o c) ops ctx.

End status.

(** A valid HTTP status code is a three-digit integer from 100 to 599. *)
Definition valid_status (code : Z) : Prop := (100 <= code <= 599)%Z.

End Server.

(** ** 7. Server dispatcher ([server/create-handler.ts]) *)

Module Handler.
Import Server.

Abbreviation ServerMiddleware := (Middleware ServerContext).

Inductive RpcType : Type := query | command | get.

Definition rpc_name (t : RpcType) : string :=
  match t with
  | query => "query"
  | command => "command"
  | get => "get"
  end.

(** [zodSchema.parse] answers the parsed value or raises its issues. *)
Record Descriptor : Type := {
  rpcType : RpcType;
  implementation : value -> ServerContext -> ServerContext * outcome;
  zodSchema : option (value -> value + list value)
}.

(** The API definition: descriptors at the leaves, as [tango.query],
    [tango.command] and [tango.get] make them, and object literals above
    them, each with the middleware list of its out-of-band slot.  The
    model covers the definitions made of these two kinds of objects: a
    member of an object literal is a descriptor or an object literal
    again, under any name.  Both inherit from [Object.prototype]. *)
Inductive ApiNode : Type :=
| Endpoint (middlewares : list ServerMiddleware) (d : Descriptor)
| Group (middlewares : list ServerMiddleware) (children : list (string * ApiNode)).

(** What [current] can be while the lookup walks down: an object of the
    definition; the schema object of a descriptor; [Object.prototype];
    [null], which is what [Object.prototype.__proto__] answers; and
    [NonObject] for a function or a string (the [rpcType] and the
    [implementation] of a descriptor, the methods every object
    inherits). *)
Inductive Current : Type :=
| Node (n : ApiNode)
| SchemaObject (d : Descriptor)
| ObjectPrototype
| Null
| NonObject.

(** The function-valued properties of [Object.prototype]. *)
Definition prototype_functions : list string :=
  ["constructor"; "__defineGetter__"; "__defineSetter__"; "hasOwnProperty";
   "__lookupGetter__"; "__lookupSetter__"; "isPrototypeOf";
   "propertyIsEnumerable"; "toString"; "valueOf"; "toLocaleString"].

(** [getMiddlewares(target)]: [target[MIDDLEWARE] || []]; reading a
    property of [null] throws a [TypeError], of whose message, which is
    the engine's, the model keeps the beginning.  No middleware is taken
    to be put on a schema object or on [Object.prototype]. *)
Definition own_middlewares (n : ApiNode) : list ServerMiddleware :=
  match n with
  | Endpoint mws _ => mws
  | Group mws _ => mws
  end.

Definition getMiddlewares (target : Current) : list ServerMiddleware + exn :=
  match target with
  | Node n => inl (own_middlewares n)
  | SchemaObject _ | ObjectPrototype | NonObject => inl []
  | Null => inr (TypeError "Cannot read properties of null")
  end.

(** What an object literal inherits: [name in o] holds for the properties
    of [Object.prototype], and [o.__proto__] is [Object.prototype]. *)
Definition inherited (segment : string) : option Current :=
  if String.eqb segment "__proto__" then Some ObjectPrototype
  else if existsb (String.eqb segment) prototype_functions then Some NonObject
  else None.

(** [current && typeof current === "object" && segment in current], and
    then [current[segment]], for every [current] but a schema object: an
    own member first, an inherited one otherwise.  The own members of a
    descriptor are [rpcType], [implementation] and, when it has a schema,
    [zodSchema]. *)
Definition get_property (segment : string) (current : Current)
  : option Current :=
  match current with
  | Node (Group _ children) =>
      match assoc_get segment children with
      | Some child => Some (Node child)
      | None => inherited segment
      end
  | Node (Endpoint _ d) =>
      if String.eqb segment "rpcType" || String.eqb segment "implementation"
      then Some NonObject
      else if String.eqb segment "zodSchema" && bool_decide (is_Some (zodSchema d))
      then Some (SchemaObject d)
      else inherited segment
  | ObjectPrototype =>
      if String.eqb segment "__proto__" then Some Null
      else if existsb (String.eqb segment) prototype_functions then Some NonObject
      else None
  | SchemaObject _ | Null | NonObject => None
  end.

(** [current && typeof current === "object" && "rpcType" in current]: a
    descriptor has the member, an object literal has it when one of its
    members is so named, [Object.prototype] has not, and a schema object
    is taken not to have it. *)
Definition has_rpcType (current : Current) : bool :=
  match current with
  | Node (Endpoint _ _) => true
  | Node (Group _ children) => bool_decide (is_Some (assoc_get "rpcType" children))
  | _ => false
  end.

(** The endpoint at a nested path of the definition, with the middleware
    of every node from the root down to it: what the specification means
    by an endpoint at [s1..sn]. *)
Fixpoint spec_endpoint_at (path : list string) (node : ApiNode)
  : option (Descriptor * list ServerMiddleware) :=
  match path, node with
  | [], Endpoint mws d => Some (d, mws)
  | s :: rest, Group mws children =>
      match assoc_get s children with
      | Some child =>
          match spec_endpoint_at rest child with
          | Some (d, below) => Some (d, mws ++ below)
          | None => None
          end
      | None => None
      end
  | _, _ => None
  end.

Record Response : Type := {
  r_status : Z;
  r_headers : Headers;
  r_body : option string
}.

(** [new Response(body, {status, headers})]: the status is first converted
    to an [unsigned short], which for an integer is its residue modulo
    2^16; a converted status outside 200..599 is a [RangeError], a body on
    a null-body status a [TypeError]; a text body without a content type
    gets the plain-text one. *)
Definition unsigned_short (n : Z) : Z := (n mod 65536)%Z.

Definition new_Response (body : option string) (text : bool) (h : Headers)
           (init_status : Z) : Response + exn :=
  let status := unsigned_short init_status in
  if negb ((200 <=? status)%Z && (status <=? 599)%Z) then
    inr (RangeError "The status provided is outside the range [200, 599].")
  else if bool_decide (is_Some body) &&
          ((status =? 204)%Z || (status =? 205)%Z || (status =? 304)%Z) then
    inr (TypeError "Response with null body status cannot have body")
  else
    inl {| r_status := status;
           r_headers :=
             match body, headers_get "Content-Type" h with
             | Some _, None =>
                 if text then headers_set "Content-Type" "text/plain;charset=UTF-8" h
                 else h
             | _, _ => h
             end;
           r_body := body |}.

(** [new Response(message, {status})]. *)
Definition text_response (message : string) (status : Z) : Response + exn :=
  new_Response (Some message) true ∅ status.

(** The collaborators the dispatcher is linked with: the MessagePack codec,
    JSON, [Buffer.from(_, "base64url")], the clock, the printing of
    numbers and the schema library.  A decoder answers [None] when it
    throws; [JSON.stringify] answers [None] for [undefined].
    [elapsed_text start] is the text of [performance.now() - start] when
    the response is made.  [number_text] prints the numbers that are not
    safe integers.  [schema_walk d rest] is what becomes of the lookup
    when it has to go on, with the segments [rest], from the schema
    object of [d]: [None] when it ends with [[undefined, []]], the
    failure when a read throws; no object inside a schema is taken to
    have a member named [rpcType]. *)
Record Host : Type := {
  unpack : string -> option value;
  pack : value -> string;
  JSON_parse : string -> option value;
  JSON_stringify : value -> option string;
  from_base64url : string -> string;
  now_at_start : Z;
  elapsed_text : Z -> string;
  number_text : Z -> string;
  schema_walk : Descriptor -> list string -> option exn
}.

Section Dispatcher.
Variable host : Host.

(** The loop of [findRpcMethodDescriptor], from segment [i] on; the last
    segment is the one with nothing after it.  It hands back [current]
    and the middleware, or [[undefined, []]], or throws. *)
Fixpoint find_loop (pathSegments : list string) (current : Current)
         (middlewares : list ServerMiddleware)
  : option ApiNode * list ServerMiddleware + exn :=
  match pathSegments with
  | [] => inl (None, [])
  | segment :: rest =>
      match current with
      | SchemaObject d =>
          match schema_walk host d (segment :: rest) with
          | Some e => inr e
          | None => inl (None, [])
          end
      | _ =>
          match get_property segment current with
          | Some child =>
              match getMiddlewares child with
              | inr e => inr e
              | inl below =>
                  let middlewares := middlewares ++ below in
                  match rest with
                  | [] =>
                      match child with
                      | Node n =>
                          if has_rpcType child then inl (Some n, middlewares)
                          else inl (None, [])
                      | _ => inl (None, [])
                      end
                  | _ :: _ => find_loop rest child middlewares
                  end
              end
          | None => inl (None, [])
          end
      end
  end.

Definition findRpcMethodDescriptor (pathSegments : list string)
           (apiDefinition : ApiNode)
  : option ApiNode * list ServerMiddleware + exn :=
  match getMiddlewares (Node apiDefinition) with
  | inr e => inr e
  | inl middlewares => find_loop pathSegments (Node apiDefinition) middlewares
  end.

(** [String(n)] for a number: a safe integer prints as its decimal
    digits. *)
Definition Number_toString (n : Z) : string :=
  if (Z.abs n <=? 9007199254740992)%Z then pretty n else number_text host n.

Definition acceptedRequests : list string := ["GET.query"; "GET.get"; "POST.command"].
Definition acceptedMethods : list string := ["GET"; "POST"].

(** [list.includes(x)] on strings. *)
Definition list_includes (x : string) (l : list string) : bool :=
  existsb (String.eqb x) l.

(** [ctx.event.request.headers.get("Accept")?.includes("application/json")]. *)
Definition prefersJson (ctx : ServerContext) : bool :=
  match headers_get "Accept" (headers (request (event ctx))) with
  | Some a => includes "application/json" a
  | None => false
  end.

(** The body of a response: [JSON.stringify(result)] or the packed bytes. *)
Definition serialize (json : bool) (result : value) : option string :=
  if json then JSON_stringify host result else Some (pack host result).

Definition makeResponse (result : value) (ctx : ServerContext)
  : Response + exn :=
  let prefersJson := prefersJson ctx in
  let ctx :=
    response_header_set "X-Tango-Execution-Time"
      (elapsed_text host (start ctx)) ctx in
  let ctx :=
    response_header_set "Content-Type"
      (if prefersJson then "application/json" else "application/msgpack") ctx in
  let ctx :=
    if String.eqb (method (request (event ctx))) "GET"
       && negb (cache.get ctx =? 0)%Z
    then response_header_set "Cache-Control"
           ("public, max-age=" +:+ Number_toString (cache.get ctx)) ctx
    else ctx in
  let body := serialize prefersJson result in
  new_Response body prefersJson (headers_response ctx) (status.get ctx).

(** [obj[key] = v] inside the parsers: only an object takes the property;
    on a primitive the assignment is a [TypeError] (module code is strict).
    The key [__proto__] goes to the setter every value inherits and makes
    no property (what it does to the prototype is left out of the model,
    as are the named properties put on an array). *)
Definition assign (key : string) (v : value) (target : value) : value + exn :=
  if String.eqb key "__proto__" then inl target
  else
    match target with
    | VObj fields => inl (VObj (assoc_set key v fields))
    | VArr items => inl (VArr items)
    | VFile name => inl (VFile name)
    | _ => inr (TypeError "Cannot create property on primitive")
    end.

Definition parseGet (url : list (string * string)) : value + exn :=
  inl (VObj (fold_left
               (fun a kv =>
                  if String.eqb (fst kv) "__proto__" then a
                  else assoc_set (fst kv) (VStr (snd kv)) a) url [])).

Definition parseQuery (url : list (string * string)) : value + exn :=
  match assoc_get "args" url with
  | Some argsParam =>
      if negb (String.eqb argsParam "") then
        match unpack host (from_base64url host argsParam) with
        | Some a => inl a
        | None => inr (ParseError "Invalid msgpackr body")
        end
      else inl (VObj [])
  | None => inl (VObj [])
  end.

Definition parseCommandMsgpackr (req : Request) : value + exn :=
  if (0 <? String.length (body req))%nat then
    match unpack host (body req) with
    | Some a => inl (or_empty a)
    | None => inr (ParseError "Invalid msgpackr body")
    end
  else inl (VObj []).

Definition parseCommandJson (req : Request) : value + exn :=
  if negb (String.eqb (body req) "") then
    match JSON_parse host (body req) with
    | Some a => inl (or_empty a)
    | None => inr (ParseError "Invalid JSON body")
    end
  else inl (VObj []).

Definition entry_value (e : FormEntry) : value :=
  match e with
  | FString s => VStr s
  | FFile name _ _ => VFile name
  end.

(** [formData.getAll(key)]. *)
Definition form_getAll (key : string) (form : list (string * FormEntry))
  : list value :=
  map (fun kv => entry_value (snd kv))
      (filter (fun kv => String.eqb (fst kv) key = true) form).

(** The keys of the form in order of first appearance (a [Set]). *)
Fixpoint form_keys (form : list (string * FormEntry)) (seen : list string)
  : list string :=
  match form with
  | [] => seen
  | (k, _) :: rest =>
      form_keys rest (if list_includes k seen then seen else seen ++ [k])
  end.

Definition ends_with_brackets (key : string) : bool :=
  (2 <=? String.length key)%nat &&
  String.eqb (String.substring (String.length key - 2) 2 key) "[]".

Definition augment (form : list (string * FormEntry)) (a : value + exn)
           (key : string) : value + exn :=
  match a with
  | inr e => inr e
  | inl a =>
      if String.eqb key "args" then inl a
      else if ends_with_brackets key then
        assign (String.substring 0 (String.length key - 2) key)
               (VArr (form_getAll key form)) a
      else
        match assoc_get key form with
        | Some e => assign key (entry_value e) a
        | None => assign key VNull a
        end
  end.

Definition parseCommandMultipartFormData (req : Request) : value + exn :=
  match formData req with
  | None => inr (TypeError "Failed to parse body as FormData.")
  | Some form =>
      let base : value + exn :=
        match assoc_get "args" form with
        | Some (FFile _ type content) =>
            if String.eqb type "application/json" then
              match JSON_parse host content with
              | Some a => inl (or_empty a)
              | None => inr (ParseError "Invalid JSON in args blob")
              end
            else if String.eqb type "application/msgpack" then
              match unpack host content with
              | Some a => inl (or_empty a)
              | None => inr (ParseError "Invalid msgpack in args blob")
              end
            else inr (ParseError ("Unsupported args type: " +:+ type))
        | _ => inl (VObj [])
        end in
      fold_left (augment form) (form_keys form []) base
  end.

(** The [switch (rpcType)] that parses the arguments. *)
Definition parseArgs (t : RpcType) (req : Request) : value + exn :=
  match t with
  | get => parseGet (searchParams req)
  | query => parseQuery (searchParams req)
  | command =>
      let requestContentType :=
        match headers_get "Content-Type" (headers req) with
        | Some c => c
        | None => ""
        end in
      if includes "multipart/form-data" requestContentType then
        parseCommandMultipartFormData req
      else if includes "application/json" requestContentType then
        parseCommandJson req
      else parseCommandMsgpackr req
  end.

(** The last stage of the chain: validation, then the implementation. *)
Definition terminal (d : Descriptor) : ServerMiddleware :=
  fun ctx _ =>
    let a := getArgs ctx in
    match zodSchema d with
    | Some parse =>
        match parse a with
        | inl a' => implementation d a' ctx
        | inr issues => (ctx, Rejected (ZodError issues))
        end
    | None => implementation d a ctx
    end.

Definition default_createServerContext (a : value) (ev : RequestEvent)
  : ServerContext :=
  new_ServerContext (now_at_start host) a ev.

(** The part of the handler after the arguments are parsed. *)
Definition respond (createServerContext : value -> RequestEvent -> ServerContext)
           (d : Descriptor) (middlewares : list ServerMiddleware)
           (a : value) (ev : RequestEvent) : Response + exn :=
  let ctx := createServerContext a ev in
  match Pipeline.pipeline ctx (middlewares ++ [terminal d]) with
  | (ctx, Resolved result) =>
      match makeResponse result ctx with
      | inl r => inl r
      | inr _ => text_response "Internal server error" 500
      end
  | (ctx, Rejected (ZodError issues)) =>
      let ctx := response_header_set "X-Tango-Validation-Error" "true" ctx in
      let ctx := cache.set 0 ctx in
      let ctx := status.set 422 ctx in
      makeResponse (VArr issues) ctx
  | (_, Rejected _) => text_response "Internal server error" 500
  end.

(** [request.method + "." + rpcType] and the text of the refusal, when the
    object handed back as descriptor is an object literal: its [rpcType]
    is the member of that name, an object of the definition.  An object
    converts to [[object Object]], unless it has a member [toString] of
    its own, which is no function, and then the conversion throws.  No
    accepted request ends in [[object Object]] or in [undefined], so what
    follows is the refusal. *)
Definition member_text (r : option ApiNode) : string + exn :=
  match r with
  | Some (Group _ children) =>
      if bool_decide (is_Some (assoc_get "toString" children))
      then inr (TypeError "Cannot convert object to primitive value")
      else inl "[object Object]"
  | Some (Endpoint _ _) => inl "[object Object]"
  | None => inl "undefined"
  end.

(** The handler up to the parsing of the arguments: either an answer is
    due at once (or a failure is let out), or the request goes on to
    [respond]. *)
Inductive Routing : Type :=
| Answer (r : Response + exn)
| Routed (d : Descriptor) (middlewares : list ServerMiddleware) (a : value).

Definition route (apiDefinition : ApiNode) (ev : RequestEvent) : Routing :=
  let req := request ev in
  if negb (list_includes (method req) acceptedMethods) then
    Answer (text_response "Method not allowed" 405)
  else
    match params_path ev with
    | None => Answer (text_response "RPC method not found" 404)
    | Some path =>
        if String.eqb path "" then
          Answer (text_response "RPC method not found" 404)
        else
          match findRpcMethodDescriptor (split_on "/" path) apiDefinition with
          | inr e => Answer (inr e)
          | inl (None, _) => Answer (text_response "RPC method not found" 404)
          | inl (Some (Endpoint _ d), middlewares) =>
              if negb (list_includes
                         (method req +:+ "." +:+ rpc_name (rpcType d))
                         acceptedRequests)
              then Answer (text_response
                             ("RPC type " +:+ rpc_name (rpcType d)
                              +:+ " not allowed for " +:+ method req
                              +:+ " requests") 405)
              else
                match parseArgs (rpcType d) req with
                | inr (ParseError message) =>
                    Answer (text_response message 400)
                | inr _ => Answer (text_response "Internal server error" 500)
                | inl a => Routed d middlewares a
                end
          | inl (Some (Group _ children), _) =>
              match member_text (assoc_get "rpcType" children) with
              | inr e => Answer (inr e)
              | inl text =>
                  Answer (text_response
                            ("RPC type " +:+ text +:+ " not allowed for "
                             +:+ method req +:+ " requests") 405)
              end
          end
    end.

Definition handler (apiDefinition : ApiNode)
           (options : option (value -> RequestEvent -> ServerContext))
           (ev : RequestEvent) : Response + exn :=
  let createServerContext :=
    match options with
    | Some f => f
    | None => default_createServerContext
    end in
  match route apiDefinition ev with
  | Answer r => r
  | Routed d middlewares a => respond createServerContext d middlewares a ev
  end.

End Dispatcher.
End Handler.

(** ** 8. Client context ([client/client-context.ts])

    [Headers] objects live in a store and are handed around by reference:
    the caller of an RPC method may pass one in, and keeps it. *)

Module Client.

Abbreviation loc := positive.
Abbreviation Heap := (gmap positive (gmap string string)).

Inductive RpcType : Type := command | query | get.

Record CallOptions : Type := {
  onProgress : bool;
  abortSignal : option bool;
  headers : option loc;
  debug : bool
}.

Definition no_options : CallOptions :=
  {| onProgress := false; abortSignal := None; headers := None; debug := false |}.

(** What [fetch] hands back: status, status text, headers and body bytes. *)
Record Response : Type := {
  status : Z;
  statusText : string;
  response_headers : Headers;
  response_body : string
}.

Definition ok (r : Response) : bool :=
  (200 <=? status r)%Z && (status r <=? 299)%Z.

Record ClientContext : Type := {
  ctx_abortSignal : option bool;
  ctx_onProgress : bool;
  args : list (string * value);
  path : list string;
  _headers : loc;
  _response : option Response;
  result : value;
  rpcType : RpcType
}.

(** [new Headers()]: a fresh object in the store. *)
Definition new_Headers (h : Heap) : loc * Heap :=
  let l := fresh (dom h) in (l, <[l := ∅]> h).

(** [headers.set(name, v)] on the object at [l]. *)
Definition Headers_set (l : loc) (name v : string) (h : Heap) : Heap :=
  match h !! l with
  | Some hs => <[l := headers_set name v hs]> h
  | None => h
  end.

(** The constructor: the caller's header object is taken as it is when
    there is one, and [accept] is written into whichever object is used. *)
Definition new_ClientContext (p : list string) (a : value) (t : RpcType)
           (options : CallOptions) (h : Heap) : ClientContext * Heap :=
  let '(hd, h) :=
    match headers options with
    | Some l => (l, h)
    | None => new_Headers h
    end in
  let h := Headers_set hd "accept" "application/msgpack" h in
  ({| ctx_abortSignal := abortSignal options;
      ctx_onProgress := onProgress options;
      args := Map_new (Object_entries (or_empty a));
      path := p;
      _headers := hd;
      _response := None;
      result := VUndefined;
      rpcType := t |}, h).

(** [ctx.request.headers]: the getter answers the same object. *)
Definition request_headers (ctx : ClientContext) : loc := _headers ctx.

(** [getArgs]: an object filled by [obj[key] = value], entry by entry; the
    key [__proto__] goes to the inherited setter and makes no property
    (what it does to the prototype is left out of the model). *)
Definition getArgs (ctx : ClientContext) : value :=
  VObj (filter (fun kv => fst kv <> "__proto__") (args ctx)).

Definition with_args (a : list (string * value)) (ctx : ClientContext)
  : ClientContext :=
  {| ctx_abortSignal := ctx_abortSignal ctx; ctx_onProgress := ctx_onProgress ctx;
     args := a; path := path ctx; _headers := _headers ctx;
     _response := _response ctx; result := result ctx; rpcType := rpcType ctx |}.

Definition with_response (r : Response) (ctx : ClientContext) : ClientContext :=
  {| ctx_abortSignal := ctx_abortSignal ctx; ctx_onProgress := ctx_onProgress ctx;
     args := args ctx; path := path ctx; _headers := _headers ctx;
     _response := Some r; result := result ctx; rpcType := rpcType ctx |}.

Definition with_result (v : value) (ctx : ClientContext) : ClientContext :=
  {| ctx_abortSignal := ctx_abortSignal ctx; ctx_onProgress := ctx_onProgress ctx;
     args := args ctx; path := path ctx; _headers := _headers ctx;
     _response := _response ctx; result := v; rpcType := rpcType ctx |}.

(** ** 9. Transport ([call] in [client/create-client.ts]) *)

Definition is_File (v : value) : bool :=
  match v with
  | VFile _ => true
  | _ => false
  end.

(** [value instanceof File || (Array.isArray(value) && value.length > 0 &&
    value.every(v => v instanceof File))]. *)
Definition is_upload (v : value) : bool :=
  is_File v ||
  match v with
  | VArr items => (0 <? length items)%nat && forallb is_File items
  | _ => false
  end.

(** What the specification calls a file handle, and an argument that is an
    upload: a single file handle, or a non-empty list of nothing but file
    handles. *)
Definition file_handle (v : value) : Prop := exists name, v = VFile name.

Definition uploadable (v : value) : Prop :=
  file_handle v \/
  exists items, v = VArr items /\ items <> [] /\ Forall file_handle items.

(** [args.forEach((value, key) => ...)] of the file extraction.  The
    callback deletes no entry but the one it is visiting, so every entry of
    the map is visited once, in order; [a] is the live map, [uploads] the
    map being filled. *)
Definition extract_step (st : list (string * value) * list (string * value))
           (kv : string * value)
  : list (string * value) * list (string * value) :=
  let '(a, uploads) := st in
  if is_upload (snd kv)
  then (assoc_delete (fst kv) a, assoc_set (fst kv) (snd kv) uploads)
  else (a, uploads).

Definition extract_uploads (a : list (string * value))
  : list (string * value) * list (string * value) :=
  fold_left extract_step a (a, []).

Inductive FormPart : Type :=
| Blob (type content : string)
| FilePart (file : value) (filename : string).

Inductive Body : Type :=
| NoBody
| Bytes (content : string)
| Form (parts : list (string * FormPart)).

(** The request as it leaves the client; [req_headers] is the content of
    the header object at that moment. *)
Record SentRequest : Type := {
  url : string;
  search : list (string * string);
  req_method : string;
  req_headers : Headers;
  req_body : Body;
  signal : option bool;
  via_xhr : bool
}.

(** The collaborators of the transport: the codec, [btoa], [String(_)] on
    argument values, the document origin (none outside a browser), the URL
    parser and the network, which answers a response or fails.
    [new_URL input base] is the [href] of [new URL(input, base)], and
    [None] when the constructor throws, as it does for a relative [input]
    without a base. *)
Record Host : Type := {
  pack : value -> string;
  unpack : string -> option value;
  btoa : string -> string;
  to_String : value -> string;
  window_origin : option string;
  new_URL : string -> option string -> option string;
  fetch : SentRequest -> Response + exn
}.

(** The state a call runs in: its context, the store of header objects and
    the requests sent so far. *)
Record State : Type := {
  ctx : ClientContext;
  heap : Heap;
  sent : list SentRequest
}.

Abbreviation ClientMiddleware := (Middleware State).

Definition file_name (v : value) : string :=
  match v with
  | VFile name => name
  | _ => ""
  end.

Fixpoint strip_trailing_eq (l : list ascii) : list ascii :=
  match l with
  | [] => []
  | c :: rest =>
      match strip_trailing_eq rest with
      | [] => if Ascii.eqb c "=" then [] else [c]
      | rest' => c :: rest'
      end
  end.

(** [encodeToBase64Url]: [btoa], then [+] to [-], [/] to [_], and the
    padding at the end removed. *)
Definition encodeToBase64Url (host : Host) (data : string) : string :=
  let base64 := list_ascii_of_string (btoa host data) in
  let swap (c : ascii) : ascii :=
    if Ascii.eqb c "+" then "-"%char
    else if Ascii.eqb c "/" then "_"%char else c in
  string_of_list_ascii (strip_trailing_eq (map swap base64)).

Definition ends_with_brackets (key : string) : bool :=
  (2 <=? String.length key)%nat &&
  String.eqb (String.substring (String.length key - 2) 2 key) "[]".

(** The parts appended for one upload. *)
Definition upload_parts (kv : string * value) : list (string * FormPart) :=
  match snd kv with
  | VArr files =>
      map (fun f => (if ends_with_brackets (fst kv) then fst kv else fst kv +:+ "[]",
                     FilePart f (file_name f))) files
  | f => [(fst kv, FilePart f (file_name f))]
  end.

Inductive RequestType : Type := GET | QUERY | UPLOAD | COMMAND.

Section Transport.
Variable host : Host.

(** [new URL(`${baseUrl}/${pathString}`, origin)], the origin being that of
    the window when there is one. *)
Definition request_URL (baseUrl : string) (path : list string) : option string :=
  new_URL host (baseUrl +:+ "/" +:+ route_key path) (window_origin host).

(** [call], up to and including the network exchange.  The uploads are
    taken out of the arguments first; then the URL is made, and when
    [new URL] throws (a [TypeError]; the message is the engine's, here
    that of Node) nothing further happens: no header is written and no
    request is sent. *)
Definition send (baseUrl : string) (st : State) : State * (Response + exn) :=
  let c := ctx st in
  let isGet := match rpcType c with get => true | _ => false end in
  let isQuery := match rpcType c with query => true | _ => false end in
  let isCommand := match rpcType c with command => true | _ => false end in
  let '(a, uploads) :=
    if isCommand then extract_uploads (args c) else (args c, []) in
  let c := with_args a c in
  let hasUploads := (0 <? length uploads)%nat in
  match request_URL baseUrl (path c) with
  | None =>
      ({| ctx := c; heap := heap st; sent := sent st |},
       inr (TypeError "Invalid URL"))
  | Some url0 =>
  let hd := request_headers c in
  let requestType :=
    if isGet then GET else if isQuery then QUERY
    else if hasUploads then UPLOAD else COMMAND in
  let method := if isCommand then "POST" else "GET" in
  let '(searchParams, body, h) :=
    match requestType with
    | GET =>
        (fold_left
           (fun sp kv =>
              match snd kv with
              | VUndefined | VNull => sp
              | v => assoc_set (fst kv) (to_String host v) sp
              end) a [],
         NoBody, heap st)
    | QUERY =>
        (if (0 <? length a)%nat
         then [("args", encodeToBase64Url host (pack host (VObj a)))]
         else [],
         NoBody, heap st)
    | UPLOAD =>
        ([],
         Form ((if (0 <? length a)%nat
                then [("args", Blob "application/msgpack" (pack host (VObj a)))]
                else [])
               ++ concat (map upload_parts uploads)),
         heap st)
    | COMMAND =>
        ([], Bytes (pack host (VObj a)),
         Headers_set hd "Content-Type" "application/msgpack" (heap st))
    end in
  let req :=
    {| url := url0; search := searchParams; req_method := method;
       req_headers := default ∅ (h !! hd); req_body := body;
       signal := ctx_abortSignal c; via_xhr := ctx_onProgress c |} in
  ({| ctx := c; heap := h; sent := sent st ++ [req] |}, fetch host req)
  end.

(** [call]: the exchange, then the decoding of the answer (the decoder's
    own message, which the source appends to the decoding failure, and the
    [response] and [data] fields put on the server error are left out). *)
Definition call (baseUrl : string) (st : State) : State * outcome :=
  match send baseUrl st with
  | (st, inr e) => (st, Rejected e)
  | (st, inl response) =>
      let st :=
        {| ctx := with_response response (ctx st); heap := heap st;
           sent := sent st |} in
      if (String.length (response_body response) =? 0)%nat then
        if (status response =? 204)%Z then (st, Resolved VNull)
        else if negb (ok response) then
          (st, Rejected (Error ("Server error: " +:+ pretty (status response)
                                +:+ " " +:+ statusText response)))
        else (st, Rejected (Error "Unexpected empty response from server for successful request"))
      else
        match unpack host (response_body response) with
        | None => (st, Rejected (Error "Failed to decode server response"))
        | Some unpacked =>
            if negb (ok response) then
              (st, Rejected (Error ("Server error: " +:+ pretty (status response)
                                    +:+ " " +:+ statusText response)))
            else (st, Resolved unpacked)
        end
  end.

End Transport.
End Client.

(** ** 10. The two proxies ([createClient] in [client/create-client.ts]) *)

Module Proxy.
Import Client.

Abbreviation MiddlewareMap := (gmap string (list (Middleware State))).

(** What may be assigned through the configuration proxy. *)
Inductive MiddlewareAssignable : Type :=
| One (m : ClientMiddleware)
| Many (ms : list ClientMiddleware).

(** [Array.isArray(value) ? value : [value]]. *)
Definition as_list (value : MiddlewareAssignable) : list ClientMiddleware :=
  match value with
  | One m => [m]
  | Many ms => ms
  end.

(** The [get] trap of [createSetterProxy(path)]: a proxy one level down. *)
Definition setter_get (path : list string) (prop : string) : list string :=
  path ++ [prop].

(** The [set] trap of [createSetterProxy(path)]. *)
Definition setter_set (path : list string) (prop : string)
           (value : MiddlewareAssignable) (middlewareMap : MiddlewareMap)
  : MiddlewareMap :=
  let keyPath := if String.eqb prop "$" then path else path ++ [prop] in
  let key := route_key keyPath in
  let existing := default [] (middlewareMap !! key) in
  let newMiddlewares := as_list value in
  <[key := existing ++ newMiddlewares]> middlewareMap.

(** One assignment [cfg.p1. ... .pn.prop = value]: [n] reads, one write. *)
Record Assignment : Type := {
  at_path : list string;
  at_prop : string;
  assigned : MiddlewareAssignable
}.

Definition assign (middlewareMap : MiddlewareMap) (a : Assignment) : MiddlewareMap :=
  setter_set (fold_left setter_get (at_path a) []) (at_prop a) (assigned a)
             middlewareMap.

(** The configuration after a series of assignments, oldest first. *)
Definition configure (assignments : list Assignment) : MiddlewareMap :=
  fold_left assign assignments ∅.

(** The registry in the words of the specification, written without the
    code's [route_key] and [as_list].  The route key of a prefix: its
    levels kebab-normalised by the specification's two passes and joined
    by dots. *)
Definition spec_route_key (p : list string) : string :=
  String.concat "." (map Kebab.spec_kebab p).

(** The prefix an assignment is for: [cfg.p.$ = ..] is for [p] itself,
    [cfg.p.child = ..] for [p] with [child]. *)
Definition assignment_target (a : Assignment) : list string :=
  if String.eqb (at_prop a) "$" then at_path a else at_path a ++ [at_prop a].

Definition assignment_key (a : Assignment) : string :=
  spec_route_key (assignment_target a).

(** What an assignment brings: the middleware, or the middleware of the
    list, in the order of the list. *)
Definition brought (a : Assignment) : list ClientMiddleware :=
  match assigned a with
  | One m => [m]
  | Many ms => ms
  end.

(** The middleware registered under a key by a series of assignments: what
    each assignment to that key brought, in the order of the assignments. *)
Definition registered (assignments : list Assignment) (key : string)
  : list ClientMiddleware :=
  concat (map brought (filter (fun a => assignment_key a = key) assignments)).

(** The effective chain of the specification: global, then depth 1 to
    depth n. *)
Definition effective_chain (assignments : list Assignment) (path : list string)
  : list ClientMiddleware :=
  registered assignments ""
  ++ concat (map (fun i => registered assignments (spec_route_key (firstn i path)))
                 (seq 1 (length path))).

(** The [for (let i = 1; i <= ctx.path.length; i++)] loop of the call
    proxy; [todo] counts the rounds left. *)
Fixpoint collect (middlewareMap : MiddlewareMap) (path : list string)
         (i todo : nat) (middlewares : list ClientMiddleware)
  : list ClientMiddleware :=
  match todo with
  | O => middlewares
  | S todo' =>
      let key := route_key (take i path) in
      collect middlewareMap path (S i) todo'
        (match middlewareMap !! key with
         | Some ms => middlewares ++ ms
         | None => middlewares
         end)
  end.

(** The middleware list put together for a call. *)
Definition assemble (middlewareMap : MiddlewareMap) (path : list string)
  : list ClientMiddleware :=
  collect middlewareMap path 1 (length path)
    (match middlewareMap !! "" with
     | Some ms => ms
     | None => []
     end).

Definition rpcMethods : list string := ["$command"; "$query"; "$get"].
Definition rpcContextMethods : list string := ["$command_ctx"; "$query_ctx"; "$get_ctx"].

Definition rpcMethodTypeMap (prop : string) : option RpcType :=
  if String.eqb prop "$command" then Some command
  else if String.eqb prop "$query" then Some query
  else if String.eqb prop "$get" then Some get
  else if String.eqb prop "$command_ctx" then Some command
  else if String.eqb prop "$query_ctx" then Some query
  else if String.eqb prop "$get_ctx" then Some get
  else None.

Section Calls.
Variable host : Host.
Variable baseUrl : string.

(** The stage appended after the registered middleware: the transport
    call, whose result is stored on the context and returned. *)
Definition transport : ClientMiddleware :=
  fun st _ =>
    match call host baseUrl st with
    | (st, Resolved r) =>
        ({| ctx := with_result r (ctx st); heap := heap st; sent := sent st |},
         Resolved r)
    | (st, Rejected e) => (st, Rejected e)
    end.

(** The chain handed to [pipeline] for a call at [path]. *)
Definition chain (middlewareMap : MiddlewareMap) (path : list string)
  : list ClientMiddleware :=
  assemble middlewareMap path ++ [transport].

(** What the caller of an RPC method gets back. *)
Inductive Returned : Type :=
| Value (v : value)
| Context (c : ClientContext)
| Thrown (e : exn).

(** The async function returned for a magic key. *)
Definition invoke (middlewareMap : MiddlewareMap) (pathSegments : list string)
           (t : RpcType) (isContextRequested : bool)
           (a : value) (options : CallOptions) (h : Heap) (log : list SentRequest)
  : State * Returned :=
  let '(c, h) := new_ClientContext pathSegments a t options h in
  let st := {| ctx := c; heap := h; sent := log |} in
  match Pipeline.pipeline st (chain middlewareMap (path c)) with
  | (st, Rejected e) => (st, Thrown e)
  | (st, Resolved _) =>
      (st, if isContextRequested then Context (ctx st) else Value (result (ctx st)))
  end.

(** The [get] trap of [createRecursiveProxy(pathSegments)]. *)
Inductive Got : Type :=
| Callable (f : value -> CallOptions -> Heap -> list SentRequest -> State * Returned)
| SubProxy (pathSegments : list string).

Definition proxy_get (middlewareMap : MiddlewareMap) (pathSegments : list string)
           (prop : string) : Got :=
  let isContextRequested := existsb (String.eqb prop) rpcContextMethods in
  let isResultRequested := existsb (String.eqb prop) rpcMethods in
  if isResultRequested || isContextRequested then
    match rpcMethodTypeMap prop with
    | Some t => Callable (invoke middlewareMap pathSegments t isContextRequested)
    | None => SubProxy (pathSegments ++ [prop])
    end
  else SubProxy (pathSegments ++ [prop]).

End Calls.
End Proxy.

(** ** 10a. More of the sources *)


(** The property a form key is stored under by the multipart parser:
    [key.substring(0, key.length - 2)] for a key that ends in [[]], the
    key itself otherwise. *)
Definition argument_name (key : string) : string :=
  if Handler.ends_with_brackets key
  then String.substring 0 (String.length key - 2) key
  else key.

(** What the multipart parser stores for a key of the form:
    [formData.getAll(key)] for a key that ends in [[]],
    [formData.get(key)] otherwise. *)
Definition argument_value (key : string)
           (form : list (string * Server.FormEntry)) : value :=
  if Handler.ends_with_brackets key
  then VArr (Handler.form_getAll key form)
  else match assoc_get key form with
       | Some e => Handler.entry_value e
       | None => VNull
       end.

(** ** 11. Sample data *)

Module Samples.

(** A stage that counts up on the way in and doubles on the way out. *)
Definition counting : Stage nat :=
  {| before := S; after := fun n _ => (2 * n)%nat |}.

Definition bare_request : Server.Request :=
  {| Server.method := "GET"; Server.searchParams := [];
     Server.headers := ∅; Server.body := ""; Server.formData := None |}.

Definition bare_event : Server.RequestEvent :=
  {| Server.params_path := None; Server.request := bare_request |}.

Definition fresh_context : Server.ServerContext :=
  Server.new_ServerContext 0 VUndefined bare_event.

(** Arguments of a command call: a file, a list of files, a mixed list, an
    empty list and a plain value. *)
Definition upload_args : list (string * value) :=
  Map_new [("avatar", VFile "a.png");
           ("files[]", VArr [VFile "b.txt"; VFile "c.txt"]);
           ("mixed", VArr [VFile "d.txt"; VStr "x"]);
           ("empty", VArr []);
           ("note", VStr "x")].

(** A URL parser for the samples: outside a browser it takes the [https]
    URLs as they are and throws for everything else; with an origin as
    base it puts a path behind it. *)
Definition sample_URL (input : string) (base : option string) : option string :=
  match base with
  | Some origin => Some (origin +:+ input)
  | None => if String.prefix "https://" input then Some input else None
  end.

(** The base URL of the samples. *)
Definition base : string := "https://api.example.com/api".

(** A stand-in for the client's collaborators: a codec that packs anything
    to one byte and unpacks any bytes to [null], and a network that
    answers 200 with a one-byte body. *)
Definition client_host : Client.Host :=
  {| Client.pack := fun _ => "m";
     Client.unpack := fun _ => Some VNull;
     Client.btoa := fun s => s;
     Client.to_String := fun v => match v with VStr s => s | _ => "" end;
     Client.window_origin := None;
     Client.new_URL := sample_URL;
     Client.fetch := fun _ =>
       inl {| Client.status := 200; Client.statusText := "OK";
              Client.response_headers := ∅; Client.response_body := "r" |} |}.




(** A stand-in for the server's collaborators. *)
Definition server_host : Handler.Host :=
  {| Handler.unpack := fun _ => None;
     Handler.pack := fun _ => "m";
     Handler.JSON_parse := fun _ => None;
     Handler.JSON_stringify := fun _ => Some "j";
     Handler.from_base64url := fun s => s;
     Handler.now_at_start := 0;
     Handler.elapsed_text := fun _ => "3.5";
     Handler.number_text := fun _ => "1e+21";
     Handler.schema_walk := fun _ _ => None |}.

(** [users.getProfile]: a query without schema. *)
Definition getProfile : Handler.Descriptor :=
  {| Handler.rpcType := Handler.query;
     Handler.implementation := fun _ ctx =>
       (ctx, Resolved (VObj [("id", VNum 1); ("name", VStr "a")]));
     Handler.zodSchema := None |}.

(** [posts.create]: a command that answers 201. *)
Definition create : Handler.Descriptor :=
  {| Handler.rpcType := Handler.command;
     Handler.implementation := fun _ ctx =>
       (Server.status.call Server.status.created ctx,
        Resolved (VObj [("success", VBool true)]));
     Handler.zodSchema := None |}.

(** The schema [{ id: string, at least one character }]. *)
Definition id_schema (a : value) : value + list value :=
  match a with
  | VObj fields =>
      match assoc_get "id" fields with
      | Some (VStr s) =>
          if (1 <=? String.length s)%nat then inl a
          else inr [VObj [("code", VStr "too_small"); ("path", VArr [VStr "id"])]]
      | _ => inr [VObj [("code", VStr "invalid_type"); ("path", VArr [VStr "id"])]]
      end
  | _ => inr [VObj [("code", VStr "invalid_type"); ("path", VArr [])]]
  end.

(** [posts.getById]: a get with that schema. *)
Definition getById : Handler.Descriptor :=
  {| Handler.rpcType := Handler.get;
     Handler.implementation := fun a ctx => (ctx, Resolved a);
     Handler.zodSchema := Some id_schema |}.

(** A middleware on [posts] that, on the way in, marks the response and
    asks for a minute of caching. *)
Definition marking : Stage Server.ServerContext :=
  {| before := fun ctx =>
       Server.cache.set 60 (Server.response_header_set "X-Seen" "posts" ctx);
     after := fun ctx _ => ctx |}.

Definition api : Handler.ApiNode :=
  Handler.Group []
    [("users", Handler.Group [] [("getProfile", Handler.Endpoint [] getProfile)]);
     ("posts", Handler.Group (map pass_through [marking])
                 [("create", Handler.Endpoint [] create);
                  ("getById", Handler.Endpoint [] getById)])].

(** A middleware that catches what the rest of the chain throws and
    answers by itself. *)
Definition catching : Middleware Server.ServerContext :=
  fun ctx next =>
    match next ctx with
    | (ctx', Rejected _) => (ctx', Resolved (VObj [("error", VStr "invalid")]))
    | answered => answered
    end.

(** A middleware that writes a [Cache-Control] of its own, by hand. *)
Definition stamping : Stage Server.ServerContext :=
  {| before := fun ctx => Server.response_header_set "Cache-Control" "no-store" ctx;
     after := fun ctx _ => ctx |}.

(** [getById] once behind the catching middleware and once behind the
    stamping one. *)
Definition guarded_api : Handler.ApiNode :=
  Handler.Group []
    [("safe", Handler.Group [catching] [("getById", Handler.Endpoint [] getById)]);
     ("stamped", Handler.Group (map pass_through [stamping])
                   [("getById", Handler.Endpoint [] getById)])].

(** Three client middleware that leave their names in the arguments on
    their way in, and the configuration of the specification's scenario:
    [cfg.$ = m1], [cfg.posts.$ = m2], [cfg.posts.create = m3]. *)
Definition naming (name : string) : Stage Client.State :=
  {| before := fun st =>
       {| Client.ctx :=
            Client.with_args
              (assoc_set name (VNum (Z.of_nat (length (Client.args (Client.ctx st)))))
                         (Client.args (Client.ctx st)))
              (Client.ctx st);
          Client.heap := Client.heap st; Client.sent := Client.sent st |};
     after := fun st _ => st |}.

Definition scenario : list Proxy.Assignment :=
  [{| Proxy.at_path := []; Proxy.at_prop := "$";
      Proxy.assigned := Proxy.One (pass_through (naming "m1")) |};
   {| Proxy.at_path := ["posts"]; Proxy.at_prop := "$";
      Proxy.assigned := Proxy.Many [pass_through (naming "m2")] |};
   {| Proxy.at_path := ["posts"]; Proxy.at_prop := "create";
      Proxy.assigned := Proxy.One (pass_through (naming "m3")) |}].

Definition request_to (m path : string) (search : list (string * string))
           (h : Headers) : Server.RequestEvent :=
  {| Server.params_path := Some path;
     Server.request :=
       {| Server.method := m; Server.searchParams := search;
          Server.headers := h; Server.body := ""; Server.formData := None |} |}.

End Samples.

(** ** 12. More sample data *)

Module MoreSamples.

(** [posts.remove]: a command that answers 204 and returns nothing. *)
Definition remove : Handler.Descriptor :=
  {| Handler.rpcType := Handler.command;
     Handler.implementation := fun _ ctx =>
       (Server.status.call Server.status.noContent ctx, Resolved VNull);
     Handler.zodSchema := None |}.

(** A stage that answers by itself on the way in would not be a [Stage];
    this middleware refuses every request without calling [next]. *)
Definition refusing : Middleware Server.ServerContext :=
  fun ctx _ =>
    (Server.status.call Server.status.unauthorized ctx,
     Resolved (VObj [("error", VStr "unauthorized")])).

(** A stage for the counting chain that answers by itself. *)
Definition answering : Middleware nat :=
  fun st _ => ((st + 5)%nat, Resolved VNull).

(** A server whose decoder reads [null] out of any bytes. *)
Definition null_host : Handler.Host :=
  {| Handler.unpack := fun _ => Some VNull;
     Handler.pack := fun _ => "m";
     Handler.JSON_parse := fun _ => None;
     Handler.JSON_stringify := fun _ => Some "j";
     Handler.from_base64url := fun s => s;
     Handler.now_at_start := 0;
     Handler.elapsed_text := fun _ => "3.5";
     Handler.number_text := fun _ => "1e+21";
     Handler.schema_walk := fun _ _ => None |}.

Definition post_to (path ctype body : string) : Server.RequestEvent :=
  {| Server.params_path := Some path;
     Server.request :=
       {| Server.method := "POST"; Server.searchParams := [];
          Server.headers := headers_set "Content-Type" ctype ∅;
          Server.body := body; Server.formData := None |} |}.

(** A server whose decoder reads the same value out of any bytes. *)
Definition echo_host (a : value) : Handler.Host :=
  {| Handler.unpack := fun _ => Some a;
     Handler.pack := fun _ => "m";
     Handler.JSON_parse := fun _ => None;
     Handler.JSON_stringify := fun _ => Some "j";
     Handler.from_base64url := fun s => s;
     Handler.now_at_start := 0;
     Handler.elapsed_text := fun _ => "3.5";
     Handler.number_text := fun _ => "1e+21";
     Handler.schema_walk := fun _ _ => None |}.

(** The state of a call to [posts.getById] with no options and nothing
    sent yet. *)
Definition client_state (t : Client.RpcType) (a : value) : Client.State :=
  let '(c, h) :=
    Client.new_ClientContext ["posts"; "getById"] a t Client.no_options ∅ in
  {| Client.ctx := c; Client.heap := h; Client.sent := [] |}.

Definition lookup_args : value :=
  VObj [("id", VNum 7); ("draft", VBool false); ("skip", VNull)].

(** A form with a text field and two files under one bracketed name. *)
Definition upload_form : list (string * Server.FormEntry) :=
  [("title", Server.FString "t");
   ("files[]", Server.FFile "a.png" "image/png" "x");
   ("files[]", Server.FFile "b.png" "image/png" "y")].

Definition upload_request : Server.Request :=
  {| Server.method := "POST"; Server.searchParams := [];
     Server.headers := headers_set "Content-Type" "multipart/form-data; boundary=b" ∅;
     Server.body := ""; Server.formData := Some upload_form |}.

(** A client whose [String(_)] prints numbers, booleans and strings. *)
Definition printing_host : Client.Host :=
  {| Client.pack := fun _ => "m";
     Client.unpack := fun _ => Some VNull;
     Client.btoa := fun s => s;
     Client.to_String := fun v =>
       match v with
       | VStr s => s
       | VNum n => pretty n
       | VBool true => "true"
       | VBool false => "false"
       | _ => ""
       end;
     Client.window_origin := None;
     Client.new_URL := Samples.sample_URL;
     Client.fetch := fun _ =>
       inl {| Client.status := 200; Client.statusText := "OK";
              Client.response_headers := ∅; Client.response_body := "r" |} |}.

End MoreSamples.

(** * Theorems *)

(** ** The string normalizer *)

Section KebabFacts.
Import Kebab.

Lemma upper_not_lower (c : ascii) : is_upper c = true -> is_lower c = false.
Proof.
  unfold is_upper, is_lower. intros H.
  apply andb_true_iff in H as [_ H]. apply Nat.leb_le in H.
  apply andb_false_iff. left. apply Nat.leb_gt. lia.
Qed.

Lemma upper_not_digit (c : ascii) : is_upper c = true -> is_digit c = false.
Proof.
  unfold is_upper, is_digit. intros H.
  apply andb_true_iff in H as [H _]. apply Nat.leb_le in H.
  apply andb_false_iff. right. apply Nat.leb_gt. lia.
Qed.

Lemma lower_not_upper (c : ascii) : is_lower c = true -> is_upper c = false.
Proof.
  intros H. destruct (is_upper c) eqn:E; [|done].
  apply upper_not_lower in E. congruence.
Qed.

(** Passing over [k] characters of a match is dropping them. *)
Lemma replace_scan_skip m (k : nat) (l : list ascii) :
  replace_scan m k l = replace_scan m 0 (drop k l).
Proof.
  revert k. induction l as [|c l IH]; intros [|k]; simpl; auto.
Qed.

(** The first pass, one character at a time. *)
Lemma pass1_cons (a : ascii) (rest : list ascii) :
  pass1 (a :: rest) =
  if dash_between1 a rest then a :: dash :: pass1 rest else a :: pass1 rest.
Proof.
  unfold pass1, replace_all. destruct rest as [|b rest]; [done|].
  cbn [replace_scan match_lower_upper dash_between1].
  destruct ((is_lower a || is_digit a) && is_upper b) eqn:E; [|done].
  apply andb_true_iff in E as [_ Hb].
  cbn [pred app]. do 2 f_equal.
  destruct rest as [|c rest]; [done|].
  cbn [match_lower_upper].
  rewrite (upper_not_lower _ Hb), (upper_not_digit _ Hb). done.
Qed.

Lemma pass1_spec (l : list ascii) : pass1 l = spec_pass1 l.
Proof.
  induction l as [|a rest IH]; [done|].
  rewrite pass1_cons. unfold spec_pass1 in *. cbn [spec_insert].
  rewrite IH. done.
Qed.

Lemma upper_lower_at_cons (a : ascii) (rest : list ascii) (k : nat) :
  upper_lower_at (a :: rest) (S k) = upper_lower_at rest k.
Proof. done. Qed.

Lemma dash_between2_alt (a : ascii) (rest : list ascii) :
  dash_between2 a rest = is_upper a && upper_lower_at rest 0.
Proof.
  destruct rest as [|b [|c t]]; cbn;
    rewrite ?andb_false_r, ?andb_assoc; done.
Qed.

(** Backtracking under one more leading character. *)
Lemma backtrack_cons (a : ascii) (rest : list ascii) (k : nat) :
  backtrack (a :: rest) (S k) =
  match backtrack rest k with
  | Some j => Some (S j)
  | None => if upper_lower_at rest 0 then Some 1%nat else None
  end.
Proof.
  induction k as [|k IH].
  - cbn [backtrack]. rewrite upper_lower_at_cons. done.
  - change (backtrack (a :: rest) (S (S k)))
      with (if upper_lower_at (a :: rest) (S (S k)) then Some (S (S k))
            else backtrack (a :: rest) (S k)).
    rewrite upper_lower_at_cons, IH. cbn [backtrack].
    destruct (upper_lower_at rest (S k)); done.
Qed.

(** A pair at the very front leaves the greedy run nothing to give back. *)
Lemma backtrack_pair_front (rest : list ascii) :
  upper_lower_at rest 0 = true -> backtrack rest (upper_run rest) = None.
Proof.
  destruct rest as [|b [|c t]]; try done.
  unfold upper_lower_at. cbn. intros H.
  apply andb_true_iff in H as [Hb Hc].
  rewrite Hb, (lower_not_upper _ Hc). cbn.
  unfold upper_lower_at. cbn. rewrite (lower_not_upper _ Hc).
  destruct t; done.
Qed.

Lemma match_acronym_not_upper (a : ascii) (rest : list ascii) :
  is_upper a = false -> match_acronym (a :: rest) = None.
Proof. intros H. unfold match_acronym. cbn. rewrite H. done. Qed.

Lemma replace_scan_match m (c : ascii) (l rep : list ascii) (len : nat) :
  m (c :: l) = Some (rep, len) ->
  replace_scan m 0 (c :: l) = rep ++ replace_scan m 0 (drop (pred len) l).
Proof. intros H. cbn [replace_scan]. rewrite H, replace_scan_skip. done. Qed.

Lemma replace_scan_nomatch m (c : ascii) (l : list ascii) :
  m (c :: l) = None -> replace_scan m 0 (c :: l) = c :: replace_scan m 0 l.
Proof. intros H. cbn [replace_scan]. rewrite H. done. Qed.

(** The match at an uppercase letter, from the match one character on. *)
Lemma match_acronym_upper (a : ascii) (rest : list ascii) :
  is_upper a = true ->
  match_acronym (a :: rest) =
  match backtrack rest (upper_run rest) with
  | Some j => Some (a :: take j rest ++ dash :: take 2 (drop j rest), S (j + 2))
  | None =>
      if upper_lower_at rest 0 then Some (a :: dash :: take 2 rest, 3%nat)
      else None
  end.
Proof.
  intros Ha. unfold match_acronym. cbn [upper_run]. rewrite Ha, backtrack_cons.
  destruct (backtrack rest (upper_run rest)) as [j|]; [done|].
  destruct (upper_lower_at rest 0); done.
Qed.

(** The second pass, one character at a time. *)
Lemma pass2_cons (a : ascii) (rest : list ascii) :
  pass2 (a :: rest) =
  if dash_between2 a rest then a :: dash :: pass2 rest else a :: pass2 rest.
Proof.
  rewrite dash_between2_alt.
  unfold pass2, replace_all.
  destruct (is_upper a) eqn:Ha; cycle 1.
  { rewrite replace_scan_nomatch by (by apply match_acronym_not_upper). done. }
  cbn [andb].
  pose proof (match_acronym_upper a rest Ha) as Hm.
  destruct (backtrack rest (upper_run rest)) as [j|] eqn:Hbt.
  - (* the match of the tail, one character longer *)
    destruct (upper_lower_at rest 0) eqn:Hp.
    { apply backtrack_pair_front in Hp. congruence. }
    rewrite (replace_scan_match _ _ _ _ _ Hm).
    destruct rest as [|b t]; [cbn in Hbt; done|].
    assert (match_acronym (b :: t) =
            Some (take j (b :: t) ++ dash :: take 2 (drop j (b :: t)),
                  (j + 2)%nat)) as Hm'.
    { unfold match_acronym. rewrite Hbt. done. }
    rewrite (replace_scan_match _ _ _ _ _ Hm').
    replace (j + 2)%nat with (S (S j)) by lia.
    cbn [pred drop app]. done.
  - destruct (upper_lower_at rest 0) eqn:Hp.
    + rewrite (replace_scan_match _ _ _ _ _ Hm).
      destruct rest as [|b [|c t]]; try done.
      unfold upper_lower_at in Hp. cbn in Hp.
      apply andb_true_iff in Hp as [Hb Hc].
      cbn [take drop app pred]. do 2 f_equal.
      rewrite replace_scan_nomatch
        by (unfold match_acronym; rewrite Hbt; done).
      rewrite replace_scan_nomatch
        by (apply match_acronym_not_upper; by apply lower_not_upper).
      done.
    + rewrite replace_scan_nomatch by done. done.
Qed.

Lemma pass2_spec (l : list ascii) : pass2 l = spec_pass2 l.
Proof.
  induction l as [|a rest IH]; [done|].
  rewrite pass2_cons. unfold spec_pass2 in *. cbn [spec_insert].
  rewrite IH. done.
Qed.

End KebabFacts.

(** ** The pipeline executors *)

Section PipelineFacts.
Context {STATE : Type}.
Implicit Types (middlewares : list (Middleware STATE)) (state : STATE).

(** [execute], one step at a time. *)
Lemma execute_unfold middlewares (index : nat) state :
  Pipeline.execute middlewares index state =
  match middlewares !! index with
  | None => (state, Rejected Pipeline.exhausted)
  | Some middleware =>
      middleware state (fun st => Pipeline.execute middlewares (S index) st)
  end.
Proof.
  rewrite Pipeline.execute_equation_1.
  unfold Pipeline.execute_unfold_clause_1.
  unfold inspect. destruct (middlewares !! index); done.
Qed.

Lemma pass_through_returns_next (g : Stage STATE) :
  returns_next (pass_through g).
Proof.
  intros state next. exists (before g state). unfold pass_through.
  destruct (next (before g state)); done.
Qed.

(** When every stage hands back what [next()] answered, the answer is that
    of the call past the last stage. *)
Lemma execute_runs_out middlewares :
  Forall returns_next middlewares ->
  forall (todo index : nat) state,
    length middlewares - index = todo ->
    snd (Pipeline.execute middlewares index state)
    = Rejected Pipeline.exhausted.
Proof.
  intros Hall todo. induction todo as [|todo IH]; intros index state Hlen;
    rewrite execute_unfold.
  - assert (middlewares !! index = None) as E by (apply lookup_ge_None_2; lia).
    unfold Middleware in *. rewrite E. done.
  - destruct (middlewares !! index) as [m|] eqn:E; [|done].
    assert (returns_next m) as Hm.
    { eapply Forall_forall; [exact Hall|]. eapply list_elem_of_lookup_2, E. }
    destruct (Hm state (fun st => Pipeline.execute middlewares (S index) st))
      as [state' ->].
    apply IH. lia.
Qed.

Lemma shift_runs_out middlewares :
  Forall returns_next middlewares ->
  forall state,
    snd (PipelineShift.pipeline state middlewares)
    = Rejected PipelineShift.not_found.
Proof.
  induction 1 as [|m rest Hm _ IH]; intros state; [done|].
  cbn [PipelineShift.pipeline].
  destruct (Hm state (fun st => PipelineShift.pipeline st rest)) as [state' ->].
  apply IH.
Qed.

(** A chain of pass-through stages before a last stage that does not call
    [next]: the last stage runs on the state the stages prepared, and its
    answer comes back through them. *)
Lemma execute_stages (stages : list (Stage STATE)) :
  forall (front : list (Middleware STATE)) (last : Middleware STATE) state,
    (forall st n n', last st n = last st n') ->
    Pipeline.execute (front ++ map pass_through stages ++ [last])
                     (length front) state
    = let '(state', r) :=
        last (run_before stages state) (fun st => (st, Rejected Pipeline.exhausted)) in
      (run_after stages state' r, r).
Proof.
  induction stages as [|g stages IH]; intros front last state Hlast;
    rewrite execute_unfold.
  - cbn [map app]. rewrite list_lookup_middle by done.
    rewrite (Hlast _ _ (fun st => (st, Rejected Pipeline.exhausted))).
    cbn [run_before run_after fold_left fold_right].
    destruct (last state _); done.
  - cbn [map app]. rewrite list_lookup_middle by done.
    unfold pass_through at 1.
    specialize (IH (front ++ [pass_through g]) last (before g state) Hlast).
    rewrite <- app_assoc, length_app in IH. cbn [app length] in IH.
    replace (length front + 1)%nat with (S (length front)) in IH by lia.
    rewrite IH. cbn [run_before run_after fold_left fold_right].
    destruct (last _ _); done.
Qed.

Lemma pipeline_stages (stages : list (Stage STATE))
      (last : Middleware STATE) state :
  (forall st n n', last st n = last st n') ->
  Pipeline.pipeline state (map pass_through stages ++ [last])
  = let '(state', r) :=
      last (run_before stages state) (fun st => (st, Rejected Pipeline.exhausted)) in
    (run_after stages state' r, r).
Proof. intros H. apply (execute_stages stages [] last state H). Qed.

End PipelineFacts.

(** ** Ordered maps *)

Section AssocFacts.
Context {A : Type}.
Implicit Types (l : list (string * A)) (k : string).

Lemma assoc_get_None l k : assoc_get k l = None <-> k ∉ l.*1.
Proof.
  induction l as [|[k' x] l IH]; cbn.
  - split; [intros _; apply not_elem_of_nil | done].
  - destruct (String.eqb_spec k' k) as [->|Hne].
    + split; [done | intros H; exfalso; apply H; left].
    + rewrite IH, not_elem_of_cons. cbn. intuition congruence.
Qed.

Lemma assoc_get_set_eq l k (v : A) : assoc_get k (assoc_set k v l) = Some v.
Proof.
  induction l as [|[k' x] l IH]; cbn.
  - rewrite String.eqb_refl. done.
  - destruct (String.eqb_spec k' k) as [->|Hne]; cbn.
    + rewrite String.eqb_refl. done.
    + destruct (String.eqb_spec k' k); [done|]. exact IH.
Qed.

Lemma assoc_get_set_ne l k k' (v : A) :
  k <> k' -> assoc_get k (assoc_set k' v l) = assoc_get k l.
Proof.
  intros Hne. induction l as [|[k0 x] l IH]; cbn.
  - destruct (String.eqb_spec k' k); [congruence | done].
  - destruct (String.eqb_spec k0 k') as [->|Hne']; cbn.
    + destruct (String.eqb_spec k' k); [congruence | done].
    + destruct (String.eqb_spec k0 k); [done | exact IH].
Qed.

Lemma assoc_set_keys l k (v : A) :
  (assoc_set k v l).*1 = if bool_decide (k ∈ l.*1) then l.*1 else l.*1 ++ [k].
Proof.
  induction l as [|[k' x] l IH]; cbn.
  - rewrite bool_decide_eq_false_2 by apply not_elem_of_nil. done.
  - destruct (String.eqb_spec k' k) as [->|Hne]; cbn.
    + rewrite bool_decide_eq_true_2 by left. done.
    + rewrite IH. destruct (decide (k ∈ l.*1)) as [Hin|Hout].
      * rewrite !bool_decide_eq_true_2; [done | by right | done].
      * rewrite !bool_decide_eq_false_2; [done | | done].
        rewrite not_elem_of_cons. done.
Qed.

Lemma assoc_set_NoDup l k (v : A) : NoDup l.*1 -> NoDup (assoc_set k v l).*1.
Proof.
  intros H. rewrite assoc_set_keys. case_bool_decide; [done|].
  apply NoDup_app. repeat split; [done | | apply NoDup_singleton].
  intros x Hx Hx'. apply list_elem_of_singleton in Hx'. congruence.
Qed.

(** A [Map] never holds a key twice. *)
Lemma Map_new_NoDup (entries : list (string * A)) : NoDup (Map_new entries).*1.
Proof.
  unfold Map_new.
  assert (forall m : list (string * A), NoDup m.*1 ->
            NoDup (fold_left (fun m kv => assoc_set (fst kv) (snd kv) m)
                             entries m).*1) as H.
  { induction entries as [|kv entries IH]; intros m Hm; [done|].
    cbn. apply IH, assoc_set_NoDup, Hm. }
  apply H. constructor.
Qed.

Lemma assoc_delete_keys_subset l k k' : k ∈ (assoc_delete k' l).*1 -> k ∈ l.*1.
Proof.
  induction l as [|[k0 x] l IH]; cbn; [done|].
  destruct (String.eqb_spec k0 k'); cbn.
  - intros H. by right.
  - rewrite !elem_of_cons. intros [?|?]; [by left | right; by apply IH].
Qed.

Lemma assoc_delete_NoDup l k : NoDup l.*1 -> NoDup (assoc_delete k l).*1.
Proof.
  induction l as [|[k0 x] l IH]; cbn; [done|].
  intros H. apply NoDup_cons in H as [Hout Hl].
  destruct (String.eqb_spec k0 k); cbn; [done|].
  apply NoDup_cons. split; [|by apply IH].
  intros Hin. apply Hout. eapply assoc_delete_keys_subset, Hin.
Qed.

Lemma assoc_get_delete_eq l k :
  NoDup l.*1 -> assoc_get k (assoc_delete k l) = None.
Proof.
  induction l as [|[k0 x] l IH]; cbn; [done|].
  intros H. apply NoDup_cons in H as [Hout Hl].
  destruct (String.eqb_spec k0 k) as [->|Hne]; cbn.
  - by apply assoc_get_None.
  - destruct (String.eqb_spec k0 k); [done | by apply IH].
Qed.

Lemma assoc_get_delete_ne l k k' :
  k <> k' -> assoc_get k (assoc_delete k' l) = assoc_get k l.
Proof.
  intros Hne. induction l as [|[k0 x] l IH]; cbn; [done|].
  destruct (String.eqb_spec k0 k') as [->|Hne']; cbn.
  - destruct (String.eqb_spec k' k); [congruence | done].
  - destruct (String.eqb_spec k0 k); [done | exact IH].
Qed.

End AssocFacts.

(** ** The file extraction of the transport *)

Section UploadFacts.
Import Client.

Lemma is_File_spec (v : value) : is_File v = true <-> file_handle v.
Proof.
  unfold file_handle. destruct v; cbn; split; try done; try (intros [? ?]; done).
  intros _. eauto.
Qed.

(** The test of the source decides what the specification describes. *)
Lemma is_upload_spec (v : value) : is_upload v = true <-> uploadable v.
Proof.
  unfold is_upload, uploadable. rewrite orb_true_iff, is_File_spec.
  apply or_iff_compat_l.
  destruct v as [| | | | | |items|]; try (split; [done | intros (? & ? & _); done]).
  rewrite andb_true_iff, Nat.ltb_lt, forallb_forall.
  split.
  - intros [Hlen Hall]. exists items. split; [done|]. split.
    + intros ->. cbn in Hlen. lia.
    + apply Forall_forall. intros x Hx. apply is_File_spec, Hall.
      by apply list_elem_of_In.
  - intros (items' & [= <-] & Hne & Hall). split.
    + destruct items; [done | cbn; lia].
    + intros x Hx. apply is_File_spec. eapply Forall_forall; [exact Hall|].
      by apply list_elem_of_In.
Qed.

(** The walk over the entries, entry by entry: an upload leaves the live
    map and enters the uploads, anything else changes nothing. *)
Lemma extract_fold (l : list (string * value)) :
  forall (cur up : list (string * value)) (k : string),
    NoDup cur.*1 -> NoDup l.*1 ->
    let r := fold_left extract_step l (cur, up) in
    match assoc_get k l with
    | Some v =>
        if is_upload v
        then assoc_get k (fst r) = None /\ assoc_get k (snd r) = Some v
        else assoc_get k (fst r) = assoc_get k cur
             /\ assoc_get k (snd r) = assoc_get k up
    | None =>
        assoc_get k (fst r) = assoc_get k cur
        /\ assoc_get k (snd r) = assoc_get k up
    end.
Proof.
  induction l as [|[k0 v0] l IH]; intros cur up k Hcur Hl; [done|].
  apply NoDup_cons in Hl as [Hout Hl].
  cbn [fold_left assoc_get].
  change (extract_step (cur, up) (k0, v0))
    with (if is_upload v0
          then (assoc_delete k0 cur, assoc_set k0 v0 up) else (cur, up)).
  destruct (String.eqb_spec k0 k) as [->|Hne].
  - (* the entry under [k] itself; [k] does not come again *)
    assert (assoc_get k l = None) as Hnone
        by (apply assoc_get_None; exact Hout).
    destruct (is_upload v0) eqn:Hup.
    + specialize (IH (assoc_delete k cur) (assoc_set k v0 up) k
                     (assoc_delete_NoDup _ _ Hcur) Hl).
      cbn zeta in IH. rewrite Hnone in IH.
      rewrite assoc_get_delete_eq, assoc_get_set_eq in IH by done. exact IH.
    + specialize (IH cur up k Hcur Hl). cbn zeta in IH.
      rewrite Hnone in IH. exact IH.
  - destruct (is_upload v0) eqn:Hup.
    + specialize (IH (assoc_delete k0 cur) (assoc_set k0 v0 up) k
                     (assoc_delete_NoDup _ _ Hcur) Hl).
      cbn zeta in IH.
      rewrite assoc_get_delete_ne, assoc_get_set_ne in IH by done. exact IH.
    + exact (IH cur up k Hcur Hl).
Qed.

End UploadFacts.

(** ** The client's middleware map *)

Section ProxyFacts.
Import Client Proxy.

Lemma setter_path (props front : list string) :
  fold_left setter_get props front = front ++ props.
Proof.
  revert front. induction props as [|p props IH]; intros front; cbn.
  - by rewrite app_nil_r.
  - rewrite IH. unfold setter_get. by rewrite <- app_assoc.
Qed.

(** The code's route key is the specification's. *)
Lemma kebab_spec (s : string) : Kebab.camelToKebabCase s = Kebab.spec_kebab s.
Proof.
  unfold Kebab.camelToKebabCase, Kebab.spec_kebab.
  rewrite pass1_spec, pass2_spec. reflexivity.
Qed.

Lemma join_concat (sep : string) (l : list string) :
  join sep l = String.concat sep l.
Proof.
  induction l as [|x [|y l] IH]; [done|done|].
  change (join sep (x :: y :: l)) with (x +:+ sep +:+ join sep (y :: l)).
  rewrite IH. done.
Qed.

Lemma route_key_spec (p : list string) : route_key p = spec_route_key p.
Proof.
  unfold route_key, spec_route_key. rewrite join_concat. f_equal.
  apply map_ext. intros s. apply kebab_spec.
Qed.

(** An assignment appends to the list under its key and touches no other. *)
Lemma assign_lookup (m : MiddlewareMap) (a : Assignment) (key : string) :
  default [] (assign m a !! key)
  = if decide (assignment_key a = key)
    then default [] (m !! key) ++ brought a
    else default [] (m !! key).
Proof.
  unfold assign, setter_set. rewrite setter_path. cbn [app].
  rewrite route_key_spec. fold (assignment_target a). fold (assignment_key a).
  replace (as_list (assigned a)) with (brought a)
    by (unfold brought, as_list; by destruct (assigned a)).
  destruct (decide (assignment_key a = key)) as [<-|Hne].
  - rewrite lookup_insert_eq. done.
  - rewrite lookup_insert_ne by done. done.
Qed.

Lemma configure_from (assignments : list Assignment) :
  forall (m : MiddlewareMap) (key : string),
    default [] (fold_left assign assignments m !! key)
    = default [] (m !! key) ++ registered assignments key.
Proof.
  unfold registered.
  induction assignments as [|a rest IH]; intros m key; cbn [fold_left].
  - cbn. by rewrite app_nil_r.
  - rewrite IH, assign_lookup, filter_cons.
    destruct (decide (assignment_key a = key)); cbn [map concat].
    + by rewrite <- app_assoc.
    + done.
Qed.

Lemma configure_lookup (assignments : list Assignment) (key : string) :
  default [] (configure assignments !! key) = registered assignments key.
Proof. unfold configure. rewrite configure_from, lookup_empty. done. Qed.

(** The loop of the call proxy, round by round. *)
Lemma collect_spec (m : MiddlewareMap) (path : list string) :
  forall (todo i : nat) (middlewares : list ClientMiddleware),
    collect m path i todo middlewares
    = middlewares
      ++ concat (map (fun j => default [] (m !! route_key (take j path)))
                     (seq i todo)).
Proof.
  induction todo as [|todo IH]; intros i middlewares; cbn [collect seq map concat].
  - by rewrite app_nil_r.
  - rewrite IH. destruct (m !! route_key (take i path)); cbn [default].
    + by rewrite <- app_assoc.
    + done.
Qed.

Lemma assemble_spec (m : MiddlewareMap) (path : list string) :
  assemble m path
  = default [] (m !! "")
    ++ concat (map (fun i => default [] (m !! route_key (take i path)))
                   (seq 1 (length path))).
Proof.
  unfold assemble. rewrite collect_spec. destruct (m !! ""); done.
Qed.

End ProxyFacts.

(** ** Header objects *)

Lemma headers_get_set_eq (name name' v : string) (hs : Headers) :
  lowercase name = lowercase name' ->
  headers_get name (headers_set name' v hs) = Some v.
Proof.
  intros E. unfold headers_get, headers_set. rewrite E, lookup_insert_eq. done.
Qed.

Lemma headers_get_set_ne (name name' v : string) (hs : Headers) :
  lowercase name <> lowercase name' ->
  headers_get name (headers_set name' v hs) = headers_get name hs.
Proof.
  intros E. unfold headers_get, headers_set. rewrite lookup_insert_ne; done.
Qed.

(** ** The client context and the transport *)

Section ClientFacts.
Import Client.
Variable host : Host.
Variable baseUrl : string.




Lemma new_ClientContext_fields p a t options h :
  let c := fst (new_ClientContext p a t options h) in
  rpcType c = t /\ path c = p
  /\ args c = Map_new (Object_entries (or_empty a)).
Proof.
  unfold new_ClientContext.
  destruct (headers options); cbn; [done|].
  destruct (new_Headers h). done.
Qed.


(** What [send] does to the store and to the log of requests when the URL
    can be made. *)
Lemma send_effects (st : State) (u : string) :
  request_URL host baseUrl (path (ctx st)) = Some u ->
  let st' := fst (send host baseUrl st) in
  let command_without_uploads :=
    match rpcType (ctx st) with
    | command =>
        bool_decide (snd (extract_uploads (args (ctx st))) = [])
    | _ => false
    end in
  _headers (ctx st') = _headers (ctx st)
  /\ heap st'
     = (if command_without_uploads
        then Headers_set (_headers (ctx st)) "Content-Type"
                         "application/msgpack" (heap st)
        else heap st)
  /\ exists req,
       sent st' = sent st ++ [req]
       /\ url req = u
       /\ snd (send host baseUrl st) = fetch host req
       /\ req_headers req = default ∅ (heap st' !! _headers (ctx st)).
Proof.
  intros Hurl. unfold send.
  destruct (rpcType (ctx st)) eqn:Et.
  - destruct (extract_uploads (args (ctx st))) as [a uploads] eqn:Eu.
    cbn [with_args path]. rewrite Hurl.
    cbn [snd]. destruct uploads as [|up uploads]; cbn; eauto 10.
  - cbn [with_args path]. rewrite Hurl. cbn. eauto 10.
  - cbn [with_args path]. rewrite Hurl. cbn. eauto 10.
Qed.

Lemma call_effects (st : State) :
  heap (fst (call host baseUrl st)) = heap (fst (send host baseUrl st))
  /\ sent (fst (call host baseUrl st)) = sent (fst (send host baseUrl st))
  /\ _headers (ctx (fst (call host baseUrl st)))
     = _headers (ctx (fst (send host baseUrl st))).
Proof.
  unfold call. destruct (send host baseUrl st) as [st' [response|e]]; [|done].
  cbn [fst].
  repeat match goal with
         | |- context [if ?b then _ else _] => destruct b
         | |- context [match ?x with Some _ => _ | None => _ end] => destruct x
         end; done.
Qed.

(** With nothing registered, the call is the transport stage alone. *)
Lemma invoke_unregistered (p : list string) (t : RpcType) (wants_ctx : bool)
      (a : value) (options : CallOptions) (h : Heap) (log : list SentRequest) :
  let c := fst (new_ClientContext p a t options h) in
  let h' := snd (new_ClientContext p a t options h) in
  let st := fst (call host baseUrl {| ctx := c; heap := h'; sent := log |}) in
  heap (fst (Proxy.invoke host baseUrl ∅ p t wants_ctx a options h log)) = heap st
  /\ sent (fst (Proxy.invoke host baseUrl ∅ p t wants_ctx a options h log)) = sent st.
Proof.
  cbn zeta. unfold Proxy.invoke.
  destruct (new_ClientContext p a t options h) as [c h'] eqn:E. cbn [fst snd].
  unfold Proxy.chain. rewrite assemble_spec.
  assert (forall i, default [] ((∅ : Proxy.MiddlewareMap) !! route_key (take i (path c))) = []) as Hnone.
  { intros i. rewrite lookup_empty. done. }
  rewrite (map_ext _ (fun _ => []) Hnone).
  assert (forall l : list nat,
            concat (map (fun _ => @nil ClientMiddleware) l) = []) as Hnil.
  { intros l. induction l; cbn; auto. }
  rewrite lookup_empty, Hnil. cbn [default app].
  pose proof (pipeline_stages [] (Proxy.transport host baseUrl)
                {| ctx := c; heap := h'; sent := log |}) as Hp.
  cbn [map app run_before run_after fold_left fold_right] in Hp.
  rewrite Hp by done. unfold Proxy.transport.
  destruct (call host baseUrl {| ctx := c; heap := h'; sent := log |})
    as [st [r|e]]; done.
Qed.

End ClientFacts.

(** ** The dispatcher *)

Section DispatcherFacts.
Import Server Handler.
Variable host : Host.

(** Splitting and joining at a character the pieces do not contain. *)
Lemma split_on_piece (sep : ascii) (s : string) :
  has_char sep s = false -> split_on sep s = [s].
Proof.
  induction s as [|c s IH]; cbn; [done|].
  intros H. apply orb_false_iff in H as [Hc Hs].
  rewrite Hc, (IH Hs). done.
Qed.

Lemma split_on_append (sep : ascii) (s t : string) :
  has_char sep s = false ->
  split_on sep (s +:+ String sep t) = s :: split_on sep t.
Proof.
  induction s as [|c s IH]; intros H.
  - change ("" +:+ String sep t) with (String sep t).
    cbn [split_on]. rewrite Ascii.eqb_refl. done.
  - change (String c s +:+ String sep t) with (String c (s +:+ String sep t)).
    cbn [has_char] in H. apply orb_false_iff in H as [Hc Hs].
    cbn [split_on]. rewrite Hc, (IH Hs). done.
Qed.

Lemma split_on_join (sep : ascii) (path : list string) :
  path <> [] ->
  Forall (fun s => has_char sep s = false) path ->
  split_on sep (join (String sep "") path) = path.
Proof.
  intros Hne Hall. induction Hall as [|s rest Hs Hrest IH]; [done|].
  destruct rest as [|s' rest].
  - cbn. by apply split_on_piece.
  - change (join (String sep "") (s :: s' :: rest))
      with (s +:+ String sep "" +:+ join (String sep "") (s' :: rest)).
    change (String sep "" +:+ join (String sep "") (s' :: rest))
      with (String sep (join (String sep "") (s' :: rest))).
    rewrite split_on_append by done. rewrite IH; done.
Qed.

(** The loop of [findRpcMethodDescriptor] follows the definition down,
    segment by segment under the names the definition uses, and gathers
    the middleware on the way. *)
Lemma find_loop_endpoint_at (path : list string) :
  forall (node : ApiNode) (front : list ServerMiddleware)
         (d : Descriptor) (ms : list ServerMiddleware),
    path <> [] ->
    spec_endpoint_at path node = Some (d, ms) ->
    exists own,
      find_loop host path (Node node) (front ++ own_middlewares node)
      = inl (Some (Endpoint own d), front ++ ms).
Proof.
  induction path as [|s rest IH]; intros node front d ms Hne H; [done|].
  destruct node as [mws d'|mws children]; cbn [spec_endpoint_at] in H; try done.
  destruct (assoc_get s children) as [child|] eqn:Hchild; [|done].
  destruct (spec_endpoint_at rest child) as [[d0 below]|] eqn:Hbelow; [|done].
  injection H as -> <-.
  cbn [find_loop get_property getMiddlewares own_middlewares]. rewrite Hchild.
  destruct rest as [|s' rest].
  - destruct child as [mws' d'|mws' cs]; cbn [spec_endpoint_at] in Hbelow; try done.
    injection Hbelow as -> ->. cbn [getMiddlewares own_middlewares has_rpcType].
    exists below. by rewrite <- app_assoc.
  - destruct (IH child (front ++ mws) d below) as [own Hown]; [done|done|].
    exists own. destruct child as [mws' d'|mws' cs];
      cbn [getMiddlewares own_middlewares] in *; rewrite Hown;
      by rewrite <- app_assoc.
Qed.

(** What this dispatcher does resolve: the names of the definition as they
    are, joined by [/]. *)
Lemma slash_path_resolves (api : ApiNode) (path : list string)
      (d : Descriptor) (ms : list ServerMiddleware) :
  path <> [] ->
  Forall (fun s => has_char "/" s = false) path ->
  spec_endpoint_at path api = Some (d, ms) ->
  exists own,
    findRpcMethodDescriptor host (split_on "/" (join "/" path)) api
    = inl (Some (Endpoint own d), ms).
Proof.
  intros Hne Hall H. rewrite split_on_join by done.
  unfold findRpcMethodDescriptor. cbn [getMiddlewares].
  apply (find_loop_endpoint_at path api [] d ms Hne H).
Qed.

(** No name that an object literal inherits holds a dot. *)
Lemma inherited_without_dot (s : string) :
  has_char "." s = true -> inherited s = None.
Proof.
  intros Hdot. unfold inherited.
  destruct (String.eqb_spec s "__proto__") as [->|_]; [done|].
  destruct (existsb (String.eqb s) prototype_functions) eqn:E; [|done].
  apply existsb_exists in E as (name & Hin & Heq).
  apply String.eqb_eq in Heq as <-. exfalso.
  unfold prototype_functions in Hin. cbn [In] in Hin.
  repeat (destruct Hin as [<-|Hin]; [done|]). done.
Qed.

(** A lookup that hands back nothing is answered 404. *)
Lemma unresolved_path_is_404 (api : ApiNode)
      (options : option (value -> RequestEvent -> ServerContext))
      (ev : RequestEvent) (p : string) (ms : list ServerMiddleware) :
  list_includes (method (request ev)) acceptedMethods = true ->
  params_path ev = Some p ->
  findRpcMethodDescriptor host (split_on "/" p) api = inl (None, ms) ->
  handler host api options ev = text_response "RPC method not found" 404.
Proof.
  intros Hm Hp Hnone. unfold handler, route. rewrite Hm, Hp. cbn [negb].
  destruct (String.eqb p ""); [done|]. rewrite Hnone. done.
Qed.

(** A content type that names none of the three known ones, or none at
    all, sends a command to the MessagePack parser. *)
Lemma parseArgs_fallback (req : Request) :
  (forall c, headers_get "Content-Type" (headers req) = Some c ->
             includes "multipart/form-data" c = false
             /\ includes "application/json" c = false) ->
  parseArgs host command req = parseCommandMsgpackr host req.
Proof.
  intros H. unfold parseArgs.
  destruct (headers_get "Content-Type" (headers req)) as [c|].
  - destruct (H c eq_refl) as [-> ->]. done.
  - done.
Qed.

(** A response is built for any status from 200 to 599 that is not a
    null-body status; its headers are the ones given when they name a
    content type. *)
Lemma new_Response_ok (body : option string) (text : bool) (h : Headers)
      (code : Z) (ct : string) :
  (200 <= code <= 599)%Z -> code <> 204%Z -> code <> 205%Z -> code <> 304%Z ->
  headers_get "Content-Type" h = Some ct ->
  new_Response body text h code
  = inl {| r_status := code; r_headers := h; r_body := body |}.
Proof.
  intros Hr H1 H2 H3 Hct. unfold new_Response, unsigned_short.
  rewrite Z.mod_small by lia. cbv zeta.
  replace ((200 <=? code)%Z && (code <=? 599)%Z) with true
    by (symmetry; apply andb_true_iff; split; apply Z.leb_le; lia).
  cbn [negb].
  replace ((code =? 204)%Z || (code =? 205)%Z || (code =? 304)%Z) with false
    by (symmetry; rewrite !orb_false_iff; repeat split; apply Z.eqb_neq; done).
  rewrite andb_false_r, Hct. destruct body; done.
Qed.

(** The terminal stage never calls [next]. *)
Lemma terminal_ignores_next (d : Descriptor) (ctx : ServerContext)
      (n n' : ServerContext -> ServerContext * outcome) :
  terminal d ctx n = terminal d ctx n'.
Proof. reflexivity. Qed.

(** A schema that raises issues makes the terminal stage fail with them,
    the context untouched and the implementation not called. *)
Lemma terminal_schema_failure (d : Descriptor) (ctx : ServerContext)
      (schema : value -> value + list value) (issues : list value) n :
  zodSchema d = Some schema ->
  schema (getArgs ctx) = inr issues ->
  terminal d ctx n = (ctx, Rejected (ZodError issues)).
Proof. intros Hs Hi. unfold terminal. rewrite Hs, Hi. done. Qed.

(** What the handler answers once a [ZodError] comes out of the chain,
    whatever the middleware in it. *)
Lemma respond_on_ZodError (createServerContext : value -> RequestEvent -> ServerContext)
      (d : Descriptor) (middlewares : list ServerMiddleware) (a : value)
      (ev : RequestEvent) (left : ServerContext) (issues : list value) :
  Pipeline.pipeline (createServerContext a ev) (middlewares ++ [terminal d])
  = (left, Rejected (ZodError issues)) ->
  exists r,
    respond host createServerContext d middlewares a ev = inl r
    /\ r_status r = 422%Z
    /\ headers_get "X-Tango-Validation-Error" (r_headers r) = Some "true"
    /\ r_body r = serialize host (prefersJson left) (VArr issues)
    /\ headers_get "Content-Type" (r_headers r)
       = Some (if prefersJson left then "application/json"
               else "application/msgpack")
    /\ headers_get "Cache-Control" (r_headers r)
       = headers_get "Cache-Control" (headers_response left).
Proof.
  intros Hrun. unfold respond. rewrite Hrun. unfold makeResponse.
  unfold cache.get, cache.set, status.get, status.set, response_header_set,
    with_cache, with_status, with_headers_response, prefersJson.
  cbn [_cache _status headers_response event start].
  change (Z.max 0 0 =? 0)%Z with true. rewrite andb_false_r.
  cbn [_cache _status headers_response event start].
  set (json := match headers_get "Accept" (headers (request (event left))) with
               | Some a0 => includes "application/json" a0
               | None => false
               end).
  rewrite (new_Response_ok _ _ _ 422
             (if json then "application/json" else "application/msgpack"));
    [|lia|done|done|done|by apply headers_get_set_eq].
  eexists. split; [reflexivity|]. cbn [r_status r_headers r_body].
  split; [done|]. split; [|split; [done|split]].
  - rewrite !headers_get_set_ne by (vm_compute; discriminate).
    by apply headers_get_set_eq.
  - by apply headers_get_set_eq.
  - rewrite !headers_get_set_ne by (vm_compute; discriminate). done.
Qed.

(** The same from the request on: the chain is made of pass-through
    stages, and the schema raises issues on the arguments as the stages
    hand them to the terminal stage. *)
Lemma respond_on_schema_failure
      (createServerContext : value -> RequestEvent -> ServerContext)
      (d : Descriptor) (stages : list (Stage ServerContext)) (a : value)
      (ev : RequestEvent) (schema : value -> value + list value)
      (issues : list value) :
  zodSchema d = Some schema ->
  schema (getArgs (run_before stages (createServerContext a ev))) = inr issues ->
  Pipeline.pipeline (createServerContext a ev)
                    (map pass_through stages ++ [terminal d])
  = (run_after stages (run_before stages (createServerContext a ev))
               (Rejected (ZodError issues)),
     Rejected (ZodError issues)).
Proof.
  intros Hs Hi. rewrite pipeline_stages by apply terminal_ignores_next.
  rewrite (terminal_schema_failure _ _ _ _ _ Hs Hi). done.
Qed.

End DispatcherFacts.

(** * The claims *)

(** ** C4: the kebab normalizer *)

(** C4, as the specification words it, fails on its own example: the two
    passes turn [getUSERid] into [get-USE-Rid], not [get-USER-id]; the
    second dash goes before the last letter of the uppercase run, which is
    the [R] that the lowercase [i] follows. *)
Lemma kebab_getUSERid_counterexample :
  Kebab.insert_dashes "getUSERid" <> "get-USER-id".
Proof. vm_compute. discriminate. Qed.

(** C4, amended: the normalizer is two insertion passes followed by
    lowercasing of the whole string; the first pass puts a dash between a
    lowercase letter or digit and an uppercase letter, the second between
    an uppercase letter and an uppercase-lowercase pair right after it.
    So [getUser] becomes [get-User] and [getUSERid] becomes [get-USE-Rid]
    before lowercasing, and [getUserID], [HTTPServer], [v2Parser] map to
    [get-user-id], [http-server], [v2-parser]. *)
Theorem kebab_two_passes_then_lowercase :
  (forall s, Kebab.camelToKebabCase s = Kebab.spec_kebab s) /\
  Kebab.insert_dashes "getUser" = "get-User" /\
  Kebab.insert_dashes "getUSERid" = "get-USE-Rid" /\
  Kebab.camelToKebabCase "getUSERid" = "get-use-rid" /\
  Kebab.camelToKebabCase "getUserID" = "get-user-id" /\
  Kebab.camelToKebabCase "HTTPServer" = "http-server" /\
  Kebab.camelToKebabCase "v2Parser" = "v2-parser".
Proof.
  split; [|repeat split; reflexivity].
  intros s. unfold Kebab.camelToKebabCase, Kebab.spec_kebab.
  rewrite pass1_spec, pass2_spec. reflexivity.
Qed.

(** ** C8: a chain that runs out *)

(** C8, as stated, fails for the executor that shifts its argument array:
    when the chain runs out it rejects with "Middleware not found!", not
    with the exhaustion message. *)
Lemma shift_pipeline_message_counterexample :
  snd (PipelineShift.pipeline 0%nat [pass_through Samples.counting])
  <> Rejected Pipeline.exhausted.
Proof. vm_compute. discriminate. Qed.

(** C8, amended: when every middleware of the chain hands back what
    [next()] answered, neither executor resolves (with [undefined] or
    anything else): the index-based one rejects with the exhaustion message
    that asks for a last stage returning without calling [next()], the
    shifting one rejects with "Middleware not found!". *)
Theorem pipeline_runs_out {STATE : Type} (state : STATE)
        (middlewares : list (Middleware STATE)) :
  Forall returns_next middlewares ->
  snd (Pipeline.pipeline state middlewares)
  = Rejected (Error "Pipeline exhausted. Make sure the last middleware in the chain returns a result without calling next().")
  /\ snd (PipelineShift.pipeline state middlewares)
     = Rejected (Error "Middleware not found!")
  /\ (forall v, snd (Pipeline.pipeline state middlewares) <> Resolved v)
  /\ (forall v, snd (PipelineShift.pipeline state middlewares) <> Resolved v).
Proof.
  intros Hall.
  assert (snd (Pipeline.pipeline state middlewares)
          = Rejected Pipeline.exhausted) as H1
      by (eapply execute_runs_out; eauto).
  pose proof (shift_runs_out middlewares Hall state) as H2.
  repeat split; try assumption; intros v; congruence.
Qed.

Lemma pipeline_runs_out_witness :
  Forall returns_next [pass_through Samples.counting; pass_through Samples.counting]
  /\ snd (Pipeline.pipeline 5%nat
            [pass_through Samples.counting; pass_through Samples.counting])
     = Rejected Pipeline.exhausted.
Proof.
  assert (Forall returns_next
            [pass_through Samples.counting; pass_through Samples.counting]) as H.
  { repeat constructor; apply pass_through_returns_next. }
  split; [exact H|].
  exact (proj1 (pipeline_runs_out 5%nat _ H)).
Defined.

(** ** C9: the response status *)

Section StatusClaims.
Import Server.status.

(** C9, as stated, fails: [status.set] stores any number it is given. *)
Lemma status_set_counterexample :
  ~ Server.valid_status
      (Server.status.get
         (Server.status.run [Server.status.Set_ 99999] Samples.fresh_context)).
Proof. unfold Server.valid_status. vm_compute. intros [_ H]. apply H. reflexivity. Qed.

(** C9, amended: [status.set] stores its argument unchanged, without any
    check; a context starts at 200; every shortcut stores its own fixed
    code, all of them valid; so after any sequence of operations on
    [ctx.status] the stored status is a valid HTTP code provided every
    number given to [status.set] was one. *)
Theorem status_valid_when_inputs_are (ctx : Server.ServerContext)
        (ops : list Server.status.op) :
  Server.valid_status (Server.status.get ctx) ->
  Forall (fun o => match o with
                   | Server.status.Set_ code => Server.valid_status code
                   | Server.status.Shortcut _ => True
                   end) ops ->
  Server.valid_status (Server.status.get (Server.status.run ops ctx))
  /\ (forall code c, Server.status.get (Server.status.set code c) = code)
  /\ (forall now a ev,
        Server.status.get (Server.new_ServerContext now a ev) = 200%Z)
  /\ (forall k c,
        Server.status.get (Server.status.call k c) = Server.status.code_of k
        /\ Server.valid_status (Server.status.code_of k))
  /\ map Server.status.code_of
       [continue; switchingProtocols; processing; ok; created;
         accepted; noContent; resetContent; partialContent; multipleChoices;
         movedPermanently; found; seeOther; notModified; temporaryRedirect;
         permanentRedirect; badRequest; unauthorized; paymentRequired;
         forbidden; notFound; methodNotAllowed; notAcceptable; conflict; gone;
         lengthRequired; preconditionFailed; payloadTooLarge; uriTooLong;
         badContent; rangeNotSatisfiable; expectationFailed; tooManyRequests;
         serverError; notImplemented; badGateway; serviceUnavailable;
         gatewayTimeout; httpVersionNotSupported]
     = [100; 101; 102; 200; 201; 202; 204; 205; 206; 300; 301; 302; 303; 304;
        307; 308; 400; 401; 402; 403; 404; 405; 406; 409; 410; 411; 412; 413;
        414; 415; 416; 417; 429; 500; 501; 502; 503; 504; 505]%Z.
Proof.
  intros Hctx Hops.
  assert (forall k, Server.valid_status (Server.status.code_of k)) as Hk.
  { intros k. unfold Server.valid_status. destruct k; cbn; lia. }
  split; [|split; [|split; [|split]]]; try reflexivity.
  - revert ctx Hctx.
    induction Hops as [|o ops Ho _ IH]; intros ctx Hctx; [exact Hctx|].
    cbn [Server.status.run fold_left]. apply IH.
    destruct o as [code|k]; cbn; [exact Ho | apply Hk].
  - intros k c. split; [reflexivity | apply Hk].
Qed.

Lemma status_valid_when_inputs_are_witness :
  Server.valid_status
    (Server.status.get
       (Server.status.run
          [Server.status.Set_ 418; Server.status.Shortcut Server.status.notFound]
          Samples.fresh_context)).
Proof.
  refine (proj1 (status_valid_when_inputs_are Samples.fresh_context
                   [Server.status.Set_ 418;
                    Server.status.Shortcut Server.status.notFound] _ _)).
  - unfold Server.valid_status. vm_compute. split; discriminate.
  - repeat constructor; unfold Server.valid_status; lia.
Defined.

End StatusClaims.

(** ** C7: which arguments become uploads *)

(** C7: in a command call the transport replaces the arguments by what the
    extraction leaves of them (and leaves them alone for the other rpc
    types); an argument is moved out of the arguments into the uploads,
    under its own name, exactly when it is a single file handle or a
    non-empty list of file handles only; a list with any other element and
    an empty list stay where they are.  The arguments are a [Map], which
    holds no key twice. *)
Theorem uploads_are_exactly_the_files (a : list (string * value))
        (k : string) (v : value) :
  NoDup a.*1 ->
  assoc_get k a = Some v ->
  (Client.uploadable v ->
     assoc_get k (snd (Client.extract_uploads a)) = Some v
     /\ assoc_get k (fst (Client.extract_uploads a)) = None)
  /\ (~ Client.uploadable v ->
        assoc_get k (fst (Client.extract_uploads a)) = Some v
        /\ assoc_get k (snd (Client.extract_uploads a)) = None)
  /\ (forall items, (exists x, x ∈ items /\ ~ Client.file_handle x) ->
                     ~ Client.uploadable (VArr items))
  /\ ~ Client.uploadable (VArr [])
  /\ (forall host baseUrl st,
        Client.args (Client.ctx (fst (Client.send host baseUrl st)))
        = match Client.rpcType (Client.ctx st) with
          | Client.command => fst (Client.extract_uploads (Client.args (Client.ctx st)))
          | _ => Client.args (Client.ctx st)
          end).
Proof.
  intros Hnd Hk.
  pose proof (extract_fold a a [] k Hnd Hnd) as H. cbn zeta in H.
  rewrite Hk in H. fold (Client.extract_uploads a) in H.
  split; [|split; [|split; [|split]]].
  - intros Hv. apply is_upload_spec in Hv. rewrite Hv in H. tauto.
  - intros Hv. destruct (Client.is_upload v) eqn:E.
    + exfalso. apply Hv, is_upload_spec, E.
    + destruct H as [H1 H2]. rewrite H1, H2. done.
  - intros items (x & Hx & Hnf) [[name [=]]|(items' & [= <-] & _ & Hall)].
    apply Hnf. eapply Forall_forall; [exact Hall | exact Hx].
  - intros [[name [=]]|(items' & [= <-] & Hne & _)]. done.
  - intros host baseUrl st. unfold Client.send.
    destruct (Client.rpcType (Client.ctx st));
      [destruct (Client.extract_uploads _) as [rest uploads]| |];
      cbn [Client.with_args Client.path fst];
      destruct (Client.request_URL host baseUrl _); cbn [fst Client.ctx Client.args];
      try done;
      repeat match goal with
             | |- context [let '(_, _) := ?x in _] => destruct x
             end; done.
Qed.

Lemma uploads_are_exactly_the_files_witness :
  assoc_get "mixed" (fst (Client.extract_uploads Samples.upload_args))
  = Some (VArr [VFile "d.txt"; VStr "x"])
  /\ assoc_get "mixed" (snd (Client.extract_uploads Samples.upload_args)) = None.
Proof.
  refine (proj1 (proj2 (uploads_are_exactly_the_files Samples.upload_args
                          "mixed" (VArr [VFile "d.txt"; VStr "x"]) _ _)) _).
  - apply (bool_decide_unpack _). vm_compute. exact I.
  - vm_compute. reflexivity.
  - intros [[name [=]]|(items & [= <-] & _ & Hall)].
    apply Forall_cons in Hall as [_ Hall].
    apply Forall_cons in Hall as [[name [=]] _].
Defined.

(** ** C5: the middleware chain of a call *)

(** C5: after any series of assignments through the configuration proxy,
    the chain run for a call at [path] is the effective chain of the
    specification followed by the transport stage: the list registered
    under the global key [""], then for every [i] from 1 to the length of
    the path, in ascending order, the list registered under the route key
    of the first [i] levels, where the list under a key holds what each
    assignment to that key brought, in the order of the assignments.  The
    call runs the pipeline on exactly that chain; when the registered
    middleware pass through, their work before [next()] is done in the
    order of the chain, then the transport, then their work after
    [next()] in the reverse order. *)
Theorem client_chain_order (host : Client.Host) (baseUrl : string)
        (assignments : list Proxy.Assignment) (path : list string)
        (t : Client.RpcType) (wants_ctx : bool) (a : value)
        (options : Client.CallOptions) (h : Client.Heap)
        (log : list Client.SentRequest) :
  let chain := Proxy.effective_chain assignments path in
  let transport := Proxy.transport host baseUrl in
  let started :=
    {| Client.ctx := fst (Client.new_ClientContext path a t options h);
       Client.heap := snd (Client.new_ClientContext path a t options h);
       Client.sent := log |} in
  Proxy.chain host baseUrl (Proxy.configure assignments) path
  = chain ++ [transport]
  /\ Proxy.invoke host baseUrl (Proxy.configure assignments) path t wants_ctx
       a options h log
     = match Pipeline.pipeline started (chain ++ [transport]) with
       | (st, Rejected e) => (st, Proxy.Thrown e)
       | (st, Resolved _) =>
           (st, if wants_ctx then Proxy.Context (Client.ctx st)
                else Proxy.Value (Client.result (Client.ctx st)))
       end
  /\ (forall stages : list (Stage Client.State),
        chain = map pass_through stages ->
        Pipeline.pipeline started (chain ++ [transport])
        = (run_after stages
             (fst (Proxy.transport host baseUrl (run_before stages started)
                     (fun st => (st, Rejected Pipeline.exhausted))))
             (snd (Proxy.transport host baseUrl (run_before stages started)
                     (fun st => (st, Rejected Pipeline.exhausted)))),
           snd (Proxy.transport host baseUrl (run_before stages started)
                  (fun st => (st, Rejected Pipeline.exhausted))))).
Proof.
  cbn zeta.
  assert (Proxy.chain host baseUrl (Proxy.configure assignments) path
          = Proxy.effective_chain assignments path
            ++ [Proxy.transport host baseUrl]) as Hchain.
  { unfold Proxy.chain, Proxy.effective_chain.
    rewrite assemble_spec, configure_lookup. do 3 f_equal.
    apply map_ext. intros i. by rewrite configure_lookup, route_key_spec. }
  split; [exact Hchain|]. split.
  - unfold Proxy.invoke.
    destruct (new_ClientContext_fields path a t options h) as (_ & Hpath & _).
    destruct (Client.new_ClientContext path a t options h) as [c h'].
    cbn [fst snd] in *. rewrite Hpath, Hchain. done.
  - intros stages ->. rewrite pipeline_stages by done.
    destruct (Proxy.transport host baseUrl _ _). done.
Qed.

Lemma client_chain_order_witness :
  Proxy.chain Samples.client_host Samples.base
    (Proxy.configure Samples.scenario) ["posts"; "create"]
  = map pass_through
        [Samples.naming "m1"; Samples.naming "m2"; Samples.naming "m3"]
    ++ [Proxy.transport Samples.client_host Samples.base]
  /\ Client.args
       (Client.ctx
          (fst (Proxy.invoke Samples.client_host Samples.base
                  (Proxy.configure Samples.scenario) ["posts"; "create"]
                  Client.command false (VObj []) Client.no_options ∅ [])))
     = [("m1", VNum 0); ("m2", VNum 1); ("m3", VNum 2)].
Proof.
  destruct (client_chain_order Samples.client_host Samples.base Samples.scenario
              ["posts"; "create"] Client.command false (VObj [])
              Client.no_options ∅ []) as (Hchain & Hinvoke & _).
  split.
  - rewrite Hchain. vm_compute. reflexivity.
  - rewrite Hinvoke. vm_compute. reflexivity.
Defined.

(** ** C3: the [Accept] header of a call *)




(** ** C10: the caller's header object is shared *)




(** ** C6: a validation failure *)

(** C6, as stated, fails twice.  Behind a middleware that catches what the
    rest of the chain throws, a request whose arguments the schema refuses
    is answered 200 with what that middleware returned, and without the
    validation header; and behind a middleware that wrote a
    [Cache-Control] by hand, the 422 answer carries that [Cache-Control]. *)
Lemma validation_failure_counterexample :
  Samples.id_schema (VObj [("id", VStr "")])
  = inr [VObj [("code", VStr "too_small"); ("path", VArr [VStr "id"])]]
  /\ (exists r,
        Handler.handler Samples.server_host Samples.guarded_api None
          (Samples.request_to "GET" "safe/getById" [("id", "")] ∅) = inl r
        /\ Handler.r_status r = 200%Z
        /\ headers_get "X-Tango-Validation-Error" (Handler.r_headers r) = None
        /\ Handler.r_body r
           = Some (Handler.pack Samples.server_host
                     (VObj [("error", VStr "invalid")])))
  /\ (exists r,
        Handler.handler Samples.server_host Samples.guarded_api None
          (Samples.request_to "GET" "stamped/getById" [("id", "")] ∅) = inl r
        /\ Handler.r_status r = 422%Z
        /\ headers_get "Cache-Control" (Handler.r_headers r) = Some "no-store").
Proof.
  split; [reflexivity|].
  split; eexists; (split; [vm_compute; reflexivity|]); repeat split;
    vm_compute; reflexivity.
Qed.

(** C6, amended: when the request is routed to an endpoint and a
    [ZodError] comes out of its chain (no middleware has caught it), the
    handler answers with status 422, the header
    [X-Tango-Validation-Error: true] and the issues array as the body, as
    JSON when the request's [Accept] names [application/json] and as
    MessagePack otherwise, with the matching [Content-Type]; the cache
    directive is zero when the response is made, so the handler puts no
    [Cache-Control] of its own: that entry of the response is as the
    middleware left it in [ctx.headers.response], absent unless one of
    them wrote it by hand.  With a chain of middleware that pass through,
    the [ZodError] does come out whenever [schema.parse] raises issues on
    the arguments as the middleware hand them on. *)
Theorem validation_failure_response (host : Handler.Host)
        (api : Handler.ApiNode)
        (options : option (value -> Server.RequestEvent -> Server.ServerContext))
        (ev : Server.RequestEvent) (d : Handler.Descriptor)
        (middlewares : list Handler.ServerMiddleware) (a : value)
        (left : Server.ServerContext) (issues : list value) :
  let createServerContext :=
    match options with
    | Some f => f
    | None => Handler.default_createServerContext host
    end in
  Handler.route host api ev = Handler.Routed d middlewares a ->
  Pipeline.pipeline (createServerContext a ev)
                    (middlewares ++ [Handler.terminal d])
  = (left, Rejected (ZodError issues)) ->
  (exists r,
     Handler.handler host api options ev = inl r
     /\ Handler.r_status r = 422%Z
     /\ headers_get "X-Tango-Validation-Error" (Handler.r_headers r) = Some "true"
     /\ Handler.r_body r
        = match headers_get "Accept"
                  (Server.headers (Server.request (Server.event left))) with
          | Some accept =>
              if includes "application/json" accept
              then Handler.JSON_stringify host (VArr issues)
              else Some (Handler.pack host (VArr issues))
          | None => Some (Handler.pack host (VArr issues))
          end
     /\ headers_get "Content-Type" (Handler.r_headers r)
        = match headers_get "Accept"
                  (Server.headers (Server.request (Server.event left))) with
          | Some accept =>
              if includes "application/json" accept
              then Some "application/json" else Some "application/msgpack"
          | None => Some "application/msgpack"
          end
     /\ headers_get "Cache-Control" (Handler.r_headers r)
        = headers_get "Cache-Control" (Server.headers_response left))
  /\ (forall (stages : list (Stage Server.ServerContext))
             (schema : value -> value + list value) (raised : list value),
        Handler.zodSchema d = Some schema ->
        schema (Server.getArgs (run_before stages (createServerContext a ev)))
        = inr raised ->
        Pipeline.pipeline (createServerContext a ev)
                          (map pass_through stages ++ [Handler.terminal d])
        = (run_after stages (run_before stages (createServerContext a ev))
                     (Rejected (ZodError raised)),
           Rejected (ZodError raised))).
Proof.
  cbn zeta. intros Hroute Hrun. split.
  - destruct (respond_on_ZodError host _ d _ a ev _ issues Hrun)
      as (r & Hr & H1 & H2 & H3 & H4 & H5).
    exists r. unfold Handler.handler. rewrite Hroute.
    split; [exact Hr|]. split; [exact H1|]. split; [exact H2|].
    split; [|split; [|exact H5]].
    + rewrite H3. unfold Handler.serialize, Handler.prefersJson.
      destruct (headers_get "Accept" _) as [accept|]; [|done].
      by destruct (includes "application/json" accept).
    + rewrite H4. unfold Handler.prefersJson.
      destruct (headers_get "Accept" _) as [accept|]; [|done].
      by destruct (includes "application/json" accept).
  - intros stages schema raised Hs Hi.
    apply (respond_on_schema_failure _ d stages a ev schema raised Hs Hi).
Qed.

Lemma validation_failure_response_witness :
  exists r,
    Handler.handler Samples.server_host Samples.api None
      (Samples.request_to "GET" "posts/getById" [("id", "")] ∅) = inl r
    /\ Handler.r_status r = 422%Z
    /\ headers_get "X-Tango-Validation-Error" (Handler.r_headers r) = Some "true"
    /\ Handler.r_body r
       = Some (Handler.pack Samples.server_host
                 (VArr [VObj [("code", VStr "too_small");
                              ("path", VArr [VStr "id"])]]))
    /\ headers_get "Cache-Control" (Handler.r_headers r) = None.
Proof.
  destruct (validation_failure_response Samples.server_host Samples.api None
              (Samples.request_to "GET" "posts/getById" [("id", "")] ∅)
              Samples.getById (map pass_through [Samples.marking])
              (VObj [("id", VStr "")])
              (run_after [Samples.marking]
                 (run_before [Samples.marking]
                    (Handler.default_createServerContext Samples.server_host
                       (VObj [("id", VStr "")])
                       (Samples.request_to "GET" "posts/getById" [("id", "")] ∅)))
                 (Rejected (ZodError
                    [VObj [("code", VStr "too_small"); ("path", VArr [VStr "id"])]])))
              [VObj [("code", VStr "too_small"); ("path", VArr [VStr "id"])]])
    as [(r & Hr & H1 & H2 & H3 & _ & H5) _].
  - vm_compute. reflexivity.
  - vm_compute. reflexivity.
  - exists r. split; [exact Hr|]. split; [exact H1|]. split; [exact H2|].
    split; [rewrite H3; vm_compute; reflexivity|].
    rewrite H5. vm_compute. reflexivity.
Defined.

(** ** C1: resolving the route key *)

(** C1 does not hold of this dispatcher: the client builds the URL from the
    dot-joined kebab route key, and the handler splits the path at [/] and
    looks every piece up under its own name.  The key of
    [users.getProfile] is [users.get-profile]; it is one segment, which the
    API definition does not have, so the request is answered 404, while the
    slash-separated camel-case path still reaches the descriptor.  So it is
    for every definition: a route key that holds a dot, as that of every
    path of two or more levels does, is answered 404 unless the root
    itself has a member whose name is the whole key. *)
Theorem route_key_request_is_not_found (host : Handler.Host) :
  route_key ["users"; "getProfile"] = "users.get-profile"
  /\ (forall (client : Client.Host) (baseUrl u : string),
        Client.new_URL client (baseUrl +:+ "/users.get-profile")
                       (Client.window_origin client) = Some u ->
        map Client.url
          (Client.sent
             (fst (Proxy.invoke client baseUrl ∅ ["users"; "getProfile"]
                     Client.query false (VObj [("page", VNum 2)])
                     Client.no_options ∅ [])))
        = [u])
  /\ map Client.url
       (Client.sent
          (fst (Proxy.invoke Samples.client_host Samples.base ∅
                  ["users"; "getProfile"]
                  Client.query false (VObj [("page", VNum 2)])
                  Client.no_options ∅ [])))
     = ["https://api.example.com/api/users.get-profile"]
  /\ Handler.handler host Samples.api None
       (Samples.request_to "GET" "users.get-profile" [] ∅)
     = Handler.text_response "RPC method not found" 404
  /\ Handler.findRpcMethodDescriptor host (split_on "/" "users.get-profile")
       Samples.api
     = inl (None, [])
  /\ Handler.findRpcMethodDescriptor host (split_on "/" "users/getProfile")
       Samples.api
     = inl (Some (Handler.Endpoint [] Samples.getProfile), [])
  /\ (forall mws children options (p : list string) search headers,
        has_char "." (route_key p) = true ->
        has_char "/" (route_key p) = false ->
        assoc_get (route_key p) children = None ->
        Handler.handler host (Handler.Group mws children) options
          (Samples.request_to "GET" (route_key p) search headers)
        = Handler.text_response "RPC method not found" 404).
Proof.
  split; [reflexivity|]. split; [|split; [vm_compute; reflexivity|]].
  { intros client baseUrl u Hurl.
    set (st := {| Client.ctx := fst (Client.new_ClientContext ["users"; "getProfile"]
                                       (VObj [("page", VNum 2)]) Client.query
                                       Client.no_options ∅);
                  Client.heap := snd (Client.new_ClientContext ["users"; "getProfile"]
                                        (VObj [("page", VNum 2)]) Client.query
                                        Client.no_options ∅);
                  Client.sent := [] |}).
    destruct (invoke_unregistered client baseUrl ["users"; "getProfile"]
                Client.query false (VObj [("page", VNum 2)]) Client.no_options
                ∅ []) as [_ ->]. fold st.
    destruct (call_effects client baseUrl st) as (_ & -> & _).
    destruct (send_effects client baseUrl st u) as (_ & _ & req & -> & <- & _).
    { exact Hurl. }
    reflexivity. }
  split; [reflexivity|]. split; [reflexivity|]. split; [reflexivity|].
  intros mws children options p search headers Hdot Hslash Hnone.
  apply (unresolved_path_is_404 host _ options _ (route_key p) []);
    [reflexivity | reflexivity |].
  rewrite split_on_piece by exact Hslash.
  unfold Handler.findRpcMethodDescriptor.
  cbn [Handler.getMiddlewares Handler.find_loop Handler.get_property].
  rewrite Hnone, (inherited_without_dot _ Hdot). done.
Qed.

Lemma route_key_request_is_not_found_witness :
  Handler.handler Samples.server_host
    (Handler.Group []
       [("users",
         Handler.Group [] [("getProfile", Handler.Endpoint [] Samples.getProfile)])])
    None
    (Samples.request_to "GET" (route_key ["users"; "getProfile"]) [] ∅)
  = Handler.text_response "RPC method not found" 404.
Proof.
  destruct (route_key_request_is_not_found Samples.server_host)
    as (_ & _ & _ & _ & _ & _ & H).
  apply H; reflexivity.
Defined.

(** ** C2: a command with an unrecognised content type *)

(** C2 does not hold of this dispatcher: a POST to a command whose
    [Content-Type] is [text/plain], or absent, is parsed as MessagePack
    (here an empty body, so no arguments); the implementation runs, sets
    201, and its result is the body of the answer.  No path of the handler
    answers 415 by itself. *)
Theorem unknown_content_type_reaches_implementation (host : Handler.Host) :
  let plain := Samples.request_to "POST" "posts/create" []
                 (headers_set "Content-Type" "text/plain" ∅) in
  let bare := Samples.request_to "POST" "posts/create" [] ∅ in
  Handler.parseArgs host Handler.command (Server.request plain)
  = Handler.parseCommandMsgpackr host (Server.request plain)
  /\ Handler.parseArgs host Handler.command (Server.request bare)
     = Handler.parseCommandMsgpackr host (Server.request bare)
  /\ (exists r,
        Handler.handler host Samples.api None plain = inl r
        /\ Handler.r_status r = 201%Z
        /\ Handler.r_body r
           = Some (Handler.pack host (VObj [("success", VBool true)])))
  /\ (exists r,
        Handler.handler host Samples.api None bare = inl r
        /\ Handler.r_status r = 201%Z
        /\ Handler.r_body r
           = Some (Handler.pack host (VObj [("success", VBool true)]))).
Proof.
  cbn zeta. split; [reflexivity|]. split; [reflexivity|].
  split; eexists; (split; [vm_compute; reflexivity|]); split; reflexivity.
Qed.

(** * Further properties of the code *)

(** ** The string normalizer, beyond its examples *)

Section KebabMore.
Import Kebab.

Lemma dash_not_upper : is_upper dash = false.
Proof. reflexivity. Qed.

Lemma to_lower_not_upper (c : ascii) : is_upper (to_lower c) = false.
Proof.
  unfold to_lower. destruct (is_upper c) eqn:E; [|exact E].
  unfold is_upper, code in *.
  apply andb_true_iff in E as [E1 E2].
  apply Nat.leb_le in E1, E2.
  rewrite nat_ascii_embedding by lia.
  apply andb_false_iff. right. apply Nat.leb_gt. lia.
Qed.

Lemma to_lower_fixed (c : ascii) : is_upper c = false -> to_lower c = c.
Proof. unfold to_lower. intros ->. done. Qed.

Lemma string_list_round (l : list ascii) :
  list_ascii_of_string (string_of_list_ascii l) = l.
Proof. apply list_ascii_of_string_of_list_ascii. Qed.

(** Apart from the dashes, an insertion pass hands on what it was given. *)
Lemma spec_insert_without_dashes between (l : list ascii) :
  filter (fun c => c <> dash) (spec_insert between l)
  = filter (fun c => c <> dash) l.
Proof.
  induction l as [|a rest IH]; [done|]. cbn [spec_insert].
  destruct (between a rest).
  - rewrite !filter_cons. rewrite IH.
    destruct (decide (a <> dash)); destruct (decide (dash <> dash)); done.
  - rewrite !filter_cons, IH. done.
Qed.

Lemma spec_insert_length between (l : list ascii) :
  length l <= length (spec_insert between l).
Proof.
  induction l as [|a rest IH]; [done|]. cbn [spec_insert].
  destruct (between a rest); cbn [length]; lia.
Qed.

(** Lowercasing moves no dash and makes none. *)
Lemma to_lower_dash (c : ascii) : to_lower c = dash <-> c = dash.
Proof.
  split.
  - unfold to_lower. destruct (is_upper c) eqn:E; [|done].
    intros H. exfalso.
    unfold is_upper, code in *. apply andb_true_iff in E as [E1 E2].
    apply Nat.leb_le in E1, E2.
    apply (f_equal nat_of_ascii) in H.
    rewrite nat_ascii_embedding in H by lia.
    change (nat_of_ascii dash) with 45%nat in H. lia.
  - intros ->. reflexivity.
Qed.

Lemma toLowerCase_without_dashes (l : list ascii) :
  filter (fun c => c <> dash) (toLowerCase l)
  = toLowerCase (filter (fun c => c <> dash) l).
Proof.
  unfold toLowerCase. induction l as [|a rest IH]; [done|].
  cbn [map]. rewrite !filter_cons.
  destruct (decide (to_lower a <> dash)) as [H|H];
    destruct (decide (a <> dash)) as [H'|H']; cbn [map]; rewrite ?IH; try done.
  - exfalso. apply dec_stable in H'. subst a. by apply H.
  - exfalso. apply dec_stable in H. by apply H', to_lower_dash.
Qed.

(** A pass finds nothing to do where no uppercase letter is. *)
Lemma spec_pass1_no_upper (l : list ascii) :
  Forall (fun c => is_upper c = false) l -> spec_pass1 l = l.
Proof.
  unfold spec_pass1. induction 1 as [|a rest Ha Hrest IH]; [done|].
  cbn [spec_insert]. rewrite IH.
  destruct rest as [|b rest]; [done|]. cbn [dash_between1].
  apply Forall_cons in Hrest as [-> _]. rewrite andb_false_r. done.
Qed.

Lemma spec_pass2_no_upper (l : list ascii) :
  Forall (fun c => is_upper c = false) l -> spec_pass2 l = l.
Proof.
  unfold spec_pass2. induction 1 as [|a rest Ha Hrest IH]; [done|].
  cbn [spec_insert]. rewrite IH.
  destruct rest as [|b [|c rest]]; try done. cbn [dash_between2].
  rewrite Ha. done.
Qed.

Lemma toLowerCase_no_upper (l : list ascii) :
  Forall (fun c => is_upper c = false) l -> toLowerCase l = l.
Proof.
  unfold toLowerCase. induction 1 as [|a rest Ha _ IH]; [done|].
  cbn [map]. rewrite IH, to_lower_fixed; done.
Qed.

Lemma kebab_no_upper_fixed (l : list ascii) :
  Forall (fun c => is_upper c = false) l ->
  toLowerCase (pass2 (pass1 l)) = l.
Proof.
  intros H. rewrite pass1_spec, spec_pass1_no_upper by done.
  rewrite pass2_spec, spec_pass2_no_upper by done.
  by apply toLowerCase_no_upper.
Qed.

Lemma toLowerCase_free_of_upper (l : list ascii) :
  Forall (fun c => is_upper c = false) (toLowerCase l).
Proof.
  unfold toLowerCase. apply Forall_forall. intros c Hc.
  apply list_elem_of_fmap in Hc as (c' & -> & _). apply to_lower_not_upper.
Qed.

(** X1: The normalizer only lowercases letters and puts dashes in: with the
    dashes taken out again, its output is the lowercased input, character
    for character; it never drops, swaps or invents another character, and
    its output is never shorter than its input. *)
Theorem kebab_only_adds_dashes (s : string) :
  filter (fun c => c <> dash) (list_ascii_of_string (camelToKebabCase s))
  = toLowerCase (filter (fun c => c <> dash) (list_ascii_of_string s))
  /\ String.length s <= String.length (camelToKebabCase s).
Proof.
  unfold camelToKebabCase. rewrite string_list_round. split.
  - rewrite toLowerCase_without_dashes, pass2_spec, pass1_spec.
    unfold spec_pass2, spec_pass1. rewrite !spec_insert_without_dashes. done.
  - rewrite <- (string_list_round (toLowerCase _)) at 1.
    assert (forall l, String.length (string_of_list_ascii l) = length l) as Hlen.
    { induction l; cbn; auto. }
    rewrite <- (string_of_list_ascii_of_string s) at 1.
    rewrite !Hlen, string_list_round. unfold toLowerCase.
    rewrite length_map, pass2_spec, pass1_spec.
    etrans; [apply (spec_insert_length dash_between1)|].
    apply (spec_insert_length dash_between2).
Qed.

(** X2: No uppercase ASCII letter is left in a normalized name, and a
    normalized name is a fixed point: normalizing twice is normalizing
    once, so a route key can be normalized again without harm. *)
Theorem kebab_is_idempotent (s : string) :
  Forall (fun c => is_upper c = false)
         (list_ascii_of_string (camelToKebabCase s))
  /\ camelToKebabCase (camelToKebabCase s) = camelToKebabCase s.
Proof.
  assert (Forall (fun c => is_upper c = false)
                 (list_ascii_of_string (camelToKebabCase s))) as H.
  { unfold camelToKebabCase. rewrite string_list_round.
    apply toLowerCase_free_of_upper. }
  split; [exact H|].
  unfold camelToKebabCase at 1.
  rewrite (kebab_no_upper_fixed _ H).
  apply string_of_list_ascii_of_string.
Qed.

End KebabMore.

(** ** The route lookup *)

Section LookupMore.
Import Server Handler.
Variable host : Host.

(** Once the walk has left the objects of the definition it hands back
    nothing any more: it ends with [[undefined, []]] or throws. *)
Lemma find_loop_off_the_definition (path : list string) :
  forall (current : Current) (front : list ServerMiddleware)
         (n : ApiNode) (ms : list ServerMiddleware),
    (forall node, current <> Node node) ->
    find_loop host path current front <> inl (Some n, ms).
Proof.
  induction path as [|s rest IH]; intros current front n ms Hoff; [done|].
  cbn [find_loop].
  destruct current as [node|d| | |]; [by destruct (Hoff node)| | | |].
  - by destruct (schema_walk host d (s :: rest)).
  - cbn [get_property]. destruct (String.eqb s "__proto__"); [done|].
    destruct (existsb (String.eqb s) prototype_functions); [|done].
    cbn [getMiddlewares]. destruct rest as [|s' rest]; [done|].
    by apply IH.
  - done.
  - done.
Qed.

Lemma inherited_off_the_definition (s : string) (child : Current) :
  inherited s = Some child ->
  (forall node, child <> Node node)
  /\ getMiddlewares child = inl [].
Proof.
  unfold inherited. destruct (String.eqb s "__proto__"); [by intros [= <-]|].
  destruct (existsb (String.eqb s) prototype_functions); [by intros [= <-]|done].
Qed.

(** Where the loop of [findRpcMethodDescriptor] ends with a descriptor, the
    definition has that endpoint at the path. *)
Lemma find_loop_sound (path : list string) :
  forall (node : ApiNode) (front : list ServerMiddleware)
         (own : list ServerMiddleware) (d : Descriptor)
         (ms : list ServerMiddleware),
    find_loop host path (Node node) (front ++ own_middlewares node)
    = inl (Some (Endpoint own d), ms) ->
    exists below,
      spec_endpoint_at path node = Some (d, below) /\ ms = front ++ below.
Proof.
  induction path as [|s rest IH]; intros node front own d ms H; [done|].
  cbn [find_loop] in H.
  assert (forall child,
            (forall n, child <> Node n) -> getMiddlewares child = inl [] ->
            match getMiddlewares child with
            | inl below =>
                match rest with
                | [] =>
                    match child with
                    | Node n =>
                        if has_rpcType child
                        then inl (Some n, (front ++ own_middlewares node) ++ below)
                        else inl (None, [])
                    | _ => inl (None, [])
                    end
                | _ :: _ =>
                    find_loop host rest child
                      ((front ++ own_middlewares node) ++ below)
                end
            | inr e => inr e
            end <> inl (Some (Endpoint own d), ms)) as Hoff.
  { intros child Hchild ->. destruct rest as [|s' rest].
    - destruct child; try done. by destruct (Hchild n).
    - by apply find_loop_off_the_definition. }
  destruct node as [mws d'|mws children]; cbn [get_property] in H.
  - exfalso.
    destruct (String.eqb s "rpcType" || String.eqb s "implementation").
    { by apply (Hoff NonObject) in H. }
    destruct (String.eqb s "zodSchema" && bool_decide (is_Some (zodSchema d'))).
    { by apply (Hoff (SchemaObject d')) in H. }
    destruct (inherited s) as [child|] eqn:Hin; [|done].
    destruct (inherited_off_the_definition _ _ Hin) as [H1 H2].
    by apply (Hoff child) in H.
  - cbn [spec_endpoint_at].
    destruct (assoc_get s children) as [child|] eqn:Hchild.
    + cbn [getMiddlewares] in H. destruct rest as [|s' rest].
      * destruct child as [own' d'|mws' cs]; cbn [has_rpcType] in H.
        -- injection H as <- <- <-. cbn [spec_endpoint_at own_middlewares].
           exists (mws ++ own'). split; [done|]. cbn [own_middlewares].
           by rewrite <- app_assoc.
        -- by destruct (bool_decide _).
      * cbn [own_middlewares] in H. rewrite <- app_assoc in H.
        rewrite app_assoc in H.
        apply (IH child (front ++ mws)) in H as (below & -> & ->).
        exists (mws ++ below). by rewrite <- app_assoc.
    + exfalso. destruct (inherited s) as [child|] eqn:Hin; [|done].
      destruct (inherited_off_the_definition _ _ Hin) as [H1 H2].
      by apply (Hoff child) in H.
Qed.

(** X3: [findRpcMethodDescriptor] hands back the descriptor of an endpoint
    exactly at the endpoint's path: when the list of segments is not empty
    and the definition, read by the names of its own members, has the
    endpoint there; the middleware handed back is then that of the root,
    of every object on the way and of the endpoint, in that order.  No
    inherited member, no member of a descriptor and no schema object leads
    to one. *)
Theorem lookup_finds_an_endpoint_exactly_at_its_path (api : ApiNode)
        (segments : list string) (d : Descriptor)
        (ms : list ServerMiddleware) :
  (exists own,
      findRpcMethodDescriptor host segments api
      = inl (Some (Endpoint own d), ms))
  <-> segments <> [] /\ spec_endpoint_at segments api = Some (d, ms).
Proof.
  unfold findRpcMethodDescriptor. cbn [getMiddlewares]. split.
  - intros [own H]. split; [by destruct segments|].
    destruct (find_loop_sound segments api [] own d ms H) as (below & -> & ->).
    done.
  - intros [Hne H].
    apply (find_loop_endpoint_at host segments api [] d ms Hne H).
Qed.

End LookupMore.

Lemma lookup_finds_an_endpoint_exactly_at_its_path_witness :
  exists own,
    Handler.findRpcMethodDescriptor Samples.server_host ["posts"; "getById"]
      Samples.api
    = inl (Some (Handler.Endpoint own Samples.getById),
           map pass_through [Samples.marking]).
Proof.
  apply (lookup_finds_an_endpoint_exactly_at_its_path Samples.server_host
           Samples.api ["posts"; "getById"] Samples.getById
           (map pass_through [Samples.marking])).
  split; [discriminate | reflexivity].
Defined.

(** ** The executors on well-formed chains *)

Section PipelineMore.
Context {STATE : Type}.

Lemma execute_stages_then (stages : list (Stage STATE)) :
  forall (front : list (Middleware STATE)) (last : Middleware STATE)
         (rest : list (Middleware STATE)) state,
    (forall st n n', last st n = last st n') ->
    Pipeline.execute (front ++ map pass_through stages ++ last :: rest)
                     (length front) state
    = let '(state', r) :=
        last (run_before stages state)
             (fun st => (st, Rejected Pipeline.exhausted)) in
      (run_after stages state' r, r).
Proof.
  induction stages as [|g stages IH]; intros front last rest state Hlast;
    rewrite execute_unfold.
  - cbn [map app]. rewrite list_lookup_middle by done.
    rewrite (Hlast _ _ (fun st => (st, Rejected Pipeline.exhausted))).
    cbn [run_before run_after fold_left fold_right].
    destruct (last state _); done.
  - cbn [map app]. rewrite list_lookup_middle by done.
    unfold pass_through at 1.
    specialize (IH (front ++ [pass_through g]) last rest (before g state) Hlast).
    rewrite <- app_assoc, length_app in IH. cbn [app length] in IH.
    replace (length front + 1)%nat with (S (length front)) in IH by lia.
    rewrite IH. cbn [run_before run_after fold_left fold_right].
    destruct (last _ _); done.
Qed.

Lemma shift_stages_then (stages : list (Stage STATE)) :
  forall (last : Middleware STATE) (rest : list (Middleware STATE)) state,
    (forall st n n', last st n = last st n') ->
    PipelineShift.pipeline state (map pass_through stages ++ last :: rest)
    = let '(state', r) :=
        last (run_before stages state)
             (fun st => (st, Rejected Pipeline.exhausted)) in
      (run_after stages state' r, r).
Proof.
  induction stages as [|g stages IH]; intros last rest state Hlast;
    cbn [map app PipelineShift.pipeline].
  - rewrite (Hlast _ _ (fun st => (st, Rejected Pipeline.exhausted))).
    cbn [run_before run_after fold_left fold_right].
    destruct (last state _); done.
  - unfold pass_through at 1. rewrite IH by done.
    cbn [run_before run_after fold_left fold_right].
    destruct (last _ _); done.
Qed.

Lemma pipeline_stages_then (stages : list (Stage STATE))
      (last : Middleware STATE) (rest : list (Middleware STATE)) state :
  (forall st n n', last st n = last st n') ->
  Pipeline.pipeline state (map pass_through stages ++ last :: rest)
  = let '(state', r) :=
      last (run_before stages state)
           (fun st => (st, Rejected Pipeline.exhausted)) in
    (run_after stages state' r, r).
Proof. intros H. apply (execute_stages_then stages [] last rest state H). Qed.

(** X4: How a chain runs.  With pass-through middleware up to a stage that
    answers without calling [next], the work the middleware do before
    [next()] is done in the order of the chain, the answering stage runs on
    the state so prepared, the work after [next()] is done in the reverse
    order, and the answer is that of the answering stage; nothing that
    comes after the answering stage is run. *)
Theorem chain_runs_in_and_out (stages : list (Stage STATE))
        (last : Middleware STATE) (rest : list (Middleware STATE))
        (state : STATE) :
  (forall st n n', last st n = last st n') ->
  Pipeline.pipeline state (map pass_through stages ++ last :: rest)
  = (run_after stages
       (fst (last (run_before stages state)
                  (fun st => (st, Rejected Pipeline.exhausted))))
       (snd (last (run_before stages state)
                  (fun st => (st, Rejected Pipeline.exhausted)))),
     snd (last (run_before stages state)
               (fun st => (st, Rejected Pipeline.exhausted)))).
Proof.
  intros Hlast. rewrite pipeline_stages_then by done.
  destruct (last _ _); done.
Qed.

(** X5: On such a chain the two executors of [util/pipeline.ts] do the same:
    they differ only in the failure of a chain that runs out. *)
Theorem executors_agree_on_closed_chains (stages : list (Stage STATE))
        (last : Middleware STATE) (rest : list (Middleware STATE))
        (state : STATE) :
  (forall st n n', last st n = last st n') ->
  Pipeline.pipeline state (map pass_through stages ++ last :: rest)
  = PipelineShift.pipeline state (map pass_through stages ++ last :: rest).
Proof.
  intros Hlast. rewrite pipeline_stages_then by done.
  rewrite (shift_stages_then stages last rest state Hlast). done.
Qed.

End PipelineMore.

Lemma chain_runs_in_and_out_witness :
  Pipeline.pipeline 0%nat
    (map pass_through [Samples.counting] ++ MoreSamples.answering
       :: [pass_through Samples.counting])
  = (12%nat, Resolved VNull).
Proof.
  exact (chain_runs_in_and_out [Samples.counting] MoreSamples.answering
           [pass_through Samples.counting] 0%nat (fun _ _ _ => eq_refl)).
Defined.

Lemma executors_agree_on_closed_chains_witness :
  Pipeline.pipeline 0%nat
    (map pass_through [Samples.counting] ++ MoreSamples.answering
       :: [pass_through Samples.counting])
  = PipelineShift.pipeline 0%nat
      (map pass_through [Samples.counting] ++ MoreSamples.answering
         :: [pass_through Samples.counting]).
Proof.
  exact (executors_agree_on_closed_chains [Samples.counting]
           MoreSamples.answering [pass_through Samples.counting] 0%nat
           (fun _ _ _ => eq_refl)).
Defined.

(** ** The dispatcher, request by request *)

Section DispatcherMore.
Import Server Handler.
Variable host : Host.

Lemma new_Response_inl (body : option string) (text : bool) (h : Headers)
      (code : Z) (r : Response) :
  new_Response body text h code = inl r ->
  r_status r = unsigned_short code /\ r_body r = body
  /\ (200 <= r_status r <= 599)%Z.
Proof.
  unfold new_Response. cbv zeta.
  destruct ((200 <=? unsigned_short code)%Z && (unsigned_short code <=? 599)%Z)
    eqn:Hr; [|done].
  cbn [negb]. destruct (bool_decide (is_Some body) && _); [done|].
  intros [= <-]. cbn [r_status r_body]. apply andb_true_iff in Hr as [H1 H2].
  apply Z.leb_le in H1, H2. repeat split; lia.
Qed.

Lemma text_response_inl (message : string) (code : Z) :
  (200 <= code <= 599)%Z -> code <> 204%Z -> code <> 205%Z -> code <> 304%Z ->
  text_response message code
  = inl {| r_status := code;
           r_headers := headers_set "Content-Type" "text/plain;charset=UTF-8" ∅;
           r_body := Some message |}.
Proof.
  intros Hr H1 H2 H3. unfold text_response, new_Response, unsigned_short.
  rewrite Z.mod_small by lia. cbv zeta.
  replace ((200 <=? code)%Z && (code <=? 599)%Z) with true
    by (symmetry; apply andb_true_iff; split; apply Z.leb_le; lia).
  replace ((code =? 204)%Z || (code =? 205)%Z || (code =? 304)%Z) with false
    by (symmetry; rewrite !orb_false_iff; repeat split; apply Z.eqb_neq; done).
  rewrite andb_false_r. cbn [negb]. unfold headers_get. rewrite lookup_empty.
  done.
Qed.

(** The answers [route] gives by itself are the four plain-text ones;
    the failures it lets out are those of the lookup and of the
    conversion of an [rpcType] that is an object. *)
Lemma route_answers (api : ApiNode) (ev : RequestEvent) (x : Response + exn) :
  route host api ev = Answer x ->
  (exists message code,
      x = text_response message code /\ code ∈ [405; 404; 400; 500]%Z)
  \/ (exists e path,
        x = inr e /\ params_path ev = Some path /\ path <> ""
        /\ (findRpcMethodDescriptor host (split_on "/" path) api = inr e
            \/ exists mws children ms,
                 findRpcMethodDescriptor host (split_on "/" path) api
                 = inl (Some (Group mws children), ms)
                 /\ member_text (assoc_get "rpcType" children) = inr e)).
Proof.
  unfold route. intros H.
  destruct (negb (list_includes (method (request ev)) acceptedMethods)).
  { injection H as <-. left. do 2 eexists. split; [reflexivity|]. set_solver. }
  destruct (params_path ev) as [path|]; cycle 1.
  { injection H as <-. left. do 2 eexists. split; [reflexivity|]. set_solver. }
  destruct (String.eqb_spec path "") as [E|Hne].
  { injection H as <-. left. do 2 eexists. split; [reflexivity|]. set_solver. }
  destruct (findRpcMethodDescriptor host (split_on "/" path) api)
    as [[[[own d|mws children]|] ms]|e] eqn:Hfind.
  - destruct (negb (list_includes _ acceptedRequests)).
    { injection H as <-. left. do 2 eexists. split; [reflexivity|]. set_solver. }
    destruct (parseArgs host (rpcType d) (request ev)) as [a|[]]; try done;
      injection H as <-; left; do 2 eexists; (split; [reflexivity|]); set_solver.
  - destruct (member_text (assoc_get "rpcType" children)) as [text|e] eqn:Ht.
    + injection H as <-. left. do 2 eexists. split; [reflexivity|]. set_solver.
    + injection H as <-. right. exists e, path. split; [done|].
      split; [done|]. split; [done|]. right. eauto.
  - injection H as <-. left. do 2 eexists. split; [reflexivity|]. set_solver.
  - injection H as <-. right. exists e, path. eauto.
Qed.

(** X6: The handler fails only in the lookup.  When it answers, the status
    of the response is between 200 and 599, whatever the request, the
    middleware and the implementation do (their failures are answered
    500; the context constructor and the two serializers are taken to
    return).  When it lets a failure out, the failure is that of
    [findRpcMethodDescriptor] on the path of the request, or that of the
    conversion to a string of an [rpcType] that is an object.  And the
    lookup does fail: on every definition without a member of its own
    named [__proto__], a GET or POST request for the path
    [__proto__/__proto__] makes the handler throw a [TypeError], since
    the walk reaches [null]. *)
Theorem handler_fails_only_in_the_lookup (api : ApiNode)
        (options : option (value -> RequestEvent -> ServerContext))
        (ev : RequestEvent) :
  (forall r, handler host api options ev = inl r ->
             (200 <= r_status r <= 599)%Z)
  /\ (forall e,
        handler host api options ev = inr e ->
        exists path,
          params_path ev = Some path /\ path <> ""
          /\ (findRpcMethodDescriptor host (split_on "/" path) api = inr e
              \/ exists mws children ms,
                   findRpcMethodDescriptor host (split_on "/" path) api
                   = inl (Some (Group mws children), ms)
                   /\ member_text (assoc_get "rpcType" children) = inr e))
  /\ (list_includes (method (request ev)) acceptedMethods = true ->
      params_path ev = Some "__proto__/__proto__" ->
      match api with
      | Group _ children => assoc_get "__proto__" children = None
      | Endpoint _ _ => True
      end ->
      handler host api options ev
      = inr (TypeError "Cannot read properties of null")).
Proof.
  assert (forall message code, code ∈ [405; 404; 400; 500]%Z ->
            exists r, text_response message code = inl r
                      /\ (200 <= r_status r <= 599)%Z) as Htext.
  { intros message code Hc.
    rewrite text_response_inl; [eexists; split; [reflexivity|]; cbn|..];
      set_unfold; lia. }
  assert (exists x, handler host api options ev = x
                    /\ ((exists r, x = inl r /\ (200 <= r_status r <= 599)%Z)
                        \/ exists e path,
                             x = inr e /\ params_path ev = Some path /\ path <> ""
                             /\ (findRpcMethodDescriptor host (split_on "/" path) api
                                 = inr e
                                 \/ exists mws children ms,
                                      findRpcMethodDescriptor host
                                        (split_on "/" path) api
                                      = inl (Some (Group mws children), ms)
                                      /\ member_text (assoc_get "rpcType" children)
                                         = inr e))) as (x & Hx & Hcases).
  { unfold handler. destruct (route host api ev) as [x|d mws a] eqn:Hroute.
    - exists x. split; [done|].
      destruct (route_answers _ _ _ Hroute)
        as [(message & code & -> & Hc)|(e & path & -> & H)].
      + left. by apply Htext.
      + right. eauto.
    - eexists. split; [reflexivity|]. left. unfold respond.
      destruct (Pipeline.pipeline _ _) as [left [result|e]] eqn:Hrun.
      + destruct (makeResponse host result left) as [r|e] eqn:Hr.
        * exists r. split; [done|].
          by apply new_Response_inl in Hr as (_ & _ & ?).
        * apply Htext. set_solver.
      + destruct e; try (apply Htext; set_solver).
        destruct (respond_on_ZodError host _ d mws a ev left issues Hrun)
          as (r & Hr & Hs & _).
        unfold respond in Hr. rewrite Hrun in Hr.
        exists r. split; [exact Hr|]. rewrite Hs. lia. }
  split; [|split].
  - intros r Hr. rewrite Hr in Hx. subst x.
    destruct Hcases as [(r' & [= <-] & H)|(e & path & [=] & _)]. exact H.
  - intros e He. rewrite He in Hx. subst x.
    destruct Hcases as [(r' & [=] & _)|(e' & path & [= <-] & H)]. eauto.
  - intros Hm Hp Hown. unfold handler, route. rewrite Hm, Hp. cbn [negb].
    change (String.eqb "__proto__/__proto__" "") with false. cbv iota.
    replace (findRpcMethodDescriptor host (split_on "/" "__proto__/__proto__") api)
      with (inr (A := option ApiNode * list ServerMiddleware)
                (TypeError "Cannot read properties of null")); [done|].
    change (split_on "/" "__proto__/__proto__") with ["__proto__"; "__proto__"].
    unfold findRpcMethodDescriptor. cbn [getMiddlewares find_loop].
    destruct api as [mws d|mws children]; cbn [get_property].
    + reflexivity.
    + rewrite Hown. reflexivity.
Qed.

(** X7: The implementation is behind three gates: a request goes on to the
    context, the middleware and the implementation only if its method and
    the rpc type of the endpoint are GET with query, GET with get, or POST
    with command, its path (split at the slashes) resolved to that
    endpoint, and its arguments were parsed. *)
Theorem implementation_is_behind_the_gates (api : ApiNode)
        (ev : RequestEvent) (d : Descriptor)
        (middlewares : list ServerMiddleware) (a : value) :
  route host api ev = Routed d middlewares a ->
  ((method (request ev) = "GET" /\ (rpcType d = query \/ rpcType d = get))
   \/ (method (request ev) = "POST" /\ rpcType d = command))
  /\ (exists path own,
        params_path ev = Some path /\ path <> ""
        /\ findRpcMethodDescriptor host (split_on "/" path) api
           = inl (Some (Endpoint own d), middlewares))
  /\ parseArgs host (rpcType d) (request ev) = inl a.
Proof.
  unfold route. intros H.
  destruct (list_includes (method (request ev)) acceptedMethods) eqn:Hm;
    [|done]. cbn [negb] in H.
  destruct (params_path ev) as [path|]; [|done].
  destruct (String.eqb_spec path "") as [E|Hne]; [done|].
  destruct (findRpcMethodDescriptor host (split_on "/" path) api)
    as [[[[own d'|mws' children]|] mws]|e] eqn:Hfind; [| |done|done];
    cycle 1.
  { by destruct (member_text _). }
  destruct (list_includes _ acceptedRequests) eqn:Hpair; [|done].
  cbn [negb] in H.
  destruct (parseArgs host (rpcType d') (request ev)) as [a'|e] eqn:Hparse;
    [|destruct e; done].
  injection H as -> -> ->.
  split; [|split; [eauto|done]].
  assert (method (request ev) = "GET" \/ method (request ev) = "POST") as Hmeth.
  { unfold list_includes, acceptedMethods in Hm. cbn [existsb] in Hm.
    rewrite orb_false_r in Hm. apply orb_true_iff in Hm.
    destruct Hm as [Hm|Hm]; apply String.eqb_eq in Hm; auto. }
  destruct Hmeth as [E|E]; rewrite E in Hpair |- *;
    destruct (rpcType d); vm_compute in Hpair; try discriminate; auto.
Qed.

(** *** The parsers *)

Lemma assoc_get_app {A} (k : string) (l1 l2 : list (string * A)) :
  assoc_get k (l1 ++ l2)
  = match assoc_get k l1 with
    | Some x => Some x
    | None => assoc_get k l2
    end.
Proof.
  induction l1 as [|[k' x] l1 IH]; [done|]. cbn [app assoc_get].
  destruct (String.eqb k' k); [done | exact IH].
Qed.

Lemma parseGet_fold (url : list (string * string)) :
  forall (acc : list (string * value)) (k : string),
    NoDup acc.*1 ->
    let fields :=
      fold_left
        (fun a kv =>
           if String.eqb (fst kv) "__proto__" then a
           else assoc_set (fst kv) (VStr (snd kv)) a) url acc in
    NoDup fields.*1
    /\ (k <> "__proto__" ->
        assoc_get k fields
        = match assoc_get k (reverse url) with
          | Some s => Some (VStr s)
          | None => assoc_get k acc
          end).
Proof.
  induction url as [|[k0 s0] url IH]; intros acc k Hacc; cbn zeta.
  - done.
  - cbn [fold_left fst snd].
    destruct (String.eqb_spec k0 "__proto__") as [->|Hk0].
    + destruct (IH acc k Hacc) as [Hnd Hget]. split; [exact Hnd|].
      intros Hk. rewrite (Hget Hk), reverse_cons, assoc_get_app.
      destruct (assoc_get k (reverse url)); [done|]. cbn [assoc_get].
      destruct (String.eqb_spec "__proto__" k); [congruence|done].
    + destruct (IH (assoc_set k0 (VStr s0) acc) k (assoc_set_NoDup _ _ _ Hacc))
        as [Hnd Hget].
      split; [exact Hnd|]. intros Hk.
      rewrite (Hget Hk), reverse_cons, assoc_get_app.
      destruct (assoc_get k (reverse url)); [done|]. cbn [assoc_get].
      destruct (String.eqb_spec k0 k) as [->|Hne].
      * apply assoc_get_set_eq.
      * by apply assoc_get_set_ne.
Qed.

(** X8: The arguments of a [get] endpoint are the search parameters as plain
    strings, one property per name; of a name that comes several times the
    last value is the one kept, and a name that does not come is not a
    property.  (The name [__proto__], which a JS object does not take as a
    property by assignment, is left aside.) *)
Theorem parseGet_keeps_the_last_value (url : list (string * string)) :
  exists fields,
    parseGet url = inl (VObj fields)
    /\ NoDup fields.*1
    /\ forall k, k <> "__proto__" ->
                 assoc_get k fields = VStr <$> assoc_get k (reverse url).
Proof.
  unfold parseGet. eexists. split; [reflexivity|].
  split.
  - apply (parseGet_fold url [] "" (NoDup_nil_2)).
  - intros k Hk. destruct (parseGet_fold url [] k (NoDup_nil_2)) as [_ ->];
      [|exact Hk].
    destruct (assoc_get k (reverse url)); done.
Qed.

Lemma or_empty_truthy (v : value) : truthy (or_empty v) = true.
Proof. unfold or_empty. destruct (truthy v) eqn:E; done. Qed.

Lemma assign_truthy (key : string) (v target a : value) :
  truthy target = true -> assign key v target = inl a -> truthy a = true.
Proof.
  intros Ht. unfold assign. destruct (String.eqb key "__proto__").
  - by intros [= <-].
  - destruct target; cbn; intros [= <-]; done.
Qed.

Lemma augment_truthy (form : list (string * FormEntry)) (keys : list string) :
  forall (x : value + exn) (a : value),
    (forall a0, x = inl a0 -> truthy a0 = true) ->
    fold_left (augment form) keys x = inl a -> truthy a = true.
Proof.
  induction keys as [|key keys IH]; intros x a Hx H; cbn [fold_left] in H.
  - by apply Hx.
  - apply (IH _ a) in H; [done|].
    intros a0. unfold augment. destruct x as [a1|e]; [|done].
    destruct (String.eqb key "args"); [intros [= <-]; by apply Hx|].
    destruct (ends_with_brackets key); [by apply assign_truthy, Hx|].
    destruct (assoc_get key form); by apply assign_truthy, Hx.
Qed.

(** X9: The arguments a [command] or a [get] endpoint is given are never
    [undefined], [null], [false], [0] or the empty string: an empty body
    and a body that decodes to such a value both give the empty object.
    (For a [query] the decoded value is handed on as it is.) *)
Theorem command_arguments_are_never_falsy (t : RpcType) (req : Request)
        (a : value) :
  t <> query ->
  parseArgs host t req = inl a ->
  truthy a = true.
Proof.
  intros Ht. destruct t; [done| |]; cbn [parseArgs].
  - destruct (includes "multipart/form-data" _).
    + unfold parseCommandMultipartFormData.
      destruct (formData req) as [form|]; [|done].
      apply augment_truthy. intros a0.
      destruct (assoc_get "args" form) as [[s|name type content]|];
        try (intros [= <-]; done).
      destruct (String.eqb type "application/json").
      { destruct (JSON_parse host content); [|done].
        intros [= <-]. apply or_empty_truthy. }
      destruct (String.eqb type "application/msgpack"); [|done].
      destruct (unpack host content); [|done].
      intros [= <-]. apply or_empty_truthy.
    + destruct (includes "application/json" _).
      * unfold parseCommandJson. destruct (negb _); [|by intros [= <-]].
        destruct (JSON_parse host (body req)); [|done].
        intros [= <-]. apply or_empty_truthy.
      * unfold parseCommandMsgpackr. destruct (_ <? _)%nat; [|by intros [= <-]].
        destruct (unpack host (body req)); [|done].
        intros [= <-]. apply or_empty_truthy.
  - unfold parseGet. intros [= <-]. done.
Qed.



(** *** The response *)

(** What [makeResponse] builds when the status of the context can be sent
    with a body. *)
Lemma makeResponse_built (result : value) (ctx : ServerContext) :
  (200 <= status.get ctx <= 599)%Z ->
  status.get ctx <> 204%Z -> status.get ctx <> 205%Z ->
  status.get ctx <> 304%Z ->
  makeResponse host result ctx
  = inl {| r_status := status.get ctx;
           r_headers :=
             (if String.eqb (method (request (event ctx))) "GET"
                 && negb (cache.get ctx =? 0)%Z
              then headers_set "Cache-Control"
                     ("public, max-age=" +:+ Number_toString host (cache.get ctx))
              else fun h => h)
               (headers_set "Content-Type"
                  (if prefersJson ctx then "application/json"
                   else "application/msgpack")
                  (headers_set "X-Tango-Execution-Time"
                     (elapsed_text host (start ctx)) (headers_response ctx)));
           r_body := serialize host (prefersJson ctx) result |}.
Proof.
  intros Hr H1 H2 H3. unfold makeResponse.
  unfold cache.get, status.get, response_header_set,
    with_headers_response, prefersJson in *.
  cbn [_cache _status headers_response event start].
  destruct (String.eqb (method (request (event ctx))) "GET"
            && negb (_cache ctx =? 0)%Z);
    cbn [_cache _status headers_response event start];
    (rewrite (new_Response_ok _ _ _ _
                (if match headers_get "Accept" (headers (request (event ctx))) with
                    | Some a0 => includes "application/json" a0
                    | None => false
                    end
                 then "application/json" else "application/msgpack"));
     [done|done|done|done|done|
      rewrite ?headers_get_set_ne by (vm_compute; discriminate);
      by apply headers_get_set_eq]).
Qed.

(** X11: What [makeResponse] builds when the status of the context can be
    sent with a body: the status of the context; the result as JSON when
    the request's [Accept] names [application/json] and as MessagePack
    otherwise, with the matching [Content-Type]; the elapsed time as the
    host prints it; a [Cache-Control] of its own exactly when the method
    is GET and the cache directive is not zero, the seconds printed as
    their decimal digits when they are a safe integer; and untouched,
    every other header the middleware and the implementation put on the
    context. *)
Theorem makeResponse_headers (result : value) (ctx : ServerContext) :
  (200 <= status.get ctx <= 599)%Z ->
  status.get ctx <> 204%Z -> status.get ctx <> 205%Z ->
  status.get ctx <> 304%Z ->
  exists r,
    makeResponse host result ctx = inl r
    /\ r_status r = status.get ctx
    /\ r_body r
       = match headers_get "Accept" (headers (request (event ctx))) with
         | Some accept =>
             if includes "application/json" accept
             then JSON_stringify host result
             else Some (pack host result)
         | None => Some (pack host result)
         end
    /\ headers_get "Content-Type" (r_headers r)
       = match headers_get "Accept" (headers (request (event ctx))) with
         | Some accept =>
             if includes "application/json" accept
             then Some "application/json" else Some "application/msgpack"
         | None => Some "application/msgpack"
         end
    /\ headers_get "X-Tango-Execution-Time" (r_headers r)
       = Some (elapsed_text host (start ctx))
    /\ headers_get "Cache-Control" (r_headers r)
       = (if String.eqb (method (request (event ctx))) "GET"
             && negb (cache.get ctx =? 0)%Z
          then Some ("public, max-age=" +:+
                     if (Z.abs (cache.get ctx) <=? 9007199254740992)%Z
                     then pretty (cache.get ctx)
                     else number_text host (cache.get ctx))
          else headers_get "Cache-Control" (headers_response ctx))
    /\ (forall name,
          lowercase name ∉ ["x-tango-execution-time"; "content-type";
                            "cache-control"] ->
          headers_get name (r_headers r)
          = headers_get name (headers_response ctx)).
Proof.
  intros Hr H1 H2 H3. rewrite (makeResponse_built result ctx Hr H1 H2 H3).
  eexists. split; [reflexivity|]. cbn [r_status r_headers r_body].
  assert (forall name name' v (h : Headers),
            lowercase name ∉ ["x-tango-execution-time"; "content-type";
                              "cache-control"] ->
            lowercase name' ∈ ["x-tango-execution-time"; "content-type";
                               "cache-control"] ->
            headers_get name (headers_set name' v h) = headers_get name h)
    as Hother.
  { intros name name' v h Hout Hin. apply headers_get_set_ne.
    intros E. apply Hout. by rewrite E. }
  split; [done|]. split; [|split; [|split; [|split]]].
  - unfold serialize, prefersJson.
    destruct (headers_get "Accept" _) as [accept|]; [|done].
    by destruct (includes "application/json" accept).
  - assert (headers_get "Content-Type"
              ((if String.eqb (method (request (event ctx))) "GET"
                   && negb (cache.get ctx =? 0)%Z
                then headers_set "Cache-Control"
                       ("public, max-age=" +:+ Number_toString host (cache.get ctx))
                else fun h => h)
                 (headers_set "Content-Type"
                    (if prefersJson ctx then "application/json"
                     else "application/msgpack")
                    (headers_set "X-Tango-Execution-Time"
                       (elapsed_text host (start ctx)) (headers_response ctx))))
            = Some (if prefersJson ctx then "application/json"
                    else "application/msgpack")) as ->.
    { destruct (_ && _).
      - rewrite headers_get_set_ne by (vm_compute; discriminate).
        by apply headers_get_set_eq.
      - by apply headers_get_set_eq. }
    unfold prefersJson.
    destruct (headers_get "Accept" _) as [accept|]; [|done].
    by destruct (includes "application/json" accept).
  - destruct (_ && _).
    + rewrite !headers_get_set_ne by (vm_compute; discriminate).
      by apply headers_get_set_eq.
    + rewrite headers_get_set_ne by (vm_compute; discriminate).
      by apply headers_get_set_eq.
  - unfold Number_toString. destruct (_ && _).
    + by rewrite (headers_get_set_eq "Cache-Control" "Cache-Control").
    + rewrite !headers_get_set_ne by (vm_compute; discriminate). done.
  - intros name Hname. destruct (_ && _).
    + rewrite !Hother by (first [exact Hname | vm_compute; set_solver]). done.
    + rewrite !Hother by (first [exact Hname | vm_compute; set_solver]). done.
Qed.

(** [makeResponse] ends in [new Response] with the status of the
    context. *)
Lemma makeResponse_new_Response (result : value) (ctx : ServerContext) :
  exists h,
    makeResponse host result ctx
    = new_Response (serialize host (prefersJson ctx) result) (prefersJson ctx)
                   h (status.get ctx).
Proof.
  unfold makeResponse.
  destruct (String.eqb _ "GET" && negb (_ =? 0)%Z); eexists; reflexivity.
Qed.

(** X12: A status that cannot be sent with a body turns a success into a
    500.  The serialized result is the body, and the status is sent as an
    unsigned short, which is the status modulo 2^16; when that is
    below 200 (the shortcuts [continue], [switchingProtocols],
    [processing]) or above 599, or is one of 204, 205 and 304
    ([noContent], [resetContent], [notModified]) while there is a body,
    building the response fails, and the handler answers
    "Internal server error". *)
Theorem unsendable_status_is_answered_500
        (createServerContext : value -> RequestEvent -> ServerContext)
        (d : Descriptor) (middlewares : list ServerMiddleware) (a : value)
        (ev : RequestEvent) (left : ServerContext) (result : value) :
  Pipeline.pipeline (createServerContext a ev) (middlewares ++ [terminal d])
  = (left, Resolved result) ->
  let converted := (status.get left mod 65536)%Z in
  (converted < 200)%Z \/ (599 < converted)%Z
  \/ (converted ∈ [204; 205; 304]%Z
      /\ is_Some
           match headers_get "Accept" (headers (request (event left))) with
           | Some accept =>
               if includes "application/json" accept
               then JSON_stringify host result
               else Some (pack host result)
           | None => Some (pack host result)
           end) ->
  respond host createServerContext d middlewares a ev
  = text_response "Internal server error" 500.
Proof.
  cbn zeta. intros Hrun Hs. unfold respond. rewrite Hrun.
  destruct (makeResponse host result left) as [r|e] eqn:Hr; [|done].
  exfalso. destruct (makeResponse_new_Response result left) as [h Hn].
  rewrite Hn in Hr. unfold new_Response, unsigned_short in Hr. cbv zeta in Hr.
  destruct ((200 <=? status.get left mod 65536)%Z
            && (status.get left mod 65536 <=? 599)%Z) eqn:Hrange; [|done].
  apply andb_true_iff in Hrange as [R1 R2]. apply Z.leb_le in R1, R2.
  destruct Hs as [Hs|[Hs|[Hs Hbody]]]; [lia|lia|].
  cbn [negb] in Hr.
  assert (is_Some (serialize host (prefersJson left) result)) as Hbody'.
  { unfold serialize, prefersJson.
    destruct (headers_get "Accept" _) as [accept|]; [|done].
    by destruct (includes "application/json" accept). }
  rewrite bool_decide_eq_true_2 in Hr by exact Hbody'.
  replace ((status.get left mod 65536 =? 204)%Z
           || (status.get left mod 65536 =? 205)%Z
           || (status.get left mod 65536 =? 304)%Z) with true in Hr; [done|].
  symmetry. rewrite !orb_true_iff, !Z.eqb_eq. set_unfold in Hs. tauto.
Qed.

(** X13: The successful request.  With a chain of pass-through middleware, the
    implementation runs on the context as the middleware prepared it, root
    first, and is given what the schema made of the arguments (the
    arguments themselves where there is no schema); its result, whatever
    the status and headers it and the middleware left on the context, is
    what [makeResponse] is given. *)
Theorem successful_request_is_answered_with_the_result
        (createServerContext : value -> RequestEvent -> ServerContext)
        (d : Descriptor) (stages : list (Stage ServerContext)) (a : value)
        (ev : RequestEvent) (parsed result : value) (after_it : ServerContext) :
  let reached := run_before stages (createServerContext a ev) in
  match zodSchema d with
  | Some parse => parse (getArgs reached)
  | None => inl (getArgs reached)
  end = inl parsed ->
  implementation d parsed reached = (after_it, Resolved result) ->
  respond host createServerContext d (map pass_through stages) a ev
  = match makeResponse host result
            (run_after stages after_it (Resolved result)) with
    | inl r => inl r
    | inr _ => text_response "Internal server error" 500
    end.
Proof.
  cbn zeta. intros Hparse Himpl. unfold respond.
  rewrite pipeline_stages by apply terminal_ignores_next.
  unfold terminal.
  destruct (zodSchema d) as [parse|].
  - rewrite Hparse, Himpl. done.
  - injection Hparse as <-. rewrite Himpl. done.
Qed.

(** X14: A middleware that answers without calling [next] keeps the request
    from the implementation: when the chain is pass-through middleware up
    to such a one, the implementation and whatever middleware comes after
    it are not run, and the response is made from that middleware's
    answer. *)
Theorem refusing_middleware_keeps_the_implementation_out
        (createServerContext : value -> RequestEvent -> ServerContext)
        (d d' : Descriptor) (stages : list (Stage ServerContext))
        (refuse : ServerMiddleware) (later later' : list ServerMiddleware)
        (a : value) (ev : RequestEvent) :
  (forall st n n', refuse st n = refuse st n') ->
  respond host createServerContext d
          (map pass_through stages ++ refuse :: later) a ev
  = respond host createServerContext d'
            (map pass_through stages ++ refuse :: later') a ev.
Proof.
  intros Hrefuse. unfold respond.
  assert (forall (rest : list ServerMiddleware),
            Pipeline.pipeline (createServerContext a ev)
              (map pass_through stages ++ refuse :: rest)
            = Pipeline.pipeline (createServerContext a ev)
                (map pass_through stages ++ [refuse])) as Hcut.
  { intros rest. rewrite !pipeline_stages_then by done. reflexivity. }
  rewrite <- !app_assoc. cbn [app].
  rewrite (Hcut (later ++ [terminal d])), (Hcut (later' ++ [terminal d'])).
  done.
Qed.

End DispatcherMore.

Section DispatcherWitnesses.
Import Server Handler.

Lemma handler_fails_only_in_the_lookup_witness :
  handler Samples.server_host Samples.api None
    (Samples.request_to "GET" "__proto__/__proto__" [] ∅)
  = inr (TypeError "Cannot read properties of null").
Proof.
  apply (handler_fails_only_in_the_lookup Samples.server_host Samples.api None
           (Samples.request_to "GET" "__proto__/__proto__" [] ∅));
    reflexivity.
Defined.

Lemma implementation_is_behind_the_gates_witness :
  route Samples.server_host Samples.api
    (Samples.request_to "GET" "users/getProfile" [] ∅)
  = Routed Samples.getProfile [] (VObj [])
  /\ exists own,
       findRpcMethodDescriptor Samples.server_host
         (split_on "/" "users/getProfile") Samples.api
       = inl (Some (Endpoint own Samples.getProfile), []).
Proof.
  assert (route Samples.server_host Samples.api
            (Samples.request_to "GET" "users/getProfile" [] ∅)
          = Routed Samples.getProfile [] (VObj [])) as H
      by (vm_compute; reflexivity).
  split; [exact H|].
  destruct (implementation_is_behind_the_gates Samples.server_host Samples.api
              _ _ _ _ H) as (_ & (path & own & Hp & _ & Hfind) & _).
  injection Hp as <-. exists own. exact Hfind.
Defined.

Lemma command_arguments_are_never_falsy_witness :
  parseArgs MoreSamples.null_host command
    (request (MoreSamples.post_to "posts/create" "application/msgpack" "x"))
  = inl (VObj [])
  /\ truthy (VObj []) = true.
Proof.
  assert (parseArgs MoreSamples.null_host command
            (request (MoreSamples.post_to "posts/create" "application/msgpack" "x"))
          = inl (VObj [])) as H by (vm_compute; reflexivity).
  split; [exact H|].
  apply (command_arguments_are_never_falsy MoreSamples.null_host command
           (request (MoreSamples.post_to "posts/create" "application/msgpack" "x"))
           (VObj [])); [discriminate | exact H].
Defined.


Lemma makeResponse_headers_witness :
  exists r,
    makeResponse Samples.server_host (VStr "x") Samples.fresh_context = inl r
    /\ r_status r = 200%Z
    /\ headers_get "Content-Type" (r_headers r) = Some "application/msgpack"
    /\ headers_get "Cache-Control" (r_headers r) = None.
Proof.
  destruct (makeResponse_headers Samples.server_host (VStr "x")
              Samples.fresh_context)
    as (r & Hr & Hs & _ & Hct & _ & Hcc & _).
  - vm_compute. split; discriminate.
  - vm_compute. discriminate.
  - vm_compute. discriminate.
  - vm_compute. discriminate.
  - exists r. split; [exact Hr|]. split; [exact Hs|]. split; [exact Hct|].
    rewrite Hcc. vm_compute. reflexivity.
Defined.

Lemma unsendable_status_is_answered_500_witness :
  Pipeline.pipeline
    (default_createServerContext Samples.server_host (VObj [])
       (MoreSamples.post_to "posts/remove" "application/msgpack" ""))
    ([] ++ [terminal MoreSamples.remove])
  = (status.call status.noContent
       (default_createServerContext Samples.server_host (VObj [])
          (MoreSamples.post_to "posts/remove" "application/msgpack" "")),
     Resolved VNull)
  /\ respond Samples.server_host
       (default_createServerContext Samples.server_host) MoreSamples.remove []
       (VObj []) (MoreSamples.post_to "posts/remove" "application/msgpack" "")
     = text_response "Internal server error" 500.
Proof.
  assert (Pipeline.pipeline
            (default_createServerContext Samples.server_host (VObj [])
               (MoreSamples.post_to "posts/remove" "application/msgpack" ""))
            ([] ++ [terminal MoreSamples.remove])
          = (status.call status.noContent
               (default_createServerContext Samples.server_host (VObj [])
                  (MoreSamples.post_to "posts/remove" "application/msgpack" "")),
             Resolved VNull)) as H by (vm_compute; reflexivity).
  split; [exact H|].
  apply (unsendable_status_is_answered_500 Samples.server_host _ _ _ _ _ _ _ H).
  right. right. split; [vm_compute; set_solver | by eexists].
Defined.

Lemma successful_request_is_answered_with_the_result_witness :
  exists r,
    respond Samples.server_host
      (default_createServerContext Samples.server_host) Samples.create
      (map pass_through [Samples.marking]) (VObj [])
      (MoreSamples.post_to "posts/create" "application/msgpack" "") = inl r
    /\ r_status r = 201%Z
    /\ r_body r = Some "m"
    /\ headers_get "X-Seen" (r_headers r) = Some "posts".
Proof.
  rewrite (successful_request_is_answered_with_the_result Samples.server_host
             (default_createServerContext Samples.server_host) Samples.create
             [Samples.marking] (VObj [])
             (MoreSamples.post_to "posts/create" "application/msgpack" "")
             (VObj []) (VObj [("success", VBool true)])
             (status.call status.created
                (run_before [Samples.marking]
                   (default_createServerContext Samples.server_host (VObj [])
                      (MoreSamples.post_to "posts/create" "application/msgpack" "")))));
    [|vm_compute; reflexivity|vm_compute; reflexivity].
  eexists. split; [vm_compute; reflexivity|]. vm_compute. done.
Defined.

Lemma refusing_middleware_keeps_the_implementation_out_witness :
  respond Samples.server_host
    (default_createServerContext Samples.server_host) Samples.create
    (map pass_through [Samples.marking] ++ MoreSamples.refusing :: [])
    (VObj []) (MoreSamples.post_to "posts/create" "application/msgpack" "")
  = respond Samples.server_host
      (default_createServerContext Samples.server_host) MoreSamples.remove
      (map pass_through [Samples.marking] ++ MoreSamples.refusing
         :: [pass_through Samples.marking])
      (VObj []) (MoreSamples.post_to "posts/create" "application/msgpack" "").
Proof.
  exact (refusing_middleware_keeps_the_implementation_out Samples.server_host
           (default_createServerContext Samples.server_host)
           Samples.create MoreSamples.remove [Samples.marking]
           MoreSamples.refusing [] [pass_through Samples.marking] (VObj [])
           (MoreSamples.post_to "posts/create" "application/msgpack" "")
           (fun _ _ _ => eq_refl)).
Defined.

End DispatcherWitnesses.

(** ** The transport, request by request *)

Section TransportMore.
Import Client.
Variable host : Host.
Variable baseUrl : string.

Lemma strip_trailing_eq_last (l : list ascii) :
  last (strip_trailing_eq l) <> Some "="%char.
Proof.
  induction l as [|c rest IH]; [done|]. cbn [strip_trailing_eq].
  destruct (strip_trailing_eq rest) as [|c' rest'] eqn:E.
  - destruct (Ascii.eqb_spec c "="%char) as [->|Hne]; cbn; congruence.
  - exact IH.
Qed.

Lemma strip_trailing_eq_padding (l : list ascii) :
  exists n, l = strip_trailing_eq l ++ replicate n "="%char.
Proof.
  induction l as [|c rest [n IH]]; [by exists 0%nat|]. cbn [strip_trailing_eq].
  destruct (strip_trailing_eq rest) as [|c' rest'] eqn:E.
  - cbn [app] in IH. destruct (Ascii.eqb_spec c "="%char) as [->|Hne].
    + exists (S n). cbn. by rewrite <- IH.
    + exists n. cbn. by rewrite <- IH.
  - exists n. cbn [app] in *. by rewrite <- IH.
Qed.

Lemma list_ascii_length (s : string) :
  length (list_ascii_of_string s) = String.length s.
Proof. induction s as [|c s IH]; [done|]. cbn. by rewrite IH. Qed.

(** X17: The encoded [args] parameter of a query is safe in a URL: it holds no
    [+] and no [/], it does not end in the padding [=], and it is not
    longer than what [btoa] gave. *)
Theorem base64url_is_url_safe (data : string) :
  let out := list_ascii_of_string (encodeToBase64Url host data) in
  ("+"%char ∉ out) /\ ("/"%char ∉ out) /\ last out <> Some "="%char
  /\ (length out <= String.length (btoa host data))%nat.
Proof.
  cbn zeta. unfold encodeToBase64Url.
  rewrite list_ascii_of_string_of_list_ascii.
  set (swap := fun c : ascii => _).
  set (base64 := list_ascii_of_string (btoa host data)).
  destruct (strip_trailing_eq_padding (map swap base64)) as [n Hn].
  assert (forall c, c ∈ strip_trailing_eq (map swap base64) ->
                    exists c0, c = swap c0) as Hin.
  { intros c Hc.
    assert (c ∈ swap <$> base64) as Hc'.
    { change (c ∈ map swap base64). rewrite Hn. apply elem_of_app. by left. }
    apply list_elem_of_fmap in Hc' as (c0 & -> & _). by exists c0. }
  assert (forall c0, swap c0 <> "+"%char /\ swap c0 <> "/"%char) as Hswap.
  { intros c0. unfold swap.
    destruct (Ascii.eqb_spec c0 "+"%char); [done|].
    destruct (Ascii.eqb_spec c0 "/"%char); done. }
  split; [|split; [|split]].
  - intros H. apply Hin in H as [c0 H]. destruct (Hswap c0). congruence.
  - intros H. apply Hin in H as [c0 H]. destruct (Hswap c0). congruence.
  - apply strip_trailing_eq_last.
  - rewrite <- list_ascii_length. fold base64.
    assert (length (map swap base64)
            = (length (strip_trailing_eq (map swap base64)) + n)%nat) as Hlen
        by (rewrite Hn at 1; by rewrite length_app, length_replicate).
    rewrite length_map in Hlen. lia.
Qed.

(** X18: When a call resolves.  [call] resolves only in two cases: the answer
    has status 204 and an empty body, and the value is [null]; or the body
    is not empty, the status is in 200..299 and the decoder accepts the
    body, and the value is what it decoded.  (An empty body with another
    2xx status, a body the decoder refuses and every other status reject.)
    The response is then on the context. *)
Theorem call_resolves_only_decoded_success (st st' : State) (v : value) :
  call host baseUrl st = (st', Resolved v) <->
  exists response,
    snd (send host baseUrl st) = inl response
    /\ st' = {| ctx := with_response response (ctx (fst (send host baseUrl st)));
                heap := heap (fst (send host baseUrl st));
                sent := sent (fst (send host baseUrl st)) |}
    /\ ((response_body response = "" /\ status response = 204%Z /\ v = VNull)
        \/ (response_body response <> ""
            /\ (200 <= status response <= 299)%Z
            /\ unpack host (response_body response) = Some v)).
Proof.
  unfold call. destruct (send host baseUrl st) as [s [response|e]];
    cbn [fst snd]; cycle 1.
  { split; [done|]. intros (response & H & _). done. }
  assert ((String.length (response_body response) =? 0)%nat = true
          <-> response_body response = "") as Hempty.
  { rewrite Nat.eqb_eq. destruct (response_body response); split; done. }
  assert (ok response = true <-> (200 <= status response <= 299)%Z) as Hok.
  { unfold ok. rewrite andb_true_iff, !Z.leb_le. done. }
  destruct (String.length (response_body response) =? 0)%nat eqn:Hlen.
  - apply proj1 in Hempty. specialize (Hempty eq_refl).
    destruct (status response =? 204)%Z eqn:H204.
    + apply Z.eqb_eq in H204. split.
      * intros [= <- <-]. exists response. split; [done|]. split; [done|].
        by left.
      * intros (r & [= <-] & -> & [(_ & _ & ->)|(Hne & _)]); done.
    + apply Z.eqb_neq in H204. split.
      * destruct (negb (ok response)); done.
      * intros (r & [= <-] & -> & [(_ & H & _)|(Hne & _)]); done.
  - assert (response_body response <> "") as Hne.
    { intros E. apply Hempty in E. congruence. }
    destruct (unpack host (response_body response)) as [unpacked|] eqn:Hun.
    + destruct (ok response) eqn:Eok; cbn [negb].
      * apply proj1 in Hok. specialize (Hok eq_refl). split.
        -- intros [= <- <-]. exists response. split; [done|]. split; [done|].
           by right.
        -- intros (r & [= <-] & -> & [(E & _)|(_ & _ & H)]); [done|].
           rewrite Hun in H. by injection H as <-.
      * split; [done|].
        intros (r & [= <-] & -> & [(E & _)|(_ & H & _)]); [done|].
        apply Hok in H. congruence.
    + split; [done|].
      intros (r & [= <-] & -> & [(E & _)|(_ & _ & H)]); [done|].
      rewrite Hun in H. done.
Qed.


End TransportMore.

(** ** From the client's call to the server's parser *)

Section RoundTrips.
Import Client.
Variable chost : Client.Host.
Variable shost : Handler.Host.
Variable baseUrl : string.

Lemma assoc_get_in_keys {A} (k : string) (l : list (string * A)) (x : A) :
  assoc_get k l = Some x -> k ∈ l.*1.
Proof.
  intros H. destruct (decide (k ∈ l.*1)) as [|Hout]; [done|].
  apply assoc_get_None in Hout. congruence.
Qed.

Lemma assoc_get_reverse {A} (k : string) (l : list (string * A)) :
  NoDup l.*1 -> assoc_get k (reverse l) = assoc_get k l.
Proof.
  induction l as [|[k0 x] l IH]; [done|]. intros Hnd.
  apply NoDup_cons in Hnd as [Hout Hnd].
  rewrite reverse_cons, assoc_get_app, (IH Hnd). cbn [assoc_get].
  destruct (assoc_get k l) as [y|] eqn:E.
  - destruct (String.eqb_spec k0 k) as [->|Hne]; [|done].
    exfalso. apply Hout. by eapply assoc_get_in_keys.
  - done.
Qed.

(** The search parameters of a [get] call. *)
Lemma get_search_fold (a : list (string * value)) :
  forall (sp : list (string * string)) (k : string),
    NoDup a.*1 -> NoDup sp.*1 ->
    let r :=
      fold_left
        (fun sp kv =>
           match snd kv with
           | VUndefined | VNull => sp
           | v => assoc_set (fst kv) (to_String chost v) sp
           end) a sp in
    NoDup r.*1
    /\ assoc_get k r
       = match assoc_get k a with
         | Some VUndefined | Some VNull | None => assoc_get k sp
         | Some v => Some (to_String chost v)
         end.
Proof.
  induction a as [|[k0 v0] a IH]; intros sp k Ha Hsp; [done|].
  rewrite fmap_cons in Ha. apply NoDup_cons in Ha as [Hout Ha].
  cbn [fst] in Hout. cbn zeta. cbn [fold_left fst snd assoc_get].
  assert (assoc_get k a = None \/ k0 <> k) as Hk.
  { destruct (String.eqb_spec k0 k) as [->|Hne]; [left|by right].
    by apply assoc_get_None. }
  destruct v0;
    (match goal with
     | |- context [fold_left ?f a ?s] =>
         destruct (IH s k Ha ltac:(first [exact Hsp | by apply assoc_set_NoDup]))
           as [Hnd Hget]
     end);
    (split; [exact Hnd|]); rewrite Hget;
    (destruct (String.eqb_spec k0 k) as [->|Hne];
     [destruct Hk as [->|]; [|done]; first [done | apply assoc_get_set_eq]
     |destruct (assoc_get k a) as [[]|]; try done;
      apply assoc_get_set_ne; congruence]).
Qed.

(** X20: The arguments of a [get] call arrive as strings.  For a call whose
    URL can be made, what the server's
    [parseGet] reads from the search parameters the client put on the URL
    is an object with one property for every argument that is neither
    [undefined] nor [null], holding [String(value)]: numbers and booleans
    do not come back as such, and the arguments left out are not
    properties at all.  (The name [__proto__], which a JS object does not
    take as a property by assignment, is left aside.) *)
Theorem get_arguments_arrive_as_strings (st : State) (u : string) :
  rpcType (ctx st) = get ->
  NoDup (args (ctx st)).*1 ->
  request_URL chost baseUrl (path (ctx st)) = Some u ->
  exists req fields,
    sent (fst (send chost baseUrl st)) = sent st ++ [req]
    /\ Handler.parseGet (search req) = inl (VObj fields)
    /\ forall k,
         k <> "__proto__" ->
         assoc_get k fields
         = match assoc_get k (args (ctx st)) with
           | Some VUndefined | Some VNull | None => None
           | Some v => Some (VStr (to_String chost v))
           end.
Proof.
  intros Et Hnd Hurl. unfold send. rewrite Et. cbn [with_args path].
  rewrite Hurl. cbn.
  eexists. eexists. split; [reflexivity|]. split; [reflexivity|].
  intros k Hk.
  destruct (get_search_fold (args (ctx st)) [] k Hnd (NoDup_nil_2))
    as [Hsp Hget].
  match goal with
  | |- assoc_get k (fold_left _ ?sp []) = _ =>
      destruct (parseGet_fold sp [] k (NoDup_nil_2)) as [_ Hp]
  end.
  cbn zeta in Hp. rewrite (Hp Hk), (assoc_get_reverse _ _ Hsp), Hget.
  cbn [assoc_get].
  destruct (assoc_get k (args (ctx st))) as [[]|]; done.
Qed.

(** X21: The arguments of a [query] call survive the trip, when the URL of
    the call can be made.  An empty argument
    map puts nothing on the URL and the server reads the empty object;
    otherwise, where the server's decoder undoes the client's encoder on
    the [args] parameter (and the parameter is not the empty string), the
    server's [parseQuery] reads the arguments the client had. *)
Theorem query_arguments_round_trip (st : State) (u : string) :
  rpcType (ctx st) = query ->
  request_URL chost baseUrl (path (ctx st)) = Some u ->
  (args (ctx st) <> [] ->
   encodeToBase64Url chost (pack chost (VObj (args (ctx st)))) <> ""
   /\ Handler.unpack shost
        (Handler.from_base64url shost
           (encodeToBase64Url chost (pack chost (VObj (args (ctx st))))))
      = Some (VObj (args (ctx st)))) ->
  exists req,
    sent (fst (send chost baseUrl st)) = sent st ++ [req]
    /\ Handler.parseQuery shost (search req) = inl (VObj (args (ctx st))).
Proof.
  intros Et Hurl Hcodec. unfold send. rewrite Et. cbn [with_args path].
  rewrite Hurl. cbn.
  eexists. split; [reflexivity|]. cbn [search].
  destruct (args (ctx st)) as [|kv a] eqn:Ea; [done|].
  destruct Hcodec as [Hne Hun]; [done|].
  cbn [length Nat.ltb Nat.leb]. unfold Handler.parseQuery. cbn [assoc_get].
  rewrite String.eqb_refl.
  destruct (String.eqb_spec
              (encodeToBase64Url chost (pack chost (VObj (kv :: a)))) "")
    as [E|_]; [done|].
  cbn [negb]. rewrite Hun. done.
Qed.

Lemma extract_nothing (l : list (string * value)) :
  forall cur up,
    Forall (fun kv => is_upload (snd kv) = false) l ->
    fold_left extract_step l (cur, up) = (cur, up).
Proof.
  induction l as [|kv l IH]; intros cur up Hall; [done|].
  apply Forall_cons in Hall as [Hkv Hall]. cbn [fold_left].
  unfold extract_step at 2. rewrite Hkv. by apply IH.
Qed.

(** X22: The arguments of a [command] without uploads survive the trip,
    when the URL of the call can be made.  The
    body is the packed argument object; a server request that carries this
    body and the headers the client sent is parsed by the MessagePack
    parser, and where the server's decoder undoes the client's encoder
    (and the bytes are not empty) the server reads the arguments the
    client had. *)
Theorem command_arguments_round_trip (st : State) (u : string) :
  rpcType (ctx st) = command ->
  request_URL chost baseUrl (path (ctx st)) = Some u ->
  Forall (fun kv => is_upload (snd kv) = false) (args (ctx st)) ->
  pack chost (VObj (args (ctx st))) <> "" ->
  Handler.unpack shost (pack chost (VObj (args (ctx st))))
  = Some (VObj (args (ctx st))) ->
  exists req,
    sent (fst (send chost baseUrl st)) = sent st ++ [req]
    /\ req_body req = Bytes (pack chost (VObj (args (ctx st))))
    /\ forall r : Server.Request,
         Server.headers r = req_headers req ->
         Server.body r = pack chost (VObj (args (ctx st))) ->
         Handler.parseArgs shost Handler.command r
         = inl (VObj (args (ctx st))).
Proof.
  intros Et Hurl Hall Hne Hun. unfold send. rewrite Et.
  unfold extract_uploads. rewrite (extract_nothing _ _ _ Hall).
  cbn [with_args path]. rewrite Hurl. cbn.
  eexists. split; [reflexivity|]. cbn [req_body req_headers].
  split; [reflexivity|]. intros r Hh Hb.
  assert (match headers_get "Content-Type" (Server.headers r) with
          | Some c => c
          | None => ""
          end = "application/msgpack"
          \/ match headers_get "Content-Type" (Server.headers r) with
             | Some c => c
             | None => ""
             end = "") as Hct.
  { rewrite Hh. unfold request_headers, Headers_set. cbn [_headers].
    destruct (heap st !! _headers (ctx st)) as [hs|] eqn:El.
    - left. rewrite lookup_insert_eq. cbn [default from_option id].
      by rewrite (headers_get_set_eq "Content-Type" "Content-Type").
    - right. rewrite El. cbn [default from_option id]. unfold headers_get.
      by rewrite lookup_empty. }
  change (Handler.parseArgs shost Handler.command r
          = inl (VObj (args (ctx st)))).
  unfold Handler.parseArgs. cbv beta iota zeta.
  unfold Handler.parseCommandMsgpackr.
  assert ((0 <? String.length (Server.body r))%nat = true) as Hlen.
  { rewrite Hb. apply Nat.ltb_lt.
    destruct (pack chost (VObj (args (ctx st)))); [done | cbn; lia]. }
  destruct Hct as [-> | ->];
    match goal with
    | |- context [includes ?n ?s] =>
        replace (includes n s) with false by (vm_compute; reflexivity)
    end;
    match goal with
    | |- context [includes ?n ?s] =>
        replace (includes n s) with false by (vm_compute; reflexivity)
    end;
    rewrite Hlen, Hb, Hun; done.
Qed.

(** X23: Paths with the same kebab form are the same call.  The middleware
    chain and the route key in the URL are found from the kebab form of
    the path alone: two paths whose levels have the same kebab form (as
    [getUserID] and [getUserId] have) run the same middleware and have
    the same route key. *)
Theorem same_kebab_form_same_call (middlewareMap : Proxy.MiddlewareMap)
        (p p' : list string) :
  map Kebab.camelToKebabCase p = map Kebab.camelToKebabCase p' ->
  Proxy.chain chost baseUrl middlewareMap p
  = Proxy.chain chost baseUrl middlewareMap p'
  /\ route_key p = route_key p'.
Proof.
  intros E.
  assert (forall i, route_key (take i p) = route_key (take i p')) as Hkey.
  { intros i. unfold route_key.
    change (map Kebab.camelToKebabCase (take i p))
      with (Kebab.camelToKebabCase <$> take i p).
    change (map Kebab.camelToKebabCase (take i p'))
      with (Kebab.camelToKebabCase <$> take i p').
    rewrite !fmap_take.
    change (Kebab.camelToKebabCase <$> p) with (map Kebab.camelToKebabCase p).
    change (Kebab.camelToKebabCase <$> p') with (map Kebab.camelToKebabCase p').
    by rewrite E. }
  assert (length p = length p') as Hlen.
  { rewrite <- (length_map Kebab.camelToKebabCase p), E. apply length_map. }
  split.
  - unfold Proxy.chain. rewrite !assemble_spec, Hlen. do 3 f_equal.
    apply map_ext. intros i. by rewrite Hkey.
  - unfold route_key. by rewrite E.
Qed.

End RoundTrips.

Section RoundTripWitnesses.
Import Client.

Lemma get_arguments_arrive_as_strings_witness :
  exists req fields,
    sent (fst (send MoreSamples.printing_host Samples.base
                 (MoreSamples.client_state get MoreSamples.lookup_args)))
    = [] ++ [req]
    /\ Handler.parseGet (search req) = inl (VObj fields)
    /\ assoc_get "id" fields = Some (VStr "7")
    /\ assoc_get "draft" fields = Some (VStr "false")
    /\ assoc_get "skip" fields = None.
Proof.
  destruct (get_arguments_arrive_as_strings MoreSamples.printing_host
              Samples.base
              (MoreSamples.client_state get MoreSamples.lookup_args)
              "https://api.example.com/api/posts.get-by-id")
    as (req & fields & Hs & Hp & Hk).
  - reflexivity.
  - exact (Map_new_NoDup _).
  - vm_compute. reflexivity.
  - exists req, fields. split; [exact Hs|]. split; [exact Hp|].
    rewrite !Hk by discriminate. vm_compute. done.
Defined.

Lemma query_arguments_round_trip_witness :
  exists req,
    sent (fst (send Samples.client_host Samples.base
                 (MoreSamples.client_state query MoreSamples.lookup_args)))
    = [] ++ [req]
    /\ Handler.parseQuery (MoreSamples.echo_host MoreSamples.lookup_args)
         (search req)
       = inl MoreSamples.lookup_args.
Proof.
  apply (query_arguments_round_trip Samples.client_host
           (MoreSamples.echo_host MoreSamples.lookup_args) Samples.base
           (MoreSamples.client_state query MoreSamples.lookup_args)
           "https://api.example.com/api/posts.get-by-id").
  - reflexivity.
  - vm_compute. reflexivity.
  - intros _. vm_compute. split; [discriminate | reflexivity].
Defined.

Lemma command_arguments_round_trip_witness :
  exists req,
    sent (fst (send Samples.client_host Samples.base
                 (MoreSamples.client_state command MoreSamples.lookup_args)))
    = [] ++ [req]
    /\ req_body req = Bytes "m".
Proof.
  destruct (command_arguments_round_trip Samples.client_host
              (MoreSamples.echo_host MoreSamples.lookup_args) Samples.base
              (MoreSamples.client_state command MoreSamples.lookup_args)
              "https://api.example.com/api/posts.get-by-id")
    as (req & Hs & Hb & _).
  - reflexivity.
  - vm_compute. reflexivity.
  - repeat constructor.
  - discriminate.
  - reflexivity.
  - exists req. split; [exact Hs | exact Hb].
Defined.

Lemma same_kebab_form_same_call_witness :
  map Kebab.camelToKebabCase ["users"; "getUserID"]
  = map Kebab.camelToKebabCase ["users"; "getUserId"]
  /\ route_key ["users"; "getUserID"] = route_key ["users"; "getUserId"].
Proof.
  assert (map Kebab.camelToKebabCase ["users"; "getUserID"]
          = map Kebab.camelToKebabCase ["users"; "getUserId"]) as H
      by (vm_compute; reflexivity).
  split; [exact H|].
  exact (proj2 (same_kebab_form_same_call Samples.client_host Samples.base
                  ∅ _ _ H)).
Defined.

End RoundTripWitnesses.

(** ** The parts of a multipart form *)

Section MultipartMore.
Import Server Handler.
Variable host : Host.

Lemma list_includes_spec (k : string) (l : list string) :
  list_includes k l = true <-> k ∈ l.
Proof.
  unfold list_includes. rewrite existsb_exists. split.
  - intros (x & Hx & E). apply String.eqb_eq in E as ->.
    by apply list_elem_of_In.
  - intros H. exists k. split; [by apply list_elem_of_In | apply String.eqb_refl].
Qed.

Lemma form_keys_spec (form : list (string * FormEntry)) :
  forall (seen : list string) (k : string),
    k ∈ form_keys form seen <-> k ∈ seen \/ k ∈ form.*1.
Proof.
  induction form as [|[k0 e] form IH]; intros seen k; cbn [form_keys].
  - set_solver.
  - rewrite IH, fmap_cons. cbn [fst].
    destruct (list_includes k0 seen) eqn:E.
    + apply list_includes_spec in E. set_solver.
    + set_solver.
Qed.

Lemma augment_object (form : list (string * FormEntry)) (f0 : list (string * value))
      (k : string) :
  augment form (inl (VObj f0)) k
  = inl (VObj (if String.eqb k "args" || String.eqb (argument_name k) "__proto__"
               then f0
               else assoc_set (argument_name k) (argument_value k form) f0)).
Proof.
  unfold augment, argument_name, argument_value, assign.
  destruct (String.eqb k "args"); [done|]. cbn [orb].
  destruct (ends_with_brackets k).
  - by destruct (String.eqb _ "__proto__").
  - destruct (String.eqb k "__proto__"); destruct (assoc_get k form); done.
Qed.

Lemma fold_augment_object (form : list (string * FormEntry)) (ks : list string) :
  forall (x : value + exn) (fields : list (string * value)),
    fold_left (augment form) ks x = inl (VObj fields) ->
    exists f0, x = inl (VObj f0).
Proof.
  induction ks as [|k ks IH]; intros x fields H; cbn [fold_left] in H.
  - eauto.
  - apply IH in H as [f1 H]. destruct x as [a|e]; [|done].
    unfold augment in H.
    destruct (String.eqb k "args"); [injection H as ->; eauto|].
    assert (forall name v, assign name v a = inl (VObj f1) ->
                           exists f0, inl a = inl (B := exn) (VObj f0)) as Ha.
    { intros name v. unfold assign. destruct (String.eqb name "__proto__");
        destruct a; cbn; intros; simplify_eq; eauto. }
    destruct (ends_with_brackets k); [by eapply Ha|].
    destruct (assoc_get k form); by eapply Ha.
Qed.

Lemma fold_augment_field (form : list (string * FormEntry)) (key : string)
      (ks : list string) :
  forall (f0 fields : list (string * value)),
    fold_left (augment form) ks (inl (VObj f0)) = inl (VObj fields) ->
    (forall key', key' ∈ ks -> key' <> "args" ->
                  argument_name key' = argument_name key -> key' = key) ->
    key <> "args" -> argument_name key <> "__proto__" ->
    key ∈ ks
    \/ assoc_get (argument_name key) f0 = Some (argument_value key form) ->
    assoc_get (argument_name key) fields = Some (argument_value key form).
Proof.
  induction ks as [|k ks IH]; intros f0 fields H Hapart Hkey Hproto Hin;
    cbn [fold_left] in H.
  - injection H as <-. destruct Hin as [Hin|Hin]; [|done].
    by apply not_elem_of_nil in Hin.
  - rewrite augment_object in H. apply (IH _ _ H).
    + intros key' Hin'. apply Hapart. by right.
    + done.
    + done.
    + destruct (decide (k = key)) as [->|Hne].
      * right. destruct (String.eqb_spec key "args"); [done|].
        destruct (String.eqb_spec (argument_name key) "__proto__"); [done|].
        apply assoc_get_set_eq.
      * destruct Hin as [Hin|Hin].
        { left. apply elem_of_cons in Hin as [Hin|Hin]; [congruence|done]. }
        right. destruct (String.eqb_spec k "args") as [E|Hargs]; [done|].
        destruct (String.eqb_spec (argument_name k) "__proto__"); [done|].
        cbn [orb]. rewrite assoc_get_set_ne; [done|].
        intros E. apply Hne. apply Hapart; [by left|done|done].
Qed.

(** X15: What becomes of the parts of a multipart form.  Every part name other
    than [args] becomes an argument: a name that ends in [[]] gives, under
    the name without the brackets, the list of all the parts of that name
    in their order (a list also when there is one part); another name
    gives, under the name itself, its first part.  (Two names stored under
    the same argument, as [files] and [files[]] are, overwrite one another;
    the statement is for a name that is alone in its argument, and for an
    argument other than [__proto__], which a JS object does not take as a
    property by assignment.) *)
Theorem multipart_parts_become_arguments (req : Request)
        (form : list (string * FormEntry)) (fields : list (string * value))
        (key : string) :
  formData req = Some form ->
  parseCommandMultipartFormData host req = inl (VObj fields) ->
  key ∈ form.*1 -> key <> "args" -> argument_name key <> "__proto__" ->
  (forall key', key' ∈ form.*1 -> key' <> "args" ->
                argument_name key' = argument_name key -> key' = key) ->
  assoc_get (argument_name key) fields = Some (argument_value key form).
Proof.
  intros Hform Hparse Hin Hkey Hproto Hapart.
  unfold parseCommandMultipartFormData in Hparse. rewrite Hform in Hparse.
  destruct (fold_augment_object _ _ _ _ Hparse) as [f0 Hbase].
  rewrite Hbase in Hparse.
  apply (fold_augment_field form key _ _ _ Hparse).
  - intros key' Hin'. apply Hapart.
    apply form_keys_spec in Hin' as [Hin'|Hin']; [|done].
    by apply not_elem_of_nil in Hin'.
  - done.
  - done.
  - left. apply form_keys_spec. by right.
Qed.

End MultipartMore.

Lemma multipart_parts_become_arguments_witness :
  exists fields,
    Handler.parseCommandMultipartFormData Samples.server_host
      MoreSamples.upload_request = inl (VObj fields)
    /\ assoc_get "files" fields = Some (VArr [VFile "a.png"; VFile "b.png"])
    /\ assoc_get "title" fields = Some (VStr "t").
Proof.
  assert (Handler.parseCommandMultipartFormData Samples.server_host
            MoreSamples.upload_request
          = inl (VObj [("title", VStr "t");
                       ("files", VArr [VFile "a.png"; VFile "b.png"])])) as H
      by (vm_compute; reflexivity).
  eexists. split; [exact H|]. split; [|reflexivity].
  apply (multipart_parts_become_arguments Samples.server_host
           MoreSamples.upload_request MoreSamples.upload_form _ "files[]"
           eq_refl H).
  - set_solver.
  - discriminate.
  - vm_compute. discriminate.
  - intros key' Hin _ E. cbn in Hin. set_unfold in Hin.
    destruct Hin as [->|[->|[->|[]]]]; [vm_compute in E; discriminate|done|done].
Defined.

(** ** The arguments on the two contexts *)

Section ContextArguments.

Lemma assoc_set_fresh {A} (k : string) (v : A) (l : list (string * A)) :
  k ∉ l.*1 -> assoc_set k v l = l ++ [(k, v)].
Proof.
  induction l as [|[k0 x] l IH]; [done|]. rewrite fmap_cons. cbn [fst].
  intros Hout. apply not_elem_of_cons in Hout as [Hne Hout].
  cbn [assoc_set app]. destruct (String.eqb_spec k0 k); [congruence|].
  by rewrite IH.
Qed.

Lemma Map_new_fold {A} (l : list (string * A)) :
  forall acc,
    NoDup (acc ++ l).*1 ->
    fold_left (fun m kv => assoc_set (fst kv) (snd kv) m) l acc = acc ++ l.
Proof.
  induction l as [|[k v] l IH]; intros acc Hnd; cbn [fold_left fst snd].
  - by rewrite app_nil_r.
  - rewrite assoc_set_fresh.
    + rewrite IH; rewrite <- app_assoc; done.
    + rewrite fmap_app, fmap_cons in Hnd. cbn [fst] in Hnd.
      apply NoDup_app in Hnd as (_ & Hout & _). intros Hin.
      apply (Hout k Hin). by left.
Qed.

Lemma Map_new_id {A} (l : list (string * A)) : NoDup l.*1 -> Map_new l = l.
Proof. intros H. apply (Map_new_fold l []). exact H. Qed.

Lemma indexed_from_keys (items : list value) :
  forall i, (indexed_from i items).*1 = pretty <$> seq i (length items).
Proof.
  induction items as [|x items IH]; intros i; [done|].
  cbn [indexed_from length seq]. rewrite !fmap_cons, IH. done.
Qed.

Lemma indexed_from_NoDup (i : nat) (items : list value) :
  NoDup (indexed_from i items).*1.
Proof.
  rewrite indexed_from_keys. apply NoDup_fmap_2; [apply _ | apply NoDup_seq].
Qed.

(** X16: What a handler and a middleware read with [getArgs].  Both
    contexts keep the own properties of what they were given, in their
    order: an object comes back as it was; an array comes back as an
    object keyed by the indices, a string as an object of its characters;
    [undefined], [null], numbers, booleans and files come back as the
    empty object.  The server context hands on a property named
    [__proto__] as well; the client context, which fills its object by
    assignment, leaves that one out. *)
Theorem contexts_hand_on_the_own_properties (now : Z) (a : value)
        (ev : Server.RequestEvent) (p : list string) (t : Client.RpcType)
        (options : Client.CallOptions) (h : Client.Heap) :
  (forall fields, a = VObj fields -> NoDup fields.*1) ->
  let own :=
    match a with
    | VObj fields => fields
    | VArr items => indexed_from 0 items
    | VStr s =>
        indexed_from 0
          (map (fun c => VStr (String c "")) (list_ascii_of_string s))
    | _ => []
    end in
  Server.getArgs (Server.new_ServerContext now a ev) = VObj own
  /\ Client.getArgs (fst (Client.new_ClientContext p a t options h))
     = VObj (filter (fun kv => fst kv <> "__proto__") own).
Proof.
  intros Hnd. cbn zeta.
  assert (Map_new (Object_entries (or_empty a))
          = match a with
            | VObj fields => fields
            | VArr items => indexed_from 0 items
            | VStr s =>
                indexed_from 0
                  (map (fun c => VStr (String c "")) (list_ascii_of_string s))
            | _ => []
            end) as Hown.
  { unfold or_empty. destruct a as [| |b|n|s|name|items|fields]; cbn; try done.
    - by destruct b.
    - by destruct (n =? 0)%Z.
    - destruct s as [|c s]; [done|]. cbn [String.eqb negb Object_entries].
      apply Map_new_id, indexed_from_NoDup.
    - apply Map_new_id, indexed_from_NoDup.
    - apply Map_new_id, Hnd. done. }
  split.
  - unfold Server.getArgs, Server.new_ServerContext. cbn [Server.args].
    by rewrite Hown.
  - unfold Client.getArgs.
    destruct (new_ClientContext_fields p a t options h) as (_ & _ & ->).
    by rewrite Hown.
Qed.

End ContextArguments.

Lemma contexts_hand_on_the_own_properties_witness :
  Server.getArgs
    (Server.new_ServerContext 0 (VArr [VNum 1; VNum 2]) Samples.bare_event)
  = VObj [("0", VNum 1); ("1", VNum 2)]
  /\ Client.getArgs
       (fst (Client.new_ClientContext ["posts"] (VArr [VNum 1; VNum 2])
               Client.query Client.no_options ∅))
     = VObj [("0", VNum 1); ("1", VNum 2)].
Proof.
  destruct (contexts_hand_on_the_own_properties 0 (VArr [VNum 1; VNum 2])
              Samples.bare_event ["posts"] Client.query Client.no_options ∅)
    as [H1 H2].
  - intros fields H. discriminate H.
  - split; [exact H1|]. rewrite H2. vm_compute. reflexivity.
Defined.
